(** * separate-snippets: a shallow embedding of [scripts/separate-snippets.ts]

    The script scans JavaScript sources for [[START name]] / [[END name]]
    comment tags, collects the tagged regions (which may nest), pushes every
    region through four line transforms and writes one file per region.

    Conventions of the embedding.
    - A JavaScript string is the list of its UTF-16 code units ([jsstring]);
      [length], [substr], [trim] and the regular expressions of the script
      (none has the [u] flag) all work on code units.
    - The regular expressions of the script are values of a small regex
      syntax, run by a backtracking matcher that follows the ECMAScript
      rules the script relies on (leftmost match, greedy and lazy
      quantifiers, capture groups).
    - [config.map] is a plain JavaScript object: its own properties are a
      [gmap], and reads fall back on [Object.prototype].
    - A function that can [throw] returns a [result]: [Ok] with its value
      or [Throw] with the error.
    - The file system and [find] are outside: [collectSnippets] takes the
      contents of the file, and of [main] only the computation of the
      output path is here. The order in which [for ... in] visits the
      regions is not modelled; no property below depends on it. *)

From Stdlib Require Import String Ascii NArith.
From stdpp Require Import base option list gmap.

Local Open Scope N_scope.

(* ===================================================================== *)
(** ** JavaScript strings *)
(* ===================================================================== *)

Module Js.

(** One UTF-16 code unit. *)
Abbreviation code := N (only parsing).
Abbreviation jsstring := (list N) (only parsing).

(** A string literal of the source, as code units. *)
Definition lit (s : string) : jsstring :=
  List.map N_of_ascii (list_ascii_of_string s).
Arguments lit s%_string.

(** ECMAScript [WhiteSpace] and [LineTerminator] code points: the class
    [\s] of regular expressions and the characters removed by [trim]. *)
Definition isWhiteSpace (c : code) : bool :=
  (9 <=? c) && (c <=? 13)
  || (c =? 32) || (c =? 160) || (c =? 0x1680)
  || (0x2000 <=? c) && (c <=? 0x200A)
  || (c =? 0x2028) || (c =? 0x2029) || (c =? 0x202F) || (c =? 0x205F)
  || (c =? 0x3000) || (c =? 0xFEFF).

(** [LineTerminator]: what the regex atom [.] refuses. *)
Definition isLineTerminator (c : code) : bool :=
  (c =? 10) || (c =? 13) || (c =? 0x2028) || (c =? 0x2029).

Definition isUpper (c : code) : bool := (65 <=? c) && (c <=? 90).
Definition isLower (c : code) : bool := (97 <=? c) && (c <=? 122).
Definition isDigit (c : code) : bool := (48 <=? c) && (c <=? 57).

Fixpoint dropWhile (p : code -> bool) (s : jsstring) : jsstring :=
  match s with
  | c :: s' => if p c then dropWhile p s' else s
  | [] => []
  end.

(** [String.prototype.trimLeft], [trim]. *)
Definition trimLeft (s : jsstring) : jsstring := dropWhile isWhiteSpace s.
Definition trimRight (s : jsstring) : jsstring :=
  rev (dropWhile isWhiteSpace (rev s)).
Definition trim (s : jsstring) : jsstring := trimRight (trimLeft s).

(** [s.startsWith(p)]. *)
Fixpoint startsWith (p s : jsstring) : bool :=
  match p, s with
  | [], _ => true
  | a :: p', b :: s' => (a =? b) && startsWith p' s'
  | _ :: _, [] => false
  end.

(** [s.indexOf(p)]: the first position at which [p] occurs, [None] for -1. *)
Fixpoint indexOf (p s : jsstring) : option nat :=
  if startsWith p s then Some 0%nat
  else match s with
       | [] => None
       | _ :: s' => S <$> indexOf p s'
       end.

(** [s.split(sep)] for a one-character separator. *)
Fixpoint split (sep : code) (s : jsstring) : list jsstring :=
  match s with
  | [] => [[]]
  | c :: s' =>
      if c =? sep then [] :: split sep s'
      else match split sep s' with
           | w :: ws => (c :: w) :: ws
           | [] => [[c]]
           end
  end.

(** [parts.join(sep)]. *)
Fixpoint join (sep : jsstring) (parts : list jsstring) : jsstring :=
  match parts with
  | [] => []
  | [w] => w
  | w :: ws => w ++ sep ++ join sep ws
  end.

(** A JavaScript number as far as the script needs one: a natural number or
    [Infinity] (what [Math.min()] of no argument returns). *)
Inductive number := Fin (n : nat) | Infinity.

(** [Math.min(...sizes)]. *)
Fixpoint mathMin (sizes : list nat) : number :=
  match sizes with
  | [] => Infinity
  | n :: rest => match mathMin rest with
                 | Infinity => Fin n
                 | Fin m => Fin (Nat.min n m)
                 end
  end.

(** [s.substr(start)] for a start that is not negative: the rest of the
    string from [start], empty once [start] reaches the length. *)
Definition substr (start : number) (s : jsstring) : jsstring :=
  match start with
  | Fin n => drop n s
  | Infinity => []
  end.

End Js.

(* ===================================================================== *)
(** ** Regular expressions *)
(* ===================================================================== *)

Module Regex.
Import Js.

(** The fragment of the regex syntax the script uses: literal text, a
    quantified character class ([c*], [c+], [c*?], [c+?]), a capture group
    and concatenation. Groups are numbered in the order they close, which is
    the order of their opening parentheses as long as they do not nest. *)
Inductive regex :=
  | Lit (s : jsstring)
  | Rep (greedy : bool) (atLeastOne : bool) (cls : code -> bool)
  | Grp (r : regex)
  | Seq (r1 r2 : regex).

Section Matcher.
Context {A : Type}.

(** [cls*] greedy: take one more character if possible, and come back to
    the continuation at this point when what follows fails. *)
Fixpoint starGreedy (cls : code -> bool) (k : jsstring -> option A)
    (s : jsstring) : option A :=
  match s with
  | c :: s' =>
      if cls c then
        match starGreedy cls k s' with
        | Some r => Some r
        | None => k s
        end
      else k s
  | [] => k []
  end.

(** [cls*?] lazy: try the continuation first, take one more character only
    when it fails. *)
Fixpoint starLazy (cls : code -> bool) (k : jsstring -> option A)
    (s : jsstring) : option A :=
  match k s with
  | Some r => Some r
  | None =>
      match s with
      | c :: s' => if cls c then starLazy cls k s' else None
      | [] => None
      end
  end.

Definition rep (greedy atLeastOne : bool) (cls : code -> bool)
    (k : jsstring -> option A) (s : jsstring) : option A :=
  let star := if greedy then starGreedy cls k else starLazy cls k in
  if atLeastOne then
    match s with
    | c :: s' => if cls c then star s' else None
    | [] => None
    end
  else star s.

(** The backtracking matcher, in continuation-passing style: [k] receives
    the rest of the input and the captures so far. *)
Fixpoint run (r : regex) (s : jsstring) (caps : list jsstring)
    (k : jsstring -> list jsstring -> option A) : option A :=
  match r with
  | Lit p => if startsWith p s then k (drop (length p) s) caps else None
  | Rep greedy atLeastOne cls =>
      rep greedy atLeastOne cls (fun s' => k s' caps) s
  | Grp r' =>
      run r' s caps
        (fun s' caps' => k s' (caps' ++ [take (length s - length s') s]))
  | Seq r1 r2 =>
      run r1 s caps (fun s' caps' => run r2 s' caps' k)
  end.
End Matcher.

(** The result of [str.match(re)] for a regex without the [g] flag: where
    the match starts, the matched text ([m[0]]) and the captures
    ([m[1]], [m[2]], ...). *)
Record matchResult := MatchResult {
  index : nat;
  matched : jsstring;
  groups : list jsstring;
}.

(** [m[n]] for n >= 1; a group that does not exist reads as the empty
    string here (the script only reads groups its regex has). *)
Definition group (n : nat) (m : matchResult) : jsstring :=
  nth (n - 1) (groups m) [].

Definition matchAt (r : regex) (i : nat) (s : jsstring) : option matchResult :=
  run r s [] (fun s' caps =>
    Some (MatchResult i (take (length s - length s') s) caps)).

(** Try every start position from the left. *)
Fixpoint search (r : regex) (i : nat) (s : jsstring) : option matchResult :=
  match matchAt r i s with
  | Some m => Some m
  | None =>
      match s with
      | [] => None
      | _ :: s' => search r (S i) s'
      end
  end.

(** [s.match(r)]. *)
Definition exec (r : regex) (s : jsstring) : option matchResult :=
  search r 0 s.

(** [GetSubstitution] of ECMAScript: expands [$$], [$&], [$`], [$'], [$n]
    and [$nn] in a replacement template. A two-digit reference past the last
    group falls back on its first digit; a reference to no group stays as
    written. The regexes here have no named groups, so [$<] is literal. *)
Section Substitution.
Variables (str : jsstring) (m : matchResult).

Definition digitVal (c : code) : nat := N.to_nat (c - 48).

Definition capture (n : nat) : option jsstring :=
  if ((1 <=? n) && (n <=? length (groups m)))%nat
  then Some (group n m) else None.

Fixpoint getSubstitution (template : jsstring) : jsstring :=
  match template with
  | [] => []
  | c :: rest =>
      if negb (c =? 36) then c :: getSubstitution rest
      else
        match rest with
        | [] => [c]
        | d :: rest' =>
            if d =? 36 then 36 :: getSubstitution rest'
            else if d =? 38 then matched m ++ getSubstitution rest'
            else if d =? 96 then take (index m) str ++ getSubstitution rest'
            else if d =? 39 then
              drop (index m + length (matched m)) str ++ getSubstitution rest'
            else if isDigit d then
              let one :=
                match capture (digitVal d) with
                | Some g => g ++ getSubstitution rest'
                | None => c :: d :: getSubstitution rest'
                end in
              match rest' with
              | e :: rest'' =>
                  if isDigit e then
                    match capture (10 * digitVal d + digitVal e) with
                    | Some g => g ++ getSubstitution rest''
                    | None => one
                    end
                  else one
              | [] => one
              end
            else c :: getSubstitution rest
        end
  end.
End Substitution.

(** [s.replace(r, template)] for a regex without the [g] flag: the first
    match is replaced by the expanded template. *)
Definition replace (r : regex) (template : jsstring) (s : jsstring) : jsstring :=
  match exec r s with
  | None => s
  | Some m =>
      take (index m) s ++ getSubstitution s m template
        ++ drop (index m + length (matched m)) s
  end.

(** [s.replace(pattern, replacement)] for a string pattern and a replacement
    without [$]: the first occurrence is replaced. *)
Definition replaceString (pattern replacement s : jsstring) : jsstring :=
  match indexOf pattern s with
  | None => s
  | Some i => take i s ++ replacement ++ drop (i + length pattern) s
  end.

(** [s.replace(/c/g, replacement)] for a one-character regex. *)
Definition replaceAllChar (c : code) (replacement : jsstring) (s : jsstring)
    : jsstring :=
  concat (List.map (fun x => if x =? c then replacement else [x]) s).

End Regex.

(* ===================================================================== *)
(** ** Node's [path.join] (POSIX) *)
(* ===================================================================== *)

Module Path.
Import Js.

(** One step of [normalizeString]: empty and [.] segments vanish, [..]
    removes the segment before it, or stays when there is none to remove and
    the path is relative. *)
Definition pushSegment (allowAboveRoot : bool) (acc : list jsstring)
    (seg : jsstring) : list jsstring :=
  if bool_decide (seg = [] \/ seg = lit ".") then acc
  else if bool_decide (seg = lit "..") then
    match last acc with
    | Some prev =>
        if bool_decide (prev = lit "..")
        then (if allowAboveRoot then acc ++ [seg] else acc)
        else removelast acc
    | None => if allowAboveRoot then acc ++ [seg] else acc
    end
  else acc ++ [seg].

Definition normalizeString (allowAboveRoot : bool) (path : jsstring)
    : jsstring :=
  join (lit "/") (fold_left (pushSegment allowAboveRoot) (split 47 path) []).

(** [path.normalize]. *)
Definition normalize (path : jsstring) : jsstring :=
  match path with
  | [] => lit "."
  | c :: _ =>
      let isAbsolute := c =? 47 in
      let trailingSeparator :=
        match last path with Some d => d =? 47 | None => false end in
      let p := normalizeString (negb isAbsolute) path in
      match p with
      | [] =>
          if isAbsolute then lit "/"
          else if trailingSeparator then lit "./" else lit "."
      | _ =>
          (if isAbsolute then lit "/" else [])
            ++ p ++ (if trailingSeparator then lit "/" else [])
      end
  end.

(** [path.join(a, b)]: the non-empty arguments joined by [/], normalized. *)
Definition pathJoin (a b : jsstring) : jsstring :=
  match filter (fun x : jsstring => x <> []) [a; b] with
  | [] => lit "."
  | parts => normalize (join (lit "/") parts)
  end.

End Path.

(* ===================================================================== *)
(** ** [scripts/separate-snippets.ts] *)
(* ===================================================================== *)

Import Js Regex Path.

(** The character classes [[A-Za-z_]], [[A-Za-z0-9_]] and [.] of the
    regexes below; [\s] is [isWhiteSpace]. *)
Definition nameChar (c : code) : bool := isUpper c || isLower c || (c =? 95).
Definition suffixChar (c : code) : bool :=
  isUpper c || isLower c || isDigit c || (c =? 95).
Definition anyChar (c : code) : bool := negb (isLineTerminator c).

Declare Scope regex_scope.
Delimit Scope regex_scope with re.
Infix "·" := Seq (at level 60, right associativity) : regex_scope.
Local Open Scope regex_scope.

(** [/\[SNIPPETS_SEPARATION\s+enabled\]/] *)
Definition RE_SNIPPETS_SEPARATION : regex :=
  Lit (lit "[SNIPPETS_SEPARATION") · Rep true true isWhiteSpace
    · Lit (lit "enabled]").

(** [/\[SNIPPETS_SUFFIX\s+([A-Za-z0-9_]+)\]/] *)
Definition RE_SNIPPETS_SUFFIX : regex :=
  Lit (lit "[SNIPPETS_SUFFIX") · Rep true true isWhiteSpace
    · Grp (Rep true true suffixChar) · Lit (lit "]").

(** [/\[START\s+([A-Za-z_]+)\s*\]/] and [/\[END\s+([A-Za-z_]+)\s*\]/] *)
Definition RE_START_SNIPPET : regex :=
  Lit (lit "[START") · Rep true true isWhiteSpace
    · Grp (Rep true true nameChar) · Rep true false isWhiteSpace
    · Lit (lit "]").
Definition RE_END_SNIPPET : regex :=
  Lit (lit "[END") · Rep true true isWhiteSpace
    · Grp (Rep true true nameChar) · Rep true false isWhiteSpace
    · Lit (lit "]").

(** [/const {(.+?)} = require\((.+?)\)/] *)
Definition RE_REQUIRE : regex :=
  Lit (lit "const {") · Grp (Rep false true anyChar)
    · Lit (lit "} = require(") · Grp (Rep false true anyChar)
    · Lit (lit ")").

Definition DEFAULT_SUFFIX : jsstring := lit "_modular".

Definition isBlank (line : jsstring) : bool :=
  (length (trim line) =? 0)%nat.

(** [line.match(re)] used as a condition. *)
Definition matches (re : regex) (line : jsstring) : bool :=
  bool_decide (is_Some (exec re line)).

Definition replaceRequireWithImport (lines : list jsstring) : list jsstring :=
  List.map (fun line =>
    if matches RE_REQUIRE line
    then replace RE_REQUIRE (lit "import {$1} from $2") line
    else line) lines.

Definition addSuffixToSnippetNames (lines : list jsstring)
    (snippetSuffix : jsstring) : list jsstring :=
  List.map (fun line =>
    if matches RE_START_SNIPPET line then
      replace RE_START_SNIPPET (lit "[START $1" ++ snippetSuffix ++ lit "]") line
    else if matches RE_END_SNIPPET line then
      replace RE_END_SNIPPET (lit "[END $1" ++ snippetSuffix ++ lit "]") line
    else line) lines.

Definition indentSize (l : jsstring) : nat := length l - length (trimLeft l).

Definition adjustIndentation (lines : list jsstring) : list jsstring :=
  let nonBlankLines := List.filter (fun l => negb (isBlank l)) lines in
  let indentSizes := List.map indentSize nonBlankLines in
  let minIndent := mathMin indentSizes in
  List.map (fun line => if isBlank line then [] else substr minIndent line)
    lines.

(** [lines.findIndex(p)], [None] for -1. *)
Fixpoint findIndex {A} (p : A -> bool) (l : list A) : option nat :=
  match l with
  | [] => None
  | x :: l' => if p x then Some 0%nat else S <$> findIndex p l'
  end.

(** [findIndex] returns -1 or an index of the array, so the read
    [outputLines[firstNonComment]] always finds a line. *)
Definition removeFirstLineAfterComments (lines : list jsstring)
    : list jsstring :=
  match findIndex (fun l => negb (startsWith (lit "//") l)) lines with
  | Some firstNonComment =>
      match lines !! firstNonComment with
      | Some l => if isBlank l then delete firstNonComment lines else lines
      | None => lines
      end
  | None => lines
  end.

(** The four transformations of [processSnippet], in its order. *)
Definition transformLines (lines : list jsstring) (snippetSuffix : jsstring)
    : list jsstring :=
  let outputLines := replaceRequireWithImport lines in
  let outputLines := addSuffixToSnippetNames outputLines snippetSuffix in
  let outputLines := adjustIndentation outputLines in
  removeFirstLineAfterComments outputLines.

Definition preambleLines (sourceFile : jsstring) : list jsstring :=
  [ lit "// This snippet file was generated by processing the source file:";
    lit "// " ++ sourceFile;
    lit "//";
    lit "// To update the snippets in this file, edit the source and then run";
    lit "// 'npm run snippets'.";
    lit "" ].

Definition processSnippet (lines : list jsstring) (sourceFile : jsstring)
    (snippetSuffix : jsstring) : jsstring :=
  join [10] (preambleLines sourceFile ++ transformLines lines snippetSuffix).

(* --------------------------------------------------------------------- *)
(** *** The collector *)
(* --------------------------------------------------------------------- *)

(** What the script throws: the two [Error]s of [collectSnippets], and the
    [TypeError] JavaScript raises on a property read of [undefined] or a
    call of something that is not a function. *)
Inductive error :=
  | DuplicateSnippetName (snippetName : jsstring)
  | UnmatchedEndTag (snippetName filePath : jsstring)
  | TypeError.

Inductive result (A : Type) :=
  | Ok (a : A)
  | Throw (e : error).
Arguments Ok {A} a.
Arguments Throw {A} e.

Definition bind {A B} (x : result A) (f : A -> result B) : result B :=
  match x with
  | Ok a => f a
  | Throw e => Throw e
  end.

(** [config.map] is created by the literal [{}], so a read of a name it
    does not own falls back on [Object.prototype]. These are the properties
    of [Object.prototype] (all of them spelled with letters and [_] only). *)
Definition objectPrototype : list jsstring :=
  [ lit "constructor"; lit "hasOwnProperty"; lit "isPrototypeOf";
    lit "propertyIsEnumerable"; lit "toLocaleString"; lit "toString";
    lit "valueOf"; lit "__proto__"; lit "__defineGetter__";
    lit "__defineSetter__"; lit "__lookupGetter__"; lit "__lookupSetter__" ].

(** [map[name] !== undefined] *)
Definition isDefined (map : gmap jsstring (list jsstring)) (name : jsstring)
    : bool :=
  match map !! name with
  | Some _ => true
  | None => bool_decide (name ∈ objectPrototype)
  end.

(** [map[name].push(line)]: only an own property holds an array. *)
Definition push (line : jsstring) (map : gmap jsstring (list jsstring))
    (name : jsstring) : result (gmap jsstring (list jsstring)) :=
  match map !! name with
  | Some ls => Ok (<[name := ls ++ [line]]> map)
  | None => Throw TypeError
  end.

(** [names.indexOf(name)] on an array, [None] for -1. *)
Fixpoint arrayIndexOf (name : jsstring) (names : list jsstring) : option nat :=
  match names with
  | [] => None
  | n :: names' =>
      if bool_decide (n = name) then Some 0%nat
      else S <$> arrayIndexOf name names'
  end.

(** [names.splice(names.indexOf(name), 1)]; [splice(-1, 1)] removes the last
    element. *)
Definition spliceOut (name : jsstring) (names : list jsstring)
    : list jsstring :=
  match arrayIndexOf name names with
  | Some i => delete i names
  | None => removelast names
  end.

(** The state of the scan: [config.map] and [inSnippetNames]. *)
Record scanState := ScanState {
  map : gmap jsstring (list jsstring);
  inSnippetNames : list jsstring;
}.

Definition initialState : scanState := ScanState ∅ [].

(** The inner loop [for (const snippetName of inSnippetNames)
    config.map[snippetName].push(line)]. *)
Definition pushAll (line : jsstring) (names : list jsstring)
    (map : gmap jsstring (list jsstring))
    : result (gmap jsstring (list jsstring)) :=
  foldl (fun acc snippetName =>
           bind acc (fun map' => push line map' snippetName))
        (Ok map) names.

(** The body of the loop over the lines. *)
Definition scanLine (filePath : jsstring) (st : scanState) (line : jsstring)
    : result scanState :=
  match exec RE_START_SNIPPET line with
  | Some startMatch =>
      let snippetName := group 1 startMatch in
      if isDefined (map st) snippetName then
        Throw (DuplicateSnippetName snippetName)
      else
        Ok (ScanState (<[snippetName := [line]]> (map st))
                      (inSnippetNames st ++ [snippetName]))
  | None =>
      match exec RE_END_SNIPPET line with
      | Some endMatch =>
          let snippetName := group 1 endMatch in
          if bool_decide (snippetName ∈ inSnippetNames st) then
            bind (push line (map st) snippetName) (fun map' =>
              Ok (ScanState map' (spliceOut snippetName (inSnippetNames st))))
          else Throw (UnmatchedEndTag snippetName filePath)
      | None =>
          bind (pushAll line (inSnippetNames st) (map st))
               (fun map' => Ok (ScanState map' (inSnippetNames st)))
      end
  end.

(** The loop [for (const line of lines)]: a [throw] ends it. *)
Definition scan (filePath : jsstring) (lines : list jsstring)
    (st : scanState) : result scanState :=
  foldl (fun acc line => bind acc (fun st' => scanLine filePath st' line))
        (Ok st) lines.

(** The type [SnippetsConfig]; [snippets] is its field [map], as returned
    (during the scan [config.map] is the [map] of the state). *)
Record SnippetsConfig := Config {
  enabled : bool;
  suffix : jsstring;
  snippets : gmap jsstring (list jsstring);
}.

(** The suffix of the file: [m[1]] for the first line that matches
    [RE_SNIPPETS_SUFFIX] (a line found is truthy when it is not empty), the
    default otherwise. *)
Definition readSuffix (lines : list jsstring) : result jsstring :=
  match List.find (matches RE_SNIPPETS_SUFFIX) lines with
  | Some ((_ :: _) as suffixLine) =>
      match exec RE_SNIPPETS_SUFFIX suffixLine with
      | Some m => Ok (group 1 m)
      | None => Throw TypeError
      end
  | _ => Ok DEFAULT_SUFFIX
  end.

(** [collectSnippets] from the split of the file's contents on. *)
Definition collectLines (filePath : jsstring) (lines : list jsstring)
    : result SnippetsConfig :=
  if negb (existsb (matches RE_SNIPPETS_SEPARATION) lines) then
    Ok (Config false DEFAULT_SUFFIX ∅)
  else
    bind (readSuffix lines) (fun suffix =>
      bind (scan filePath lines initialState) (fun st =>
        Ok (Config true suffix (map st)))).

(** [collectSnippets(filePath)], with the contents [fs.readFileSync] returns
    for [filePath] as a second argument. *)
Definition collectSnippets (filePath fileContents : jsstring)
    : result SnippetsConfig :=
  collectLines filePath (split 10 fileContents).

(* --------------------------------------------------------------------- *)
(** *** Where [main] writes a region *)
(* --------------------------------------------------------------------- *)

Definition fileSlug (filePath : jsstring) : jsstring :=
  replaceAllChar 46 (lit "-")
    (replaceString (lit "./") (lit "")
      (replaceString (lit ".js") (lit "") filePath)).

Definition snippetDir (filePath : jsstring) : jsstring :=
  pathJoin (lit "./snippets") (fileSlug filePath).

Definition newFilePath (filePath snippetName : jsstring) : jsstring :=
  pathJoin (snippetDir filePath) (snippetName ++ lit ".js").

(* --------------------------------------------------------------------- *)
(** *** Notions used to state the properties *)
(* --------------------------------------------------------------------- *)

(** The number of leading white-space characters of a line, counted
    directly. *)
Fixpoint leadingWhitespace (l : jsstring) : nat :=
  match l with
  | c :: l' => if isWhiteSpace c then S (leadingWhitespace l') else 0%nat
  | [] => 0%nat
  end.

(** The indentation sizes [adjustIndentation] takes the minimum of. *)
Definition nonBlankIndents (lines : list jsstring) : list nat :=
  List.map indentSize (List.filter (fun l => negb (isBlank l)) lines).


(** The words a regex can match, with the captures they leave: the
    declarative reading of the regex syntax, without the search order. *)
Fixpoint denotes (r : regex) (w : jsstring) (g : list jsstring) : Prop :=
  match r with
  | Lit p => w = p /\ g = []
  | Rep _ atLeastOne cls =>
      forallb cls w = true /\ (atLeastOne = true -> w <> []) /\ g = []
  | Grp r' => exists g', denotes r' w g' /\ g = g' ++ [w]
  | Seq r1 r2 =>
      exists w1 w2 g1 g2,
        w = w1 ++ w2 /\ g = g1 ++ g2 /\ denotes r1 w1 g1 /\ denotes r2 w2 g2
  end.

(** The number of capture groups of a regex. *)
Fixpoint ngroups (r : regex) : nat :=
  match r with
  | Lit _ | Rep _ _ _ => 0%nat
  | Grp r' => S (ngroups r')
  | Seq r1 r2 => (ngroups r1 + ngroups r2)%nat
  end.

(** A replacement template without [$] is copied as it is. *)
Definition noDollar (t : jsstring) : bool :=
  forallb (fun c => negb (c =? 36)) t.

(** The marker classification of a line, as the loop of [collectSnippets]
    decides it: the Start pattern is looked at first. *)
Inductive MarkerTag :=
  | Start (name : jsstring)
  | End (name : jsstring)
  | Plain.

Definition classify (line : jsstring) : MarkerTag :=
  match exec RE_START_SNIPPET line with
  | Some startMatch => Start (group 1 startMatch)
  | None =>
      match exec RE_END_SNIPPET line with
      | Some endMatch => End (group 1 endMatch)
      | None => Plain
      end
  end.

Definition isPlain (line : jsstring) : bool :=
  match classify line with
  | Plain => true
  | _ => false
  end.

(** What holds of every state the scan goes through: no name is open
    twice, and every open name owns an entry of the map. *)
Definition wellFormed (st : scanState) : Prop :=
  NoDup (inSnippetNames st) /\
  forall name, name ∈ inSnippetNames st -> is_Some (map st !! name).

(** The entry of an open region after the scan of [lines]: its Start line
    and the plain lines that came after it. *)
Definition openCaptured (lines : list jsstring) (st : scanState) : Prop :=
  forall name, name ∈ inSnippetNames st ->
    exists pre start rest,
      lines = pre ++ start :: rest /\
      classify start = Start name /\
      map st !! name = Some (start :: List.filter isPlain rest).

(** A path component without a separator, and one that [path.normalize]
    keeps as it is: not empty, without a separator, neither [.] nor [..]. *)
Definition noSlash (seg : jsstring) : Prop :=
  forallb (fun c => negb (c =? 47)) seg = true.

Definition plainSegment (seg : jsstring) : Prop :=
  seg <> [] /\ noSlash seg /\ seg <> lit "." /\ seg <> lit "..".

(** The last step of [fileSlug]: every dot becomes a dash. *)
Definition dotsToDashes (s : jsstring) : jsstring :=
  replaceAllChar 46 (lit "-") s.

(* --------------------------------------------------------------------- *)
(** *** Example inputs *)
(* --------------------------------------------------------------------- *)

Definition examplePath : jsstring := lit "./index.js".

Definition enablementLine : jsstring := lit "// [SNIPPETS_SEPARATION enabled]".

(** Four lines of code, one of them blank, all inside a block. *)
Definition indentedLines : list jsstring :=
  [lit "    if (x) {"; lit "   "; lit "      y();"; lit "    }"].

(** The nesting example of the spec, in an enabled file. *)
Definition nestedFile : list jsstring :=
  [enablementLine;
   lit "// [START a]"; lit "L1"; lit "// [START b]"; lit "L2";
   lit "// [END b]"; lit "L3"; lit "// [END a]"].

(** A file that ends inside region a. *)
Definition danglingFile : list jsstring :=
  [enablementLine; lit "// [START a]"; lit "f();"; lit "// [START b]";
   lit "g();"; lit "// [END b]"; lit "h();"].

(** The state of the scan after the Start line of a and one line of code. *)
Definition insideA : scanState :=
  ScanState {[ lit "a" := [lit "// [START a]"; lit "f();"] ]} [lit "a"].

(** The state of the scan after the Start line of b. *)
Definition insideB : scanState :=
  ScanState {[ lit "b" := [lit "// [START b]"] ]} [lit "b"].

(** The end-to-end example of the spec: the region as the spec writes it,
    with its tags in comments at the margin, and with its tags in comments
    indented like the code. *)
Definition demoRegion : list jsstring :=
  [lit "[START demo]"; lit ""; lit "  const {x} = require('y')";
   lit "[END demo]"].

Definition demoRegionCommented : list jsstring :=
  [lit "// [START demo]"; lit ""; lit "  const {x} = require('y')";
   lit "// [END demo]"].

Definition demoRegionIndented : list jsstring :=
  [lit "  // [START demo]"; lit ""; lit "  const {x} = require('y')";
   lit "  // [END demo]"].

Definition demoFile (region : list jsstring) : list jsstring :=
  [enablementLine; lit "// [SNIPPETS_SUFFIX _doc]"] ++ region.

(** A file whose first region is named like a property every object has. *)
Definition constructorFile : list jsstring :=
  [enablementLine; lit "const x = 1;"; lit "// [START constructor]";
   lit "class A {}"; lit "// [END constructor]"].




(* --------------------------------------------------------------------- *)
(** *** The files to scan *)
(* --------------------------------------------------------------------- *)

(** [listSnippetFiles()], with what the [find] command prints as its
    argument: the lines of the output that are not blank. *)
Definition listSnippetFiles (output : jsstring) : list jsstring :=
  List.filter (fun x => negb (isBlank x)) (split 10 output).

(* --------------------------------------------------------------------- *)
(** *** More notions used to state the properties *)
(* --------------------------------------------------------------------- *)

(** A string without a newline: a line. *)
Definition noNewline (s : jsstring) : Prop :=
  forallb (fun c => negb (c =? 10)) s = true.

(** A string without the separator [sep]. *)
Definition noSep (sep : code) (w : jsstring) : Prop :=
  forallb (fun c => negb (c =? sep)) w = true.

(** A string without an opening bracket: no tag can start in it. *)
Definition noBracket (s : jsstring) : Prop :=
  forallb (fun c => negb (c =? 91)) s = true.

(** The names of the Start lines of a file, in the order of the lines. *)
Definition startNames (lines : list jsstring) : list jsstring :=
  omap (fun line => match classify line with
                    | Start name => Some name
                    | _ => None
                    end) lines.

(** The text of a tag: the keyword, white space, the name, optional white
    space and the closing bracket. *)
Definition tagText (keyword ws1 name ws2 : jsstring) : jsstring :=
  keyword ++ ws1 ++ name ++ ws2 ++ lit "]".

Definition wellFormedTag (ws1 name ws2 : jsstring) : Prop :=
  ws1 <> [] /\ forallb isWhiteSpace ws1 = true /\
  name <> [] /\ forallb nameChar name = true /\
  forallb isWhiteSpace ws2 = true.

(** The components of the slug of a file that are not empty. *)
Definition slugSegments (filePath : jsstring) : list jsstring :=
  filter (fun seg : jsstring => seg <> []) (split 47 (fileSlug filePath)).

(** The common form of [RE_START_SNIPPET] and [RE_END_SNIPPET]. *)
Definition tagRegex (keyword : jsstring) : regex :=
  Lit keyword · Rep true true isWhiteSpace · Grp (Rep true true nameChar)
    · Rep true false isWhiteSpace · Lit (lit "]").

(** A line that contains the enablement marker. *)
Definition hasEnablementMarker (line : jsstring) : Prop :=
  exists pre ws post,
    line = pre ++ lit "[SNIPPETS_SEPARATION" ++ ws ++ lit "enabled]" ++ post /\
    ws <> [] /\ forallb isWhiteSpace ws = true.

(** A file with bad tags and no enablement marker. *)
Definition disabledFile : list jsstring :=
  [lit "// [SNIPPETS_SEPARATION  disabled]"; lit "// [END a]";
   lit "// [START b]"; lit "// [START b]"].

(** A file with two suffix markers. *)
Definition twoSuffixFile : list jsstring :=
  [enablementLine; lit "// [SNIPPETS_SUFFIX]"; lit "// [SNIPPETS_SUFFIX _v9]";
   lit "// [SNIPPETS_SUFFIX _other]"].

(** A line that contains a destructuring require. *)
Definition hasRequire (line : jsstring) : Prop :=
  exists pre names source post,
    line = pre ++ (lit "const {" ++ names ++ lit "} = require(" ++ source
                     ++ lit ")") ++ post /\
    names <> [] /\ forallb anyChar names = true /\
    source <> [] /\ forallb anyChar source = true.

(** The lines [find] prints, one path per line. *)
Definition findOutput (paths : list jsstring) : jsstring :=
  concat (List.map (fun p => p ++ [10]) paths).

(** A region with two blank lines after its comment. *)
Definition gappedRegion : list jsstring :=
  [lit "// [START x]"; lit "// note"; lit " "; lit ""; lit "f();";
   lit "// [END x]"].

(** A file with one region between plain lines. *)
Definition oneRegionFile : list jsstring :=
  [enablementLine; lit "setup();"; lit "// [START run]"; lit "const a = 1;";
   lit ""; lit "run(a);"; lit "// [END run]"; lit "teardown();"].

(** What [collectSnippets] returns for [danglingFile]. *)
Definition danglingConfig : SnippetsConfig :=
  Config true (lit "_modular")
    {[ lit "a" := [lit "// [START a]"; lit "f();"; lit "g();"; lit "h();"];
       lit "b" := [lit "// [START b]"; lit "g();"; lit "// [END b]"] ]}.

(* --------------------------------------------------------------------- *)
(** *** Where a match sits in its line *)
(* --------------------------------------------------------------------- *)

(** No line of [lines] is an End line of [name]. *)
Definition noEndLine (name : jsstring) (lines : list jsstring) : Prop :=
  Forall (fun line => classify line <> End name) lines.

(** A tag of the given keyword starts the string. *)
Definition tagAtHead (keyword s : jsstring) : Prop :=
  exists ws1 name ws2 rest,
    wellFormedTag ws1 name ws2 /\ s = tagText keyword ws1 name ws2 ++ rest.

(** No tag of the keyword starts inside [pre], in a line that goes on with
    [rest]: a tag at the head of [rest] is the first one of the line. *)
Definition noTagStartsIn (keyword pre rest : jsstring) : Prop :=
  forall pre1 pre2,
    pre = pre1 ++ pre2 -> pre2 <> [] -> ~ tagAtHead keyword (pre2 ++ rest).

(** The end of a destructuring require, from the closing brace on, starts
    the string. *)
Definition requireTailAtHead (s : jsstring) : Prop :=
  exists source rest,
    s = lit "} = require(" ++ source ++ lit ")" ++ rest /\
    source <> [] /\ forallb anyChar source = true.

(** A destructuring require starts the string. *)
Definition requireAtHead (s : jsstring) : Prop :=
  exists names source rest,
    s = lit "const {" ++ names ++ lit "} = require(" ++ source ++ lit ")"
          ++ rest /\
    names <> [] /\ forallb anyChar names = true /\
    source <> [] /\ forallb anyChar source = true.

(** No destructuring require starts inside [pre], in a line that goes on
    with [rest]. *)
Definition noRequireStartsIn (pre rest : jsstring) : Prop :=
  forall pre1 pre2,
    pre = pre1 ++ pre2 -> pre2 <> [] -> ~ requireAtHead (pre2 ++ rest).

(** The names of a require are the shortest that a closing brace and the
    rest of a require follow: no shorter, non-empty start of [names] is
    followed by [} = require(...)]. *)
Definition shortestNames (names rest : jsstring) : Prop :=
  forall n1 n2,
    names = n1 ++ n2 -> n1 <> [] -> n2 <> [] ->
    ~ requireTailAtHead (n2 ++ rest).

(** The source of a require ends at the first closing parenthesis after
    its first character. *)
Definition shortestSource (source : jsstring) : Prop :=
  forallb (fun c => negb (c =? 41)) (tail source) = true.

(** A line with two destructuring requires. *)
Definition twoRequires : jsstring :=
  lit "  const {a} = require('x'); const {b} = require('y');".

(* ===================================================================== *)
(** ** Properties of the string helpers *)
(* ===================================================================== *)

Section StringFacts.
Variable p : code -> bool.

Lemma dropWhile_length_le (s : jsstring) :
  (length (dropWhile p s) <= length s)%nat.
Proof.
  induction s as [|c s IH]; simpl; [lia|].
  destruct (p c); simpl; lia.
Qed.

Lemma dropWhile_is_drop (s : jsstring) :
  dropWhile p s = drop (length s - length (dropWhile p s)) s.
Proof.
  induction s as [|c s IH]; simpl; [reflexivity|].
  destruct (p c) eqn:Hc.
  - pose proof (dropWhile_length_le s).
    replace (S (length s) - length (dropWhile p s))%nat
      with (S (length s - length (dropWhile p s))) by lia.
    exact IH.
  - simpl. now rewrite Nat.sub_diag.
Qed.

Lemma dropWhile_taken (s : jsstring) :
  forallb p (take (length s - length (dropWhile p s)) s) = true.
Proof.
  induction s as [|c s IH]; simpl; [reflexivity|].
  destruct (p c) eqn:Hc.
  - pose proof (dropWhile_length_le s).
    replace (S (length s) - length (dropWhile p s))%nat
      with (S (length s - length (dropWhile p s))) by lia.
    simpl. now rewrite Hc, IH.
  - simpl. now rewrite Nat.sub_diag.
Qed.

Lemma dropWhile_nil_iff (s : jsstring) :
  dropWhile p s = [] <-> forallb p s = true.
Proof.
  induction s as [|c s IH]; simpl; [tauto|].
  destruct (p c); simpl; [exact IH|]. split; discriminate.
Qed.

Lemma dropWhile_head (s : jsstring) (c : code) (t : jsstring) :
  dropWhile p s = c :: t -> p c = false.
Proof.
  induction s as [|d s IH]; simpl; [discriminate|].
  destruct (p d) eqn:Hd; [exact IH|].
  intros [= -> _]. exact Hd.
Qed.

Lemma dropWhile_forallb (s : jsstring) :
  forallb p (dropWhile p s) = forallb p s.
Proof.
  induction s as [|c s IH]; simpl; [reflexivity|].
  destruct (p c) eqn:Hc; simpl; [exact IH|]. now rewrite Hc.
Qed.

(** Dropping fewer characters than [dropWhile] skips does not change what
    it leaves. *)
Lemma dropWhile_drop (s : jsstring) (m : nat) :
  (m <= length s - length (dropWhile p s))%nat ->
  dropWhile p (drop m s) = dropWhile p s.
Proof.
  revert m. induction s as [|c s IH]; intros m Hm.
  - now rewrite drop_nil.
  - destruct m as [|m]; [reflexivity|]. simpl in *.
    destruct (p c) eqn:Hc.
    + apply IH. pose proof (dropWhile_length_le s). lia.
    + simpl in Hm. lia.
Qed.
End StringFacts.

Lemma indentSize_le (l : jsstring) : (indentSize l <= length l)%nat.
Proof. unfold indentSize. lia. Qed.

Lemma trimLeft_drop (l : jsstring) : trimLeft l = drop (indentSize l) l.
Proof. apply dropWhile_is_drop. Qed.

Lemma indent_is_whitespace (l : jsstring) :
  forallb isWhiteSpace (take (indentSize l) l) = true.
Proof. apply dropWhile_taken. Qed.

(** A line is blank exactly when all its characters are white space. *)
Lemma isBlank_forallb (l : jsstring) : isBlank l = forallb isWhiteSpace l.
Proof.
  unfold isBlank, trim, trimRight, trimLeft.
  rewrite length_rev, <- (dropWhile_forallb isWhiteSpace l).
  destruct (dropWhile isWhiteSpace l) as [|c t] eqn:E; [reflexivity|].
  pose proof (dropWhile_head _ _ _ _ E) as Hc.
  assert (forallb isWhiteSpace (c :: t) = false) as -> by (simpl; now rewrite Hc).
  destruct (dropWhile isWhiteSpace (rev (c :: t))) as [|d u] eqn:E'.
  - apply dropWhile_nil_iff in E'.
    rewrite forallb_forall in E'. specialize (E' c).
    rewrite <- in_rev in E'. rewrite E' in Hc by (now left). discriminate.
  - reflexivity.
Qed.

Lemma indentSize_drop (l : jsstring) (m : nat) :
  (m <= indentSize l)%nat -> indentSize (drop m l) = (indentSize l - m)%nat.
Proof.
  intros Hm. unfold indentSize in *. unfold trimLeft in *.
  rewrite dropWhile_drop by exact Hm. rewrite length_drop.
  pose proof (dropWhile_length_le isWhiteSpace l). lia.
Qed.

(** [Math.min] of a non-empty list is its least element. *)
Lemma mathMin_nonempty (sizes : list nat) :
  sizes <> [] ->
  exists m, mathMin sizes = Fin m /\ In m sizes /\
            forall n, In n sizes -> (m <= n)%nat.
Proof.
  induction sizes as [|n rest IH]; [congruence|]. intros _. simpl.
  destruct rest as [|n' rest'].
  - exists n. simpl. intuition lia.
  - destruct IH as (m & -> & Hin & Hle); [discriminate|].
    exists (Nat.min n m). split; [reflexivity|]. split.
    + destruct (Nat.min_spec n m) as [[_ ->]|[_ ->]]; [now left | now right].
    + intros k [<-|Hk]; [lia|]. specialize (Hle k Hk). lia.
Qed.

Lemma mathMin_nil : mathMin [] = Infinity.
Proof. reflexivity. Qed.

(* ===================================================================== *)
(** ** Indentation normalization *)
(* ===================================================================== *)

(** The script's [l.length - l.trimLeft().length] is that count. *)
Lemma indentSize_leadingWhitespace (l : jsstring) :
  indentSize l = leadingWhitespace l.
Proof.
  unfold indentSize, trimLeft.
  induction l as [|c l IH]; simpl; [reflexivity|].
  destruct (isWhiteSpace c).
  - pose proof (dropWhile_length_le isWhiteSpace l). lia.
  - simpl. lia.
Qed.

Lemma leadingWhitespace_le (l : jsstring) :
  (leadingWhitespace l <= length l)%nat.
Proof. rewrite <- indentSize_leadingWhitespace. apply indentSize_le. Qed.

Lemma in_nonBlankIndents (lines : list jsstring) (n : nat) :
  In n (nonBlankIndents lines) <->
  exists l, In l lines /\ isBlank l = false /\ leadingWhitespace l = n.
Proof.
  unfold nonBlankIndents. rewrite in_map_iff. split.
  - intros (l & <- & Hl). apply filter_In in Hl as [Hin Hb].
    exists l. rewrite <- indentSize_leadingWhitespace.
    apply negb_true_iff in Hb. auto.
  - intros (l & Hin & Hb & <-). exists l.
    rewrite indentSize_leadingWhitespace. split; [reflexivity|].
    apply filter_In. now rewrite Hb.
Qed.

(** C6. For a region with at least one non-blank line, [adjustIndentation]
    takes m, the least number of leading white-space characters of a
    non-blank line, gives back every non-blank line without its first m
    characters (so the indentation of each drops by m, to zero for a
    least-indented line) and gives the empty string for every blank line. *)
Theorem adjustIndentation_strips_min_indent (lines : list jsstring) :
  (exists l, In l lines /\ isBlank l = false) ->
  exists m : nat,
    (exists l, In l lines /\ isBlank l = false /\ leadingWhitespace l = m) /\
    (forall l, In l lines -> isBlank l = false ->
       (m <= leadingWhitespace l)%nat) /\
    adjustIndentation lines =
      List.map (fun l => if isBlank l then [] else drop m l) lines /\
    (forall l, In l lines -> isBlank l = false ->
       length (take m l) = m /\
       leadingWhitespace (drop m l) = (leadingWhitespace l - m)%nat).
Proof.
  intros (l0 & Hin0 & Hb0).
  destruct (mathMin_nonempty (nonBlankIndents lines)) as (m & Hmin & Hm & Hle).
  { intros E.
    assert (In (leadingWhitespace l0) (nonBlankIndents lines)) as H
      by (apply in_nonBlankIndents; eauto).
    rewrite E in H. destruct H. }
  assert (forall l, In l lines -> isBlank l = false ->
            (m <= leadingWhitespace l)%nat) as Hlow.
  { intros l Hin Hb. apply Hle, in_nonBlankIndents. eauto. }
  exists m. split; [now apply in_nonBlankIndents|].
  split; [exact Hlow|]. split.
  - unfold adjustIndentation. fold (nonBlankIndents lines). now rewrite Hmin.
  - intros l Hin Hb. specialize (Hlow l Hin Hb).
    pose proof (leadingWhitespace_le l). split.
    + rewrite length_take. lia.
    + rewrite <- !indentSize_leadingWhitespace. apply indentSize_drop.
      now rewrite indentSize_leadingWhitespace.
Qed.

Lemma adjustIndentation_strips_min_indent_witness :
  (exists l, In l indentedLines /\ isBlank l = false) /\
  exists m : nat,
    (exists l, In l indentedLines /\ isBlank l = false /\
               leadingWhitespace l = m) /\
    (forall l, In l indentedLines -> isBlank l = false ->
       (m <= leadingWhitespace l)%nat) /\
    adjustIndentation indentedLines =
      List.map (fun l => if isBlank l then [] else drop m l) indentedLines /\
    (forall l, In l indentedLines -> isBlank l = false ->
       length (take m l) = m /\
       leadingWhitespace (drop m l) = (leadingWhitespace l - m)%nat).
Proof.
  assert (exists l, In l indentedLines /\ isBlank l = false) as H.
  { exists (lit "    }"). split; [simpl; tauto | reflexivity]. }
  split; [exact H|].
  exact (adjustIndentation_strips_min_indent indentedLines H).
Defined.

Example adjustIndentation_example :
  adjustIndentation indentedLines
  = [lit "if (x) {"; lit ""; lit "  y();"; lit "}"].
Proof. reflexivity. Qed.

(* ===================================================================== *)
(** ** The matcher only finds words of the regex *)
(* ===================================================================== *)

Lemma startsWith_app (p s : jsstring) :
  startsWith p s = true -> s = p ++ drop (length p) s.
Proof.
  revert s. induction p as [|a p IH]; intros [|b s]; simpl; try easy.
  intros H. apply andb_true_iff in H as [Hab Hp].
  apply N.eqb_eq in Hab as ->. f_equal. now apply IH.
Qed.

Lemma startsWith_refl_app (p s : jsstring) : startsWith p (p ++ s) = true.
Proof.
  induction p as [|a p IH]; simpl; [reflexivity|].
  now rewrite N.eqb_refl, IH.
Qed.

Section MatcherSound.
Context {A : Type}.
Implicit Types (k : jsstring -> option A) (s w : jsstring).

Lemma starGreedy_sound cls k s res :
  starGreedy cls k s = Some res ->
  exists w s', s = w ++ s' /\ forallb cls w = true /\ k s' = Some res.
Proof.
  induction s as [|c s IH]; simpl.
  - intros H. now exists [], [].
  - destruct (cls c) eqn:Hc.
    + destruct (starGreedy cls k s) as [r|] eqn:E.
      * intros [= ->]. destruct (IH eq_refl) as (w & s' & -> & Hw & Hk).
        exists (c :: w), s'. simpl. now rewrite Hc, Hw.
      * intros H. now exists [], (c :: s).
    + intros H. now exists [], (c :: s).
Qed.

Lemma starLazy_sound cls k s res :
  starLazy cls k s = Some res ->
  exists w s', s = w ++ s' /\ forallb cls w = true /\ k s' = Some res.
Proof.
  induction s as [|c s IH]; simpl.
  - destruct (k []) eqn:E; [|discriminate]. intros [= ->]. now exists [], [].
  - destruct (k (c :: s)) eqn:E.
    + intros [= ->]. now exists [], (c :: s).
    + destruct (cls c) eqn:Hc; [|discriminate]. intros H.
      destruct (IH H) as (w & s' & -> & Hw & Hk).
      exists (c :: w), s'. simpl. now rewrite Hc, Hw.
Qed.

Lemma rep_sound greedy atLeastOne cls k s res :
  rep greedy atLeastOne cls k s = Some res ->
  exists w s', s = w ++ s' /\ forallb cls w = true /\
               (atLeastOne = true -> w <> []) /\ k s' = Some res.
Proof.
  assert (forall t, (if greedy then starGreedy cls k else starLazy cls k) t
                    = Some res ->
            exists w s', t = w ++ s' /\ forallb cls w = true /\ k s' = Some res)
    as Hstar.
  { intros t. destruct greedy; [apply starGreedy_sound | apply starLazy_sound]. }
  unfold rep. destruct atLeastOne.
  - destruct s as [|c s]; [discriminate|].
    destruct (cls c) eqn:Hc; [|discriminate]. intros H.
    destruct (Hstar _ H) as (w & s' & -> & Hw & Hk).
    exists (c :: w), s'. simpl. rewrite Hc, Hw. repeat split; easy.
  - intros H. destruct (Hstar _ H) as (w & s' & -> & Hw & Hk).
    exists w, s'. repeat split; easy.
Qed.
End MatcherSound.

Lemma run_sound {A} (r : regex) :
  forall (s : jsstring) (caps : list jsstring)
         (k : jsstring -> list jsstring -> option A) (res : A),
    run r s caps k = Some res ->
    exists w s' g, s = w ++ s' /\ denotes r w g /\ k s' (caps ++ g) = Some res.
Proof.
  induction r as [p | greedy one cls | r IH | r1 IH1 r2 IH2];
    intros s caps k res; simpl.
  - destruct (startsWith p s) eqn:E; [|discriminate]. intros H.
    exists p, (drop (length p) s), []. rewrite app_nil_r.
    split; [now apply startsWith_app | easy].
  - intros H. apply rep_sound in H as (w & s' & -> & Hw & Hne & Hk).
    exists w, s', []. rewrite app_nil_r. easy.
  - intros H. apply IH in H as (w & s' & g & -> & Hd & Hk).
    exists w, s', (g ++ [w]). split; [reflexivity|]. split; [now exists g|].
    rewrite length_app, Nat.add_sub, take_app_length in Hk.
    now rewrite app_assoc.
  - intros H. apply IH1 in H as (w1 & s1 & g1 & -> & Hd1 & H).
    apply IH2 in H as (w2 & s2 & g2 & -> & Hd2 & Hk).
    exists (w1 ++ w2), s2, (g1 ++ g2). rewrite <- app_assoc.
    split; [reflexivity|]. split; [now exists w1, w2, g1, g2|].
    now rewrite app_assoc.
Qed.

Lemma denotes_ngroups (r : regex) :
  forall w g, denotes r w g -> length g = ngroups r.
Proof.
  induction r as [p | greedy one cls | r IH | r1 IH1 r2 IH2]; intros w g; simpl.
  - now intros [_ ->].
  - now intros (_ & _ & ->).
  - intros (g' & Hd & ->). rewrite length_app. simpl.
    rewrite (IH _ _ Hd). lia.
  - intros (w1 & w2 & g1 & g2 & -> & -> & H1 & H2).
    rewrite length_app. now rewrite (IH1 _ _ H1), (IH2 _ _ H2).
Qed.

Lemma matchAt_sound (r : regex) (i : nat) (s : jsstring) (m : matchResult) :
  matchAt r i s = Some m ->
  index m = i /\ denotes r (matched m) (groups m) /\
  exists post, s = matched m ++ post.
Proof.
  unfold matchAt. intros H.
  apply run_sound in H as (w & s' & g & -> & Hd & [= <-]). simpl.
  rewrite length_app, Nat.add_sub, take_app_length. eauto.
Qed.

Lemma search_sound (r : regex) (s : jsstring) :
  forall (i : nat) (m : matchResult),
    search r i s = Some m ->
    denotes r (matched m) (groups m) /\
    exists pre post,
      s = pre ++ matched m ++ post /\ index m = (i + length pre)%nat.
Proof.
  induction s as [|c s IH]; intros i m; simpl.
  - destruct (matchAt r i []) eqn:E; [|discriminate]. intros [= ->].
    apply matchAt_sound in E as (Hi & Hd & post & Hs).
    split; [exact Hd|]. exists [], post. simpl. split; [exact Hs | lia].
  - destruct (matchAt r i (c :: s)) eqn:E.
    + intros [= ->]. apply matchAt_sound in E as (Hi & Hd & post & Hs).
      split; [exact Hd|]. exists [], post. simpl. split; [exact Hs | lia].
    + intros H. apply IH in H as (Hd & pre & post & -> & Hi).
      split; [exact Hd|]. exists (c :: pre), post. simpl.
      split; [reflexivity | lia].
Qed.

(** [s.match(r)] returns a word of [r] found in [s], at its index. *)
Lemma exec_sound (r : regex) (s : jsstring) (m : matchResult) :
  exec r s = Some m ->
  denotes r (matched m) (groups m) /\
  exists pre post, s = pre ++ matched m ++ post /\ index m = length pre.
Proof. intros H. now apply search_sound in H. Qed.

Lemma exec_ngroups (r : regex) (s : jsstring) (m : matchResult) :
  exec r s = Some m -> length (groups m) = ngroups r.
Proof.
  intros H. apply exec_sound in H as [Hd _]. now apply denotes_ngroups in Hd.
Qed.

(** [s.replace(r, template)] rewrites the matched word and nothing else. *)
Lemma replace_sound (r : regex) (template s : jsstring) (m : matchResult) :
  exec r s = Some m ->
  exists pre post,
    s = pre ++ matched m ++ post /\
    replace r template s = pre ++ getSubstitution s m template ++ post.
Proof.
  intros H. unfold replace. rewrite H.
  apply exec_sound in H as (_ & pre & post & Hs & Hi).
  exists pre, post. split; [exact Hs|]. rewrite Hi.
  rewrite Hs at 1 3. rewrite take_app_length. f_equal. f_equal.
  now rewrite drop_app_add, drop_app_length.
Qed.

(* ===================================================================== *)
(** ** Replacement templates *)
(* ===================================================================== *)

Section Templates.
Variables (str : jsstring) (m : matchResult).

Lemma getSubstitution_plain (t u : jsstring) :
  noDollar t = true ->
  getSubstitution str m (t ++ u) = t ++ getSubstitution str m u.
Proof.
  induction t as [|c t IH]; simpl; [reflexivity|].
  intros H. apply andb_true_iff in H as [Hc Ht].
  rewrite Hc. now rewrite IH.
Qed.

Lemma isDigit_not_special (c : code) :
  isDigit c = true ->
  (c =? 36) = false /\ (c =? 38) = false /\ (c =? 96) = false /\
  (c =? 39) = false.
Proof.
  unfold isDigit. intros H. apply andb_true_iff in H as [H1 H2].
  apply N.leb_le in H1, H2. repeat split; apply N.eqb_neq; lia.
Qed.

(** [$d] with one digit, when no two-digit reference starting with [d]
    names a group. *)
Lemma getSubstitution_digit (c : code) (g u : jsstring) :
  isDigit c = true ->
  capture m (digitVal c) = Some g ->
  (forall e, capture m (10 * digitVal c + digitVal e) = None) ->
  getSubstitution str m (36 :: c :: u) = g ++ getSubstitution str m u.
Proof.
  intros Hd Hg Htwo. simpl.
  destruct (isDigit_not_special c Hd) as (-> & -> & -> & ->).
  rewrite Hd. simpl in Htwo. rewrite Hg.
  destruct u as [|e u']; [reflexivity|].
  rewrite Htwo. now destruct (isDigit e).
Qed.

Lemma capture_in_range (n : nat) :
  (1 <= n <= length (groups m))%nat -> capture m n = Some (group n m).
Proof.
  intros [H1 H2]. unfold capture.
  apply Nat.leb_le in H1, H2. now rewrite H1, H2.
Qed.

Lemma capture_out_of_range (n : nat) :
  (length (groups m) < n)%nat -> capture m n = None.
Proof.
  intros H. unfold capture.
  apply Nat.leb_gt in H. rewrite H. now rewrite andb_false_r.
Qed.

(** The template of [replaceRequireWithImport]. *)
Lemma getSubstitution_import :
  length (groups m) = 2%nat ->
  getSubstitution str m (lit "import {$1} from $2")
  = lit "import {" ++ group 1 m ++ lit "} from " ++ group 2 m.
Proof.
  intros Hn.
  change (lit "import {$1} from $2")
    with (lit "import {" ++ 36 :: 49 :: lit "} from " ++ 36 :: 50 :: []).
  rewrite getSubstitution_plain by reflexivity.
  rewrite (getSubstitution_digit 49 (group 1 m)); first last.
  - intros e. apply capture_out_of_range. rewrite Hn.
    change (digitVal 49) with 1%nat. lia.
  - apply capture_in_range. rewrite Hn. change (digitVal 49) with 1%nat. lia.
  - reflexivity.
  - rewrite getSubstitution_plain by reflexivity.
    rewrite (getSubstitution_digit 50 (group 2 m)); first last.
    + intros e. apply capture_out_of_range. rewrite Hn.
      change (digitVal 50) with 2%nat. lia.
    + apply capture_in_range. rewrite Hn. change (digitVal 50) with 2%nat. lia.
    + reflexivity.
    + simpl. now rewrite app_nil_r.
Qed.

(** The templates of [addSuffixToSnippetNames], for a suffix without [$]
    (a suffix read by [RE_SNIPPETS_SUFFIX] has none). *)
Lemma getSubstitution_tag (keyword snippetSuffix : jsstring) :
  length (groups m) = 1%nat ->
  noDollar keyword = true ->
  noDollar snippetSuffix = true ->
  getSubstitution str m (keyword ++ 36 :: 49 :: snippetSuffix ++ lit "]")
  = keyword ++ group 1 m ++ snippetSuffix ++ lit "]".
Proof.
  intros Hn Hk Hs.
  rewrite getSubstitution_plain by exact Hk.
  rewrite (getSubstitution_digit 49 (group 1 m)); first last.
  - intros e. apply capture_out_of_range. rewrite Hn.
    change (digitVal 49) with 1%nat. lia.
  - apply capture_in_range. rewrite Hn. change (digitVal 49) with 1%nat. lia.
  - reflexivity.
  - rewrite getSubstitution_plain by exact Hs. reflexivity.
Qed.
End Templates.

(* ===================================================================== *)
(** ** The shape of what the script's regexes match *)
(* ===================================================================== *)

Lemma RE_REQUIRE_shape (line : jsstring) (m : matchResult) :
  exec RE_REQUIRE line = Some m ->
  exists names source,
    groups m = [names; source] /\
    matched m = lit "const {" ++ names ++ lit "} = require(" ++ source ++ lit ")".
Proof.
  intros H. apply exec_sound in H as [Hd _]. simpl in Hd.
  destruct Hd as (w1 & w2 & g1 & g2 & Hw & Hg & [-> ->] & Hd).
  destruct Hd as (w3 & w4 & g3 & g4 & -> & -> & (g' & (_ & _ & ->) & ->) & Hd).
  destruct Hd as (w5 & w6 & g5 & g6 & -> & -> & [-> ->] & Hd).
  destruct Hd as (w7 & w8 & g7 & g8 & -> & -> & (g'' & (_ & _ & ->) & ->) & Hd).
  destruct Hd as [-> ->].
  exists w3, w7. rewrite Hw, Hg. split; reflexivity.
Qed.

Lemma tag_shape (keyword line : jsstring) (m : matchResult) :
  exec (Lit keyword · Rep true true isWhiteSpace · Grp (Rep true true nameChar)
          · Rep true false isWhiteSpace · Lit (lit "]")) line = Some m ->
  exists name ws1 ws2,
    groups m = [name] /\
    matched m = keyword ++ ws1 ++ name ++ ws2 ++ lit "]" /\
    forallb nameChar name = true /\ name <> [] /\
    forallb isWhiteSpace ws1 = true /\ ws1 <> [] /\
    forallb isWhiteSpace ws2 = true.
Proof.
  intros H. apply exec_sound in H as [Hd _]. simpl in Hd.
  destruct Hd as (w1 & w2 & g1 & g2 & Hw & Hg & [-> ->] & Hd).
  destruct Hd as (w3 & w4 & g3 & g4 & -> & -> & (Hws1 & Hne1 & ->) & Hd).
  destruct Hd as (w5 & w6 & g5 & g6 & -> & -> & (g' & (Hn & Hne & ->) & ->) & Hd).
  destruct Hd as (w7 & w8 & g7 & g8 & -> & -> & (Hws2 & _ & ->) & [-> ->]).
  exists w5, w3, w7. rewrite Hw, Hg. repeat split; auto.
Qed.

Lemma matches_true (re : regex) (line : jsstring) :
  matches re line = true <-> exists m, exec re line = Some m.
Proof. unfold matches. now rewrite bool_decide_eq_true. Qed.

Lemma matches_Some (re : regex) (line : jsstring) (m : matchResult) :
  exec re line = Some m -> matches re line = true.
Proof. intros H. apply matches_true. eauto. Qed.

Lemma matches_None (re : regex) (line : jsstring) :
  exec re line = None -> matches re line = false.
Proof.
  intros H. unfold matches. apply bool_decide_eq_false.
  rewrite H. intros [x Hx]. discriminate.
Qed.

(* ===================================================================== *)
(** ** The require-to-import rewrite *)
(* ===================================================================== *)

Lemma replaceRequireWithImport_line (line : jsstring) :
  replaceRequireWithImport [line] =
  [ match exec RE_REQUIRE line with
    | None => line
    | Some m =>
        take (index m) line
          ++ (lit "import {" ++ group 1 m ++ lit "} from " ++ group 2 m)
          ++ drop (index m + length (matched m)) line
    end ].
Proof.
  unfold replaceRequireWithImport. simpl.
  destruct (exec RE_REQUIRE line) as [m|] eqn:E.
  - rewrite (matches_Some _ _ _ E). unfold replace. rewrite E.
    rewrite getSubstitution_import; [reflexivity|].
    now rewrite (exec_ngroups _ _ _ E).
  - now rewrite (matches_None _ _ E).
Qed.

(** C7. [replaceRequireWithImport] turns [const {a, b} = require('x')] into
    [import {a, b} from 'x'], leaves a line already in import form as it
    is, and in general rewrites in each line the first match of
    [RE_REQUIRE] to [import {$1} from $2] and returns a line without a
    match unchanged. *)
Theorem replaceRequireWithImport_rewrites :
  replaceRequireWithImport [lit "const {a, b} = require('x')"]
    = [lit "import {a, b} from 'x'"] /\
  replaceRequireWithImport [lit "import {a, b} from 'x'"]
    = [lit "import {a, b} from 'x'"] /\
  forall lines : list jsstring,
    replaceRequireWithImport lines =
    List.map (fun line =>
      match exec RE_REQUIRE line with
      | None => line
      | Some m =>
          take (index m) line
            ++ (lit "import {" ++ group 1 m ++ lit "} from " ++ group 2 m)
            ++ drop (index m + length (matched m)) line
      end) lines.
Proof.
  split; [reflexivity|]. split; [reflexivity|].
  induction lines as [|line lines IH]; [reflexivity|].
  change (replaceRequireWithImport (line :: lines))
    with (replaceRequireWithImport [line] ++ replaceRequireWithImport lines).
  now rewrite replaceRequireWithImport_line, IH.
Qed.

(** What is rewritten is a [const {names} = require(source)], to
    [import {names} from source]; the text around it stays. *)
Lemma replaceRequireWithImport_shape (line : jsstring) (m : matchResult) :
  exec RE_REQUIRE line = Some m ->
  exists pre post names source,
    line = pre ++ (lit "const {" ++ names ++ lit "} = require(" ++ source
                     ++ lit ")") ++ post /\
    replaceRequireWithImport [line]
    = [pre ++ (lit "import {" ++ names ++ lit "} from " ++ source) ++ post].
Proof.
  intros Hm. unfold replaceRequireWithImport. cbn [List.map].
  rewrite (matches_Some _ _ _ Hm).
  destruct (replace_sound _ (lit "import {$1} from $2") _ _ Hm)
    as (pre & post & Hline & ->).
  destruct (RE_REQUIRE_shape _ _ Hm) as (names & source & Hg & Hw).
  exists pre, post, names, source. rewrite <- Hw. split; [exact Hline|].
  rewrite getSubstitution_import by now rewrite Hg.
  unfold group. now rewrite Hg.
Qed.

(* ===================================================================== *)
(** ** The transform steps fall through *)
(* ===================================================================== *)


Lemma findIndex_lt {A} (p : A -> bool) (l : list A) (i : nat) :
  findIndex p l = Some i -> (i < length l)%nat.
Proof.
  revert i. induction l as [|x l IH]; simpl; intros i; [discriminate|].
  destruct (p x); [intros [= <-]; lia|].
  destruct (findIndex p l) as [j|]; [|discriminate].
  intros [= <-]. specialize (IH j eq_refl). lia.
Qed.

Lemma removeFirstLineAfterComments_length (lines : list jsstring) :
  length (removeFirstLineAfterComments lines) = length lines \/
  S (length (removeFirstLineAfterComments lines)) = length lines.
Proof.
  unfold removeFirstLineAfterComments.
  destruct (findIndex _ lines) as [i|] eqn:E; [|now left].
  destruct (lines !! i) as [l|] eqn:El; [|now left].
  destruct (isBlank l); [|now left]. right.
  rewrite length_delete by eauto.
  apply findIndex_lt in E. lia.
Qed.



(* ===================================================================== *)
(** ** The collector *)
(* ===================================================================== *)

Lemma scanLine_classify (filePath : jsstring) (st : scanState)
    (line : jsstring) :
  scanLine filePath st line =
  match classify line with
  | Start name =>
      if isDefined (map st) name then Throw (DuplicateSnippetName name)
      else Ok (ScanState (<[name := [line]]> (map st))
                         (inSnippetNames st ++ [name]))
  | End name =>
      if bool_decide (name ∈ inSnippetNames st) then
        bind (push line (map st) name) (fun map' =>
          Ok (ScanState map' (spliceOut name (inSnippetNames st))))
      else Throw (UnmatchedEndTag name filePath)
  | Plain =>
      bind (pushAll line (inSnippetNames st) (map st))
           (fun map' => Ok (ScanState map' (inSnippetNames st)))
  end.
Proof.
  unfold scanLine, classify.
  destruct (exec RE_START_SNIPPET line); [reflexivity|].
  now destruct (exec RE_END_SNIPPET line).
Qed.

Section Scan.
Variable filePath : jsstring.

Lemma scan_throw (lines : list jsstring) (e : error) :
  foldl (fun acc line => bind acc (fun st' => scanLine filePath st' line))
        (Throw e) lines = Throw e.
Proof. induction lines as [|l ls IH]; simpl; auto. Qed.

Lemma scan_nil (st : scanState) : scan filePath [] st = Ok st.
Proof. reflexivity. Qed.

Lemma scan_cons (line : jsstring) (lines : list jsstring) (st : scanState) :
  scan filePath (line :: lines) st
  = bind (scanLine filePath st line) (scan filePath lines).
Proof.
  unfold scan. simpl. destruct (scanLine filePath st line); simpl.
  - reflexivity.
  - apply scan_throw.
Qed.

Lemma scan_app (l1 l2 : list jsstring) (st : scanState) :
  scan filePath (l1 ++ l2) st = bind (scan filePath l1 st) (scan filePath l2).
Proof.
  revert st. induction l1 as [|l l1 IH]; intros st; [reflexivity|].
  rewrite <- app_comm_cons, !scan_cons.
  destruct (scanLine filePath st l); simpl; auto.
Qed.

Lemma scan_snoc (lines : list jsstring) (line : jsstring) (st : scanState) :
  scan filePath (lines ++ [line]) st
  = bind (scan filePath lines st) (fun st' => scanLine filePath st' line).
Proof.
  rewrite scan_app. destruct (scan filePath lines st); simpl; [|reflexivity].
  rewrite scan_cons. now destruct (scanLine filePath a line).
Qed.
End Scan.

(** *** The open names *)

Lemma arrayIndexOf_first (name : jsstring) (names : list jsstring) :
  name ∈ names ->
  exists pre post,
    names = pre ++ name :: post /\ (name ∉ pre) /\
    arrayIndexOf name names = Some (length pre).
Proof.
  induction names as [|n names IH]; intros Hin; [now apply elem_of_nil in Hin|].
  simpl. destruct (decide (n = name)) as [->|Hne].
  - exists [], names. rewrite bool_decide_eq_true_2 by reflexivity.
    split; [reflexivity|]. split; [apply not_elem_of_nil | reflexivity].
  - rewrite bool_decide_eq_false_2 by exact Hne.
    apply elem_of_cons in Hin as [->|Hin]; [congruence|].
    destruct (IH Hin) as (pre & post & -> & Hpre & ->).
    exists (n :: pre), post. split; [reflexivity|]. split; [|reflexivity].
    rewrite not_elem_of_cons. split; congruence.
Qed.

Lemma spliceOut_elem_of (name : jsstring) (names : list jsstring) :
  NoDup names -> name ∈ names ->
  NoDup (spliceOut name names) /\
  forall n, n ∈ spliceOut name names <-> n ∈ names /\ n <> name.
Proof.
  intros Hnd Hin.
  destruct (arrayIndexOf_first _ _ Hin) as (pre & post & -> & Hpre & Hi).
  unfold spliceOut. rewrite Hi, delete_middle.
  apply NoDup_app in Hnd as (Hnd1 & Hdisj & Hnd2).
  apply NoDup_cons in Hnd2 as [Hpost Hnd2].
  split.
  - apply NoDup_app. repeat split; auto.
    intros x Hx Hx'. apply (Hdisj x Hx). now right.
  - intros n. rewrite !elem_of_app, elem_of_cons. split.
    + intros [H|H]; (split; [tauto|]); intros ->; contradiction.
    + tauto.
Qed.

(** *** Appending a line to the open regions *)

Lemma pushAll_lookup (line : jsstring) (names : list jsstring) :
  forall m : gmap jsstring (list jsstring),
    NoDup names ->
    (forall n, n ∈ names -> is_Some (m !! n)) ->
    exists m',
      pushAll line names m = Ok m' /\
      forall n, m' !! n =
                if bool_decide (n ∈ names)
                then (fun ls => ls ++ [line]) <$> m !! n
                else m !! n.
Proof.
  unfold pushAll.
  induction names as [|x names IH]; intros m Hnd Hkeys; cbn [foldl bind].
  - exists m. split; [reflexivity|]. intros n.
    rewrite bool_decide_eq_false_2; [reflexivity | apply not_elem_of_nil].
  - apply NoDup_cons in Hnd as [Hx Hnd].
    destruct (Hkeys x) as [ls Hls]; [now left|].
    unfold push at 2. rewrite Hls.
    destruct (IH (<[x := ls ++ [line]]> m) Hnd) as (m' & Hm' & Hlook).
    { intros n Hn. rewrite lookup_insert_is_Some'. right.
      apply Hkeys. now right. }
    exists m'. split; [exact Hm'|]. intros n. rewrite Hlook.
    destruct (decide (n = x)) as [->|Hne].
    + rewrite (bool_decide_eq_false_2 _ Hx), lookup_insert_eq.
      rewrite bool_decide_eq_true_2 by now left.
      now rewrite Hls.
    + rewrite lookup_insert_ne by congruence.
      destruct (decide (n ∈ names)) as [Hn|Hn].
      * rewrite bool_decide_eq_true_2 by exact Hn.
        now rewrite bool_decide_eq_true_2 by now right.
      * rewrite bool_decide_eq_false_2 by exact Hn.
        rewrite bool_decide_eq_false_2; [reflexivity|].
        rewrite not_elem_of_cons. auto.
Qed.

Lemma isDefined_own (m : gmap jsstring (list jsstring)) (name : jsstring) :
  is_Some (m !! name) -> isDefined m name = true.
Proof. intros [ls H]. unfold isDefined. now rewrite H. Qed.

Lemma isDefined_false (m : gmap jsstring (list jsstring)) (name : jsstring) :
  isDefined m name = false -> m !! name = None.
Proof. unfold isDefined. now destruct (m !! name). Qed.

(** *** What a step does to a well-formed state *)

Lemma wellFormed_initial : wellFormed initialState.
Proof.
  split; [apply NoDup_nil_2|]. intros name H. now apply elem_of_nil in H.
Qed.

Lemma scanLine_wellFormed (filePath : jsstring) (st : scanState)
    (line : jsstring) :
  wellFormed st ->
  match scanLine filePath st line with
  | Ok st' => wellFormed st'
  | Throw e =>
      (exists name, classify line = Start name /\
                    e = DuplicateSnippetName name /\
                    isDefined (map st) name = true) \/
      (exists name, classify line = End name /\
                    e = UnmatchedEndTag name filePath /\
                    (name ∉ inSnippetNames st))
  end.
Proof.
  intros [Hnd Hkeys]. rewrite scanLine_classify.
  destruct (classify line) as [name|name|] eqn:Hc.
  - destruct (isDefined (map st) name) eqn:Hdef; [left; eauto|].
    split; simpl.
    + apply NoDup_app. repeat split; auto.
      * intros x Hx Hx'. apply list_elem_of_singleton in Hx' as ->.
        rewrite (isDefined_own _ _ (Hkeys _ Hx)) in Hdef. discriminate.
      * apply NoDup_singleton.
    + intros n Hn. rewrite lookup_insert_is_Some'.
      apply elem_of_app in Hn as [Hn|Hn]; [right; auto|].
      apply list_elem_of_singleton in Hn. left. congruence.
  - destruct (decide (name ∈ inSnippetNames st)) as [Hin|Hin].
    + rewrite bool_decide_eq_true_2 by exact Hin.
      destruct (Hkeys _ Hin) as [ls Hls]. unfold push. rewrite Hls. simpl.
      destruct (spliceOut_elem_of _ _ Hnd Hin) as [Hnd' Hmem].
      split; simpl; [exact Hnd'|].
      intros n Hn. apply Hmem in Hn as [Hn _].
      rewrite lookup_insert_is_Some'. right. auto.
    + rewrite bool_decide_eq_false_2 by exact Hin. right. eauto.
  - destruct (pushAll_lookup line _ (map st) Hnd Hkeys) as (m' & -> & Hlook).
    simpl. split; simpl; [exact Hnd|].
    intros n Hn. rewrite Hlook, bool_decide_eq_true_2 by exact Hn.
    destruct (Hkeys _ Hn) as [ls ->]. simpl. eauto.
Qed.

Lemma scan_wellFormed (filePath : jsstring) (lines : list jsstring) :
  forall st st',
    wellFormed st -> scan filePath lines st = Ok st' -> wellFormed st'.
Proof.
  induction lines as [|l ls IH]; intros st st' Hwf.
  - now intros [= <-].
  - rewrite scan_cons. pose proof (scanLine_wellFormed filePath st l Hwf) as H.
    destruct (scanLine filePath st l) as [st1|e]; simpl; [|discriminate].
    now apply IH.
Qed.

(** The scan never dies of a [TypeError]: the entries it pushes on exist. *)
Lemma scan_no_TypeError (filePath : jsstring) (lines : list jsstring) :
  forall st, wellFormed st -> scan filePath lines st <> Throw TypeError.
Proof.
  induction lines as [|l ls IH]; intros st Hwf; [discriminate|].
  rewrite scan_cons. pose proof (scanLine_wellFormed filePath st l Hwf) as H.
  destruct (scanLine filePath st l) as [st1|e]; simpl; [now apply IH|].
  destruct H as [(n & _ & -> & _)|(n & _ & -> & _)]; discriminate.
Qed.

(** *** The file configuration *)

Lemma readSuffix_ok (lines : list jsstring) :
  exists suffix, readSuffix lines = Ok suffix.
Proof.
  unfold readSuffix.
  destruct (List.find (matches RE_SNIPPETS_SUFFIX) lines) as [l|] eqn:E;
    [|eauto].
  apply find_some in E as [_ Hm]. apply matches_true in Hm as [m Hm].
  destruct l; [eauto|]. rewrite Hm. eauto.
Qed.

Lemma collectLines_enabled (filePath : jsstring) (lines : list jsstring) :
  existsb (matches RE_SNIPPETS_SEPARATION) lines = true ->
  exists suffix,
    readSuffix lines = Ok suffix /\
    collectLines filePath lines =
    bind (scan filePath lines initialState)
         (fun st => Ok (Config true suffix (map st))).
Proof.
  intros H. unfold collectLines. rewrite H. simpl.
  destruct (readSuffix_ok lines) as [suffix ->]. now exists suffix.
Qed.

(** A file without the enablement marker is not scanned at all. *)
Lemma collectLines_disabled (filePath : jsstring) (lines : list jsstring) :
  existsb (matches RE_SNIPPETS_SEPARATION) lines = false ->
  collectLines filePath lines = Ok (Config false DEFAULT_SUFFIX ∅).
Proof. intros H. unfold collectLines. now rewrite H. Qed.

(** *** Start tags *)

(** What a Start line does: the duplicate check reads [config.map[name]],
    so it also fires on a name [Object.prototype] defines. *)
Lemma scanLine_start (filePath : jsstring) (st : scanState)
    (line name : jsstring) :
  classify line = Start name ->
  scanLine filePath st line =
  if isDefined (map st) name then Throw (DuplicateSnippetName name)
  else Ok (ScanState (<[name := [line]]> (map st))
                     (inSnippetNames st ++ [name])).
Proof. intros H. now rewrite scanLine_classify, H. Qed.

(** A second Start of a name stops the scan, whether or not the region is
    still open; a first Start of a name [Object.prototype] does not define
    never does. *)
Lemma start_tag_checked (filePath : jsstring) (st : scanState)
    (line name : jsstring) :
  classify line = Start name ->
  (is_Some (map st !! name) ->
     scanLine filePath st line = Throw (DuplicateSnippetName name)) /\
  (map st !! name = None -> name ∉ objectPrototype ->
     exists st', scanLine filePath st line = Ok st').
Proof.
  intros H. rewrite (scanLine_start _ _ _ _ H). split.
  - intros Hk. now rewrite isDefined_own.
  - intros Hk Hp. unfold isDefined. rewrite Hk.
    rewrite bool_decide_eq_false_2 by exact Hp. eauto.
Qed.

(** C3. The second half of the claim fails for a region named like a
    property of [Object.prototype]: the first [[START constructor]] of a
    file is refused as a duplicate although the map has no such key yet
    (the scan of the two lines before it leaves the map empty). *)
Theorem start_tag_constructor_rejected :
  classify (lit "// [START constructor]") = Start (lit "constructor") /\
  scan examplePath (take 2 constructorFile) initialState = Ok initialState /\
  map initialState !! lit "constructor" = None /\
  scanLine examplePath initialState (lit "// [START constructor]")
    = Throw (DuplicateSnippetName (lit "constructor")) /\
  collectLines examplePath constructorFile
    = Throw (DuplicateSnippetName (lit "constructor")).
Proof. repeat split; reflexivity. Qed.

(** *** End tags *)

(** C4. At an End line, in any state the scan can be in: when the name is
    not open the collector throws the unmatched-end error (and so does the
    scan of the whole file); when it is open, the line is appended to the
    region of that name and the name leaves the open names, without
    error. *)
Theorem end_tag_needs_open_region (filePath : jsstring)
    (pre : list jsstring) (st : scanState) (line name : jsstring) :
  scan filePath pre initialState = Ok st ->
  classify line = End name ->
  (name ∉ inSnippetNames st ->
     scanLine filePath st line = Throw (UnmatchedEndTag name filePath) /\
     forall rest,
       scan filePath (pre ++ line :: rest) initialState
       = Throw (UnmatchedEndTag name filePath)) /\
  (name ∈ inSnippetNames st ->
     exists ls,
       map st !! name = Some ls /\
       scanLine filePath st line =
         Ok (ScanState (<[name := ls ++ [line]]> (map st))
                       (spliceOut name (inSnippetNames st))) /\
       (name ∉ spliceOut name (inSnippetNames st)) /\
       forall n, n <> name ->
         (n ∈ spliceOut name (inSnippetNames st) <-> n ∈ inSnippetNames st)).
Proof.
  intros Hpre Hc.
  destruct (scan_wellFormed _ _ _ _ wellFormed_initial Hpre) as [Hnd Hkeys].
  rewrite scanLine_classify, Hc. split; intros Hin.
  - rewrite bool_decide_eq_false_2 by exact Hin. split; [reflexivity|].
    intros rest. rewrite scan_app, Hpre. simpl.
    rewrite scan_cons, scanLine_classify, Hc.
    now rewrite bool_decide_eq_false_2 by exact Hin.
  - rewrite bool_decide_eq_true_2 by exact Hin.
    destruct (Hkeys _ Hin) as [ls Hls]. exists ls.
    unfold push. rewrite Hls. simpl.
    destruct (spliceOut_elem_of _ _ Hnd Hin) as [_ Hmem].
    split; [reflexivity|]. split; [reflexivity|]. split.
    + rewrite Hmem. tauto.
    + intros n Hn. rewrite Hmem. tauto.
Qed.

Lemma end_tag_needs_open_region_witness :
  scan examplePath (take 3 danglingFile) initialState = Ok insideA /\
  classify (lit "// [END a]") = End (lit "a") /\
  classify (lit "// [END b]") = End (lit "b") /\
  scanLine examplePath insideA (lit "// [END b]")
    = Throw (UnmatchedEndTag (lit "b") examplePath) /\
  scanLine examplePath insideA (lit "// [END a]")
    = Ok (ScanState
            {[ lit "a" := [lit "// [START a]"; lit "f();"; lit "// [END a]"] ]}
            []).
Proof.
  assert (scan examplePath (take 3 danglingFile) initialState = Ok insideA)
    as Hpre by reflexivity.
  assert (classify (lit "// [END a]") = End (lit "a")) as Ha by reflexivity.
  assert (classify (lit "// [END b]") = End (lit "b")) as Hb by reflexivity.
  split; [exact Hpre|]. split; [exact Ha|]. split; [exact Hb|]. split.
  - refine (proj1 (proj1 (end_tag_needs_open_region
                            examplePath _ insideA _ _ Hpre Hb) _)).
    vm_compute. intros H. inversion H as [|? ? ? H']. inversion H'.
  - destruct (proj2 (end_tag_needs_open_region
                       examplePath _ insideA _ _ Hpre Ha))
      as (ls & Hls & Hstep & _).
    + vm_compute. constructor.
    + rewrite Hstep. vm_compute in Hls. injection Hls as <-. reflexivity.
Defined.

(** *** Regions still open at the end of the file *)

Lemma isPlain_classify (line : jsstring) :
  isPlain line = true <-> classify line = Plain.
Proof. unfold isPlain. destruct (classify line); split; congruence. Qed.

Lemma filter_isPlain_snoc (rest : list jsstring) (line : jsstring) :
  List.filter isPlain (rest ++ [line])
  = List.filter isPlain rest ++ (if isPlain line then [line] else []).
Proof. rewrite List.filter_app. simpl. now destruct (isPlain line). Qed.

Lemma scan_throws (filePath : jsstring) (lines : list jsstring) :
  forall st e,
    wellFormed st -> scan filePath lines st = Throw e ->
    (exists name, e = DuplicateSnippetName name) \/
    (exists name, e = UnmatchedEndTag name filePath).
Proof.
  induction lines as [|l ls IH]; intros st e Hwf; [discriminate|].
  rewrite scan_cons. pose proof (scanLine_wellFormed filePath st l Hwf) as H.
  destruct (scanLine filePath st l) as [st1|e1]; simpl; [now apply IH|].
  intros [= <-]. destruct H as [(n & _ & -> & _)|(n & _ & -> & _)]; eauto.
Qed.

Lemma scan_openCaptured (filePath : jsstring) (lines : list jsstring) :
  forall st, scan filePath lines initialState = Ok st -> openCaptured lines st.
Proof.
  induction lines as [|l lines IH] using rev_ind; intros st.
  - intros [= <-] name H. now apply elem_of_nil in H.
  - rewrite scan_snoc.
    destruct (scan filePath lines initialState) as [st0|] eqn:E0;
      [simpl | discriminate].
    specialize (IH st0 eq_refl).
    destruct (scan_wellFormed _ _ _ _ wellFormed_initial E0) as [Hnd Hkeys].
    assert (forall name (m' : gmap jsstring (list jsstring)) extra,
              name ∈ inSnippetNames st0 ->
              (forall ls, map st0 !! name = Some ls ->
                          m' !! name = Some (ls ++ extra)) ->
              (if isPlain l then [l] else []) = extra ->
              exists pre start rest,
                lines ++ [l] = pre ++ start :: rest /\
                classify start = Start name /\
                m' !! name = Some (start :: List.filter isPlain rest))
      as Hold.
    { intros name m' extra Hin Hm' Hx.
      destruct (IH name Hin) as (pre & start & rest & -> & Hs & Hls).
      exists pre, start, (rest ++ [l]). split; [now rewrite <- app_assoc|].
      split; [exact Hs|]. rewrite filter_isPlain_snoc, Hx.
      now rewrite (Hm' _ Hls). }
    rewrite scanLine_classify.
    destruct (classify l) as [n|n|] eqn:Hc.
    + destruct (isDefined (map st0) n) eqn:Hdef; [discriminate|].
      intros [= <-] name Hin. simpl in *.
      apply elem_of_app in Hin as [Hin|Hin].
      * apply (Hold name _ []); auto.
        -- intros ls Hls. rewrite lookup_insert_ne, app_nil_r; [exact Hls|].
           intros ->. apply isDefined_false in Hdef. congruence.
        -- unfold isPlain. now rewrite Hc.
      * apply list_elem_of_singleton in Hin as ->.
        exists lines, l, []. now rewrite lookup_insert_eq.
    + destruct (decide (n ∈ inSnippetNames st0)) as [Hn|Hn].
      * rewrite bool_decide_eq_true_2 by exact Hn.
        destruct (Hkeys _ Hn) as [ls0 Hls0]. unfold push. rewrite Hls0. simpl.
        intros [= <-] name Hin. simpl in *.
        apply (spliceOut_elem_of _ _ Hnd Hn) in Hin as [Hin Hne].
        apply (Hold name _ []); auto.
        -- intros ls Hls. now rewrite lookup_insert_ne, app_nil_r.
        -- unfold isPlain. now rewrite Hc.
      * now rewrite bool_decide_eq_false_2 by exact Hn.
    + destruct (pushAll_lookup l _ (map st0) Hnd Hkeys) as (m' & -> & Hlook).
      simpl. intros [= <-] name Hin. simpl in *.
      apply (Hold name _ [l]); auto.
      * intros ls Hls.
        now rewrite Hlook, bool_decide_eq_true_2, Hls by exact Hin.
      * unfold isPlain. now rewrite Hc.
Qed.

(** The region a of that file is open at its end, and is returned. *)
Example dangling_region_example :
  scan examplePath danglingFile initialState
  = Ok (ScanState
          {[ lit "a" := [lit "// [START a]"; lit "f();"; lit "g();";
                         lit "h();"];
             lit "b" := [lit "// [START b]"; lit "g();"; lit "// [END b]"] ]}
          [lit "a"]) /\
  collectLines examplePath danglingFile
  = Ok (Config true (lit "_modular")
          {[ lit "a" := [lit "// [START a]"; lit "f();"; lit "g();";
                         lit "h();"];
             lit "b" := [lit "// [START b]"; lit "g();"; lit "// [END b]"] ]}).
Proof. split; vm_compute; reflexivity. Qed.

(** *** A line with both tags *)

Lemma addSuffixToSnippetNames_start (line snippetSuffix : jsstring)
    (m : matchResult) :
  exec RE_START_SNIPPET line = Some m ->
  noDollar snippetSuffix = true ->
  exists pre post,
    line = pre ++ matched m ++ post /\
    addSuffixToSnippetNames [line] snippetSuffix
    = [pre ++ (lit "[START " ++ group 1 m ++ snippetSuffix ++ lit "]") ++ post].
Proof.
  intros Hm Hs. unfold addSuffixToSnippetNames. cbn [List.map].
  rewrite (matches_Some _ _ _ Hm).
  destruct (replace_sound _ (lit "[START $1" ++ snippetSuffix ++ lit "]")
              _ _ Hm) as (pre & post & Hline & ->).
  exists pre, post. split; [exact Hline|].
  change (lit "[START $1" ++ snippetSuffix ++ lit "]")
    with (lit "[START " ++ 36 :: 49 :: snippetSuffix ++ lit "]").
  rewrite getSubstitution_tag; auto.
  now rewrite (exec_ngroups _ _ _ Hm).
Qed.

(** On such a line the End tag is neither checked nor rewritten. *)
Example line_with_both_tags_example :
  addSuffixToSnippetNames [lit "// [START a] [END b]"] (lit "_modular")
  = [lit "// [START a_modular] [END b]"] /\
  collectLines examplePath [enablementLine; lit "// [START a] [END b]"]
  = Ok (Config true (lit "_modular")
          {[ lit "a" := [lit "// [START a] [END b]"] ]}).
Proof. split; vm_compute; reflexivity. Qed.

(** *** Nested regions *)

Section Steps.
Variable filePath : jsstring.
Implicit Types (m : gmap jsstring (list jsstring)) (a b l : jsstring).

Lemma step_start m (o : list jsstring) l a :
  classify l = Start a -> m !! a = None -> a ∉ objectPrototype ->
  scanLine filePath (ScanState m o) l
  = Ok (ScanState (<[a := [l]]> m) (o ++ [a])).
Proof.
  intros Hc Hm Hp. rewrite (scanLine_start _ _ _ _ Hc). simpl.
  unfold isDefined. rewrite Hm. now rewrite bool_decide_eq_false_2.
Qed.

Lemma step_end m (o : list jsstring) l a (ls : list jsstring) :
  classify l = End a -> a ∈ o -> m !! a = Some ls ->
  scanLine filePath (ScanState m o) l
  = Ok (ScanState (<[a := ls ++ [l]]> m) (spliceOut a o)).
Proof.
  intros Hc Ho Hm. rewrite scanLine_classify, Hc. simpl.
  rewrite bool_decide_eq_true_2 by exact Ho. unfold push. now rewrite Hm.
Qed.

Lemma step_plain_one m l a (ls : list jsstring) :
  classify l = Plain -> m !! a = Some ls ->
  scanLine filePath (ScanState m [a]) l
  = Ok (ScanState (<[a := ls ++ [l]]> m) [a]).
Proof.
  intros Hc Hm. rewrite scanLine_classify, Hc.
  unfold pushAll, push. cbn [foldl bind inSnippetNames map]. now rewrite Hm.
Qed.

Lemma step_plain_two m l a b (la lb : list jsstring) :
  classify l = Plain -> a <> b -> m !! a = Some la -> m !! b = Some lb ->
  scanLine filePath (ScanState m [a; b]) l
  = Ok (ScanState (<[b := lb ++ [l]]> (<[a := la ++ [l]]> m)) [a; b]).
Proof.
  intros Hc Hab Ha Hb. rewrite scanLine_classify, Hc.
  unfold pushAll, push. cbn [foldl bind inSnippetNames map]. rewrite Ha.
  cbn [bind]. now rewrite lookup_insert_ne, Hb by exact Hab.
Qed.

(** Outside every region, plain lines leave the state alone. *)
Lemma scan_plain_outside (lines : list jsstring) m :
  Forall (fun l => classify l = Plain) lines ->
  scan filePath lines (ScanState m []) = Ok (ScanState m []).
Proof.
  induction 1 as [|l lines Hl _ IH]; [reflexivity|].
  rewrite scan_cons, scanLine_classify, Hl. exact IH.
Qed.
End Steps.

(** C1, as the code has it. In an enabled file, around the lines
    [[START a]], L1, [[START b]], L2, [[END b]], L3, [[END a]] (two
    different names that [Object.prototype] does not define, plain lines
    before and after), the collector returns exactly two regions: a is
    [[START a]], L1, L2, L3, [[END a]] and b is [[START b]], L2, [[END b]].
    L1 and L3 are in a only, L2 is in both, and the tag lines of b are in b
    only: a tag line goes to the region it names and to no other. *)
Theorem nested_regions_collected (filePath : jsstring)
    (pre post : list jsstring) (a b sa sb ea eb L1 L2 L3 : jsstring) :
  existsb (matches RE_SNIPPETS_SEPARATION)
    (pre ++ [sa; L1; sb; L2; eb; L3; ea] ++ post) = true ->
  Forall (fun l => classify l = Plain) (pre ++ [L1; L2; L3] ++ post) ->
  classify sa = Start a -> classify ea = End a ->
  classify sb = Start b -> classify eb = End b ->
  a <> b -> a ∉ objectPrototype -> b ∉ objectPrototype ->
  exists suffix,
    collectLines filePath (pre ++ [sa; L1; sb; L2; eb; L3; ea] ++ post)
    = Ok (Config true suffix
            {[ a := [sa; L1; L2; L3; ea]; b := [sb; L2; eb] ]}).
Proof.
  set (lines := pre ++ [sa; L1; sb; L2; eb; L3; ea] ++ post).
  intros Hen Hplain Hsa Hea Hsb Heb Hab Hpa Hpb.
  apply Forall_app in Hplain as [Hpre Hplain].
  apply Forall_app in Hplain as [HL Hpost].
  apply Forall_cons in HL as [HL1 HL].
  apply Forall_cons in HL as [HL2 HL].
  apply Forall_cons in HL as [HL3 _].
  destruct (collectLines_enabled filePath lines Hen) as (suffix & _ & ->).
  exists suffix. unfold lines, initialState.
  rewrite scan_app, (scan_plain_outside _ _ _ Hpre). cbn [bind].
  rewrite scan_app. cbn [app].
  rewrite scan_cons,
    (step_start _ _ _ _ _ Hsa (lookup_empty a) Hpa). cbn [bind app].
  rewrite scan_cons,
    (step_plain_one _ _ _ _ _ HL1 (lookup_insert_eq _ _ _)). cbn [bind app].
  rewrite insert_insert_eq.
  assert (b ∉ [a]) as Hba by (rewrite list_elem_of_singleton; congruence).
  rewrite scan_cons, (step_start _ _ _ _ _ Hsb); [|
    now rewrite lookup_insert_ne, lookup_empty | exact Hpb].
  cbn [bind app].
  rewrite scan_cons, (step_plain_two _ _ _ _ _ [sa; L1] [sb] HL2 Hab);
    [| now rewrite lookup_insert_ne, lookup_insert_eq by congruence
     | now rewrite lookup_insert_eq ].
  cbn [bind app].
  rewrite scan_cons, (step_end _ _ _ _ _ [sb; L2] Heb);
    [| rewrite !elem_of_cons; auto | now rewrite lookup_insert_eq ].
  cbn [bind app].
  assert (spliceOut b [a; b] = [a]) as ->.
  { unfold spliceOut. cbn [arrayIndexOf].
    rewrite bool_decide_eq_false_2 by exact Hab.
    now rewrite bool_decide_eq_true_2. }
  rewrite scan_cons, (step_plain_one _ _ _ _ [sa; L1; L2] HL3);
    [| rewrite !(lookup_insert_ne _ b a) by congruence;
       now rewrite lookup_insert_eq ].
  cbn [bind app].
  rewrite scan_cons, (step_end _ _ _ _ _ [sa; L1; L2; L3] Hea);
    [| now left | now rewrite lookup_insert_eq ].
  cbn [bind app].
  assert (spliceOut a [a] = []) as ->.
  { unfold spliceOut. cbn [arrayIndexOf]. now rewrite bool_decide_eq_true_2. }
  rewrite scan_nil. cbn [bind].
  rewrite (scan_plain_outside _ _ _ Hpost). cbn [bind map].
  do 2 f_equal. apply map_eq. intros n.
  destruct (decide (n = a)) as [->|Hna]; [now rewrite !lookup_insert_eq|].
  destruct (decide (n = b)) as [->|Hnb]; now simplify_map_eq.
Qed.

Lemma not_in_objectPrototype (name : jsstring) :
  bool_decide (name ∈ objectPrototype) = false -> name ∉ objectPrototype.
Proof. intros H. now apply bool_decide_eq_false in H. Qed.

Lemma nested_regions_collected_witness :
  exists suffix,
    collectLines examplePath
      ([enablementLine; lit "init();"]
         ++ [lit "// [START a]"; lit "L1"; lit "// [START b]"; lit "L2";
             lit "// [END b]"; lit "L3"; lit "// [END a]"]
         ++ [lit "done();"])
    = Ok (Config true suffix
            {[ lit "a" := [lit "// [START a]"; lit "L1"; lit "L2"; lit "L3";
                           lit "// [END a]"];
               lit "b" := [lit "// [START b]"; lit "L2"; lit "// [END b]"] ]}).
Proof.
  apply (nested_regions_collected examplePath
           [enablementLine; lit "init();"] [lit "done();"]
           (lit "a") (lit "b")).
  - reflexivity.
  - repeat constructor.
  - reflexivity.
  - reflexivity.
  - reflexivity.
  - reflexivity.
  - discriminate.
  - apply not_in_objectPrototype. reflexivity.
  - apply not_in_objectPrototype. reflexivity.
Defined.

(** C1, as the spec has it, fails: the region a of the example has five
    lines, not seven; the tag lines of b are not among them. *)
Lemma nested_regions_counterexample :
  exists config,
    collectLines examplePath nestedFile = Ok config /\
    snippets config !! lit "a"
      = Some [lit "// [START a]"; lit "L1"; lit "L2"; lit "L3";
              lit "// [END a]"] /\
    snippets config !! lit "a"
      <> Some [lit "// [START a]"; lit "L1"; lit "// [START b]"; lit "L2";
               lit "// [END b]"; lit "L3"; lit "// [END a]"].
Proof.
  exists (Config true (lit "_modular")
            {[ lit "a" := [lit "// [START a]"; lit "L1"; lit "L2"; lit "L3";
                           lit "// [END a]"];
               lit "b" := [lit "// [START b]"; lit "L2"; lit "// [END b]"] ]}).
  split; [vm_compute; reflexivity|].
  split; [vm_compute; reflexivity|].
  vm_compute. discriminate.
Qed.

(* ===================================================================== *)
(** ** The pipeline on the example of the spec *)
(* ===================================================================== *)

(** C2, as the spec has it, fails: with the tag lines as the spec writes
    them the body keeps the blank line (the first line that does not start
    with [//] is the Start line) and the indentation of the import (the tag
    lines are not indented, so the minimum is zero); with the tags in
    comments at the margin the blank line goes but the indentation stays. *)
Lemma pipeline_example_counterexample :
  (exists config,
     collectLines examplePath (demoFile demoRegion) = Ok config /\
     suffix config = lit "_doc" /\
     snippets config = {[ lit "demo" := demoRegion ]} /\
     transformLines demoRegion (suffix config)
       <> [lit "[START demo_doc]"; lit "import {x} from 'y'";
           lit "[END demo_doc]"]) /\
  transformLines demoRegionCommented (lit "_doc")
    <> [lit "// [START demo_doc]"; lit "import {x} from 'y'";
        lit "// [END demo_doc]"].
Proof.
  split.
  - exists (Config true (lit "_doc") {[ lit "demo" := demoRegion ]}).
    split; [vm_compute; reflexivity|].
    split; [reflexivity|]. split; [reflexivity|].
    vm_compute. discriminate.
  - vm_compute. discriminate.
Qed.

(** C2, as the code has it. The region of the example comes out with four
    lines, the blank one and the indentation of the import kept. With the
    tags in comments at the margin the blank line goes and the indentation
    stays. The body the spec expects comes out when the tag lines are
    comments indented like the code between them: then the minimum
    indentation is two and the first line after the comment is the blank
    one. *)
Theorem pipeline_example :
  transformLines demoRegion (lit "_doc")
  = [lit "[START demo_doc]"; lit ""; lit "  import {x} from 'y'";
     lit "[END demo_doc]"] /\
  transformLines demoRegionCommented (lit "_doc")
  = [lit "// [START demo_doc]"; lit "  import {x} from 'y'";
     lit "// [END demo_doc]"] /\
  collectLines examplePath (demoFile demoRegionIndented)
  = Ok (Config true (lit "_doc") {[ lit "demo" := demoRegionIndented ]}) /\
  transformLines demoRegionIndented (lit "_doc")
  = [lit "// [START demo_doc]"; lit "import {x} from 'y'";
     lit "// [END demo_doc]"].
Proof. repeat split; vm_compute; reflexivity. Qed.

(* ===================================================================== *)
(** ** Output paths *)
(* ===================================================================== *)

Section Segments.
Implicit Types (w seg : jsstring) (segs : list jsstring).

Lemma split_noSlash w : noSlash w -> split 47 w = [w].
Proof.
  unfold noSlash. induction w as [|c w IH]; simpl; [reflexivity|].
  intros H. apply andb_true_iff in H as [Hc Hw].
  apply negb_true_iff in Hc. rewrite Hc. now rewrite IH.
Qed.

Lemma split_app_slash w (rest : jsstring) :
  noSlash w -> split 47 (w ++ 47 :: rest) = w :: split 47 rest.
Proof.
  unfold noSlash. induction w as [|c w IH]; simpl; [reflexivity|].
  intros H. apply andb_true_iff in H as [Hc Hw].
  apply negb_true_iff in Hc. rewrite Hc. now rewrite IH.
Qed.

Lemma join_cons2 (sep : jsstring) w w' segs :
  join sep (w :: w' :: segs) = w ++ sep ++ join sep (w' :: segs).
Proof. reflexivity. Qed.

Lemma split_join segs :
  segs <> [] -> Forall noSlash segs ->
  split 47 (join (lit "/") segs) = segs.
Proof.
  induction segs as [|w segs IH]; [congruence|]. intros _ Hall.
  apply Forall_cons in Hall as [Hw Hall].
  destruct segs as [|w' segs]; [now apply split_noSlash|].
  rewrite join_cons2. change (lit "/" ++ ?x) with (47 :: x).
  rewrite split_app_slash by exact Hw. f_equal. now apply IH.
Qed.

Lemma pushSegment_plain (allowAboveRoot : bool) (acc : list jsstring) seg :
  plainSegment seg -> pushSegment allowAboveRoot acc seg = acc ++ [seg].
Proof.
  intros (Hne & _ & Hdot & Hdots). unfold pushSegment.
  rewrite bool_decide_eq_false_2 by tauto.
  now rewrite bool_decide_eq_false_2.
Qed.

Lemma fold_left_pushSegment (allowAboveRoot : bool) segs :
  Forall plainSegment segs ->
  forall acc,
    fold_left (pushSegment allowAboveRoot) segs acc = acc ++ segs.
Proof.
  induction 1 as [|seg segs Hseg _ IH]; intros acc; simpl.
  - now rewrite app_nil_r.
  - rewrite pushSegment_plain by exact Hseg. rewrite IH.
    now rewrite <- app_assoc.
Qed.

Lemma join_head (sep : jsstring) (c : code) w segs :
  exists rest, join sep ((c :: w) :: segs) = c :: rest.
Proof. destruct segs; simpl; eauto. Qed.

Lemma last_join segs :
  segs <> [] -> Forall plainSegment segs ->
  exists c, last (join (lit "/") segs) = Some c /\ (c =? 47) = false.
Proof.
  induction segs as [|w segs IH]; [congruence|]. intros _ Hall.
  apply Forall_cons in Hall as [(Hne & Hns & _) Hall].
  destruct segs as [|w' segs].
  - simpl. destruct (last w) as [c|] eqn:E; [|now apply last_None in E].
    exists c. split; [reflexivity|].
    apply last_Some_elem_of, list_elem_of_In in E.
    unfold noSlash in Hns. rewrite forallb_forall in Hns.
    now apply negb_true_iff, Hns.
  - destruct IH as (c & Hc & Hne47); [discriminate | exact Hall |].
    exists c. split; [|exact Hne47].
    rewrite join_cons2, !last_app, Hc. reflexivity.
Qed.

(** [path.normalize] has nothing to do on a relative path of plain
    components, and only removes the [./] in front of one. *)
Lemma normalize_plain (dot : bool) segs :
  segs <> [] -> Forall plainSegment segs ->
  normalize ((if dot then lit "./" else []) ++ join (lit "/") segs)
  = join (lit "/") segs.
Proof.
  intros Hne Hall.
  destruct (last_join segs Hne Hall) as (c & Hlast & Hc).
  assert (Forall noSlash segs) as Hns
    by (eapply Forall_impl; [exact Hall | intros s Hs; apply Hs]).
  assert (exists c0 rest, join (lit "/") segs = c0 :: rest /\ (c0 =? 47) = false)
    as (c0 & rest & Hj & Hc0).
  { destruct segs as [|[|c0 w] segs]; [congruence | |].
    - apply Forall_cons in Hall as [(H & _) _]. congruence.
    - destruct (join_head (lit "/") c0 w segs) as [rest Hrest].
      exists c0, rest. split; [exact Hrest|].
      apply Forall_cons in Hns as [Hw _]. unfold noSlash in Hw. simpl in Hw.
      apply andb_true_iff in Hw as [Hw _]. now apply negb_true_iff. }
  assert (normalizeString true
            ((if dot then lit "./" else []) ++ join (lit "/") segs)
          = join (lit "/") segs) as Hn.
  { unfold normalizeString. f_equal. destruct dot.
    - change (lit "./" ++ ?x) with (lit "." ++ 47 :: x).
      rewrite split_app_slash by reflexivity.
      rewrite split_join by assumption. cbn [fold_left].
      change (pushSegment true [] (lit ".")) with (@nil jsstring).
      now rewrite fold_left_pushSegment.
    - cbn [app]. rewrite split_join by assumption.
      now rewrite fold_left_pushSegment. }
  unfold normalize. destruct dot.
  - change (lit "./" ++ ?x) with (46 :: 47 :: x) in *.
    cbv beta iota zeta. change (46 =? 47) with false. cbn [negb].
    rewrite Hn, !last_cons, Hlast, Hc. rewrite Hj at 1.
    cbn [app]. now rewrite app_nil_r.
  - cbn [app] in *. rewrite Hj at 1. cbv beta iota zeta.
    rewrite Hc0. cbn [negb]. rewrite Hn, Hlast, Hc. rewrite Hj at 1.
    cbn [app]. now rewrite app_nil_r.
Qed.

Lemma normalize_relative segs :
  segs <> [] -> Forall plainSegment segs ->
  normalize (join (lit "/") segs) = join (lit "/") segs.
Proof. exact (normalize_plain false segs). Qed.

Lemma normalize_dot_relative segs :
  segs <> [] -> Forall plainSegment segs ->
  normalize (lit "./" ++ join (lit "/") segs) = join (lit "/") segs.
Proof. exact (normalize_plain true segs). Qed.

Lemma pathJoin_nonempty (a b : jsstring) :
  a <> [] -> b <> [] -> pathJoin a b = normalize (a ++ lit "/" ++ b).
Proof.
  intros Ha Hb. unfold pathJoin.
  rewrite filter_cons_True by exact Ha.
  rewrite filter_cons_True by exact Hb.
  reflexivity.
Qed.
End Segments.

Lemma replaceAllChar_app (c : code) (r s1 s2 : jsstring) :
  replaceAllChar c r (s1 ++ s2)
  = replaceAllChar c r s1 ++ replaceAllChar c r s2.
Proof. unfold replaceAllChar. now rewrite List.map_app, concat_app. Qed.

Lemma dotsToDashes_join (segs : list jsstring) :
  dotsToDashes (join (lit "/") segs)
  = join (lit "/") (List.map dotsToDashes segs).
Proof.
  induction segs as [|w segs IH]; [reflexivity|].
  destruct segs as [|w' segs]; [reflexivity|].
  rewrite join_cons2. unfold dotsToDashes in *.
  rewrite !replaceAllChar_app, IH. reflexivity.
Qed.

(** No dot is left in a slug. *)
Lemma dotsToDashes_no_dot (s : jsstring) :
  forallb (fun c => negb (c =? 46)) (dotsToDashes s) = true.
Proof.
  induction s as [|c s IH]; [reflexivity|].
  change (dotsToDashes (c :: s))
    with ((if c =? 46 then lit "-" else [c]) ++ dotsToDashes s).
  rewrite forallb_app, IH, andb_true_r.
  destruct (c =? 46) eqn:E; simpl; [reflexivity|]. now rewrite E.
Qed.

Lemma fileSlug_no_dot (filePath : jsstring) :
  forallb (fun c => negb (c =? 46)) (fileSlug filePath) = true.
Proof. apply dotsToDashes_no_dot. Qed.

Lemma dotsToDashes_plain (seg : jsstring) :
  seg <> [] -> noSlash seg -> plainSegment (dotsToDashes seg).
Proof.
  intros Hne Hns.
  pose proof (dotsToDashes_no_dot seg) as Hdot.
  split; [|split; [|split]].
  - destruct seg as [|c seg]; [congruence|].
    change (dotsToDashes (c :: seg))
      with ((if c =? 46 then lit "-" else [c]) ++ dotsToDashes seg).
    now destruct (c =? 46).
  - clear Hne Hdot. unfold noSlash in *.
    induction seg as [|c seg IH]; [reflexivity|].
    change (dotsToDashes (c :: seg))
      with ((if c =? 46 then lit "-" else [c]) ++ dotsToDashes seg).
    simpl in Hns. apply andb_true_iff in Hns as [Hc Hseg].
    rewrite forallb_app, (IH Hseg), andb_true_r.
    destruct (c =? 46); simpl; [reflexivity|]. now rewrite Hc.
  - intros E. rewrite E in Hdot. discriminate.
  - intros E. rewrite E in Hdot. discriminate.
Qed.

Lemma nameChar_not_slash (c : code) :
  nameChar c = true -> negb (c =? 47) = true /\ negb (c =? 46) = true.
Proof.
  intros H. split; apply negb_true_iff, N.eqb_neq; intros ->; discriminate.
Qed.

Lemma fileName_plain (snippetName : jsstring) :
  forallb nameChar snippetName = true ->
  plainSegment (snippetName ++ lit ".js").
Proof.
  intros Hn. split; [|split; [|split]].
  - now destruct snippetName.
  - unfold noSlash. rewrite forallb_app, andb_true_r.
    rewrite forallb_forall in *. intros c Hc.
    now apply nameChar_not_slash, Hn.
  - intros E. apply (f_equal length) in E. rewrite length_app in E.
    simpl in E. lia.
  - intros E. apply (f_equal length) in E. rewrite length_app in E.
    simpl in E. lia.
Qed.

Lemma join_snoc (sep : jsstring) (segs : list jsstring) (w : jsstring) :
  segs <> [] -> join sep (segs ++ [w]) = join sep segs ++ sep ++ w.
Proof.
  induction segs as [|v segs IH]; [congruence|]. intros _.
  destruct segs as [|v' segs]; [reflexivity|].
  rewrite <- !app_comm_cons, join_cons2.
  rewrite app_comm_cons, IH by discriminate.
  rewrite join_cons2. now rewrite <- !app_assoc.
Qed.

(** C9, as the code has it. For a source path [./c1/.../cn.js] as [find]
    prints it (components that are not empty, [.js] occurring first as the
    extension) and a region name, the file slug is the path without [./]
    and [.js], every dot of it turned into a dash and every separator
    kept, and the region is written to
    [snippets/<slug>/<regionName>.js]. *)
Theorem output_path (comps : list jsstring) (snippetName : jsstring) :
  comps <> [] ->
  Forall (fun c => c <> [] /\ noSlash c) comps ->
  indexOf (lit ".js") (join (lit "/") comps ++ lit ".js")
    = Some (length (join (lit "/") comps)) ->
  snippetName <> [] ->
  forallb nameChar snippetName = true ->
  fileSlug (lit "./" ++ join (lit "/") comps ++ lit ".js")
    = join (lit "/") (List.map dotsToDashes comps) /\
  snippetDir (lit "./" ++ join (lit "/") comps ++ lit ".js")
    = lit "snippets/" ++ join (lit "/") (List.map dotsToDashes comps) /\
  newFilePath (lit "./" ++ join (lit "/") comps ++ lit ".js") snippetName
    = lit "snippets/" ++ join (lit "/") (List.map dotsToDashes comps)
        ++ lit "/" ++ snippetName ++ lit ".js".
Proof.
  set (rel := join (lit "/") comps).
  set (filePath := lit "./" ++ rel ++ lit ".js").
  intros Hne Hcomps Hjs Hname Hchars.
  enough (fileSlug filePath = join (lit "/") (List.map dotsToDashes comps) /\
          snippetDir filePath = lit "snippets/" ++ fileSlug filePath /\
          newFilePath filePath snippetName
          = lit "snippets/" ++ fileSlug filePath ++ lit "/" ++ snippetName
              ++ lit ".js") as (H1 & H2 & H3)
    by (rewrite H3, H2, H1; auto).
  assert (fileSlug filePath = join (lit "/") (List.map dotsToDashes comps))
    as Hslug.
  { unfold fileSlug, filePath.
    assert (replaceString (lit ".js") (lit "") (lit "./" ++ rel ++ lit ".js")
            = lit "./" ++ rel) as ->.
    { unfold replaceString.
      change (lit "./" ++ rel ++ lit ".js")
        with (46 :: 47 :: rel ++ lit ".js").
      assert (indexOf (lit ".js") (46 :: 47 :: rel ++ lit ".js")
              = S <$> (S <$> indexOf (lit ".js") (rel ++ lit ".js"))) as ->
        by reflexivity.
      rewrite Hjs. cbn [fmap option_fmap option_map take].
      rewrite take_app_length.
      change (length (lit ".js")) with 3%nat. cbn [drop Nat.add].
      rewrite drop_app_add.
      change (lit "" ++ drop 3 (lit ".js")) with (@nil N).
      now rewrite app_nil_r. }
    assert (replaceString (lit "./") (lit "") (lit "./" ++ rel) = rel) as ->
      by reflexivity.
    apply dotsToDashes_join. }
  set (segs := List.map dotsToDashes comps) in *.
  assert (segs <> []) as Hsegs by (destruct comps; [congruence | discriminate]).
  assert (Forall plainSegment segs) as Hplain.
  { unfold segs. apply Forall_map. eapply Forall_impl; [exact Hcomps|].
    intros c [Hc Hs]. now apply dotsToDashes_plain. }
  assert (Forall plainSegment (lit "snippets" :: segs)) as Hplain'.
  { constructor; [|exact Hplain]. repeat split; discriminate. }
  assert (snippetDir filePath = lit "snippets/" ++ fileSlug filePath) as Hdir.
  { unfold snippetDir. rewrite Hslug.
    rewrite pathJoin_nonempty; [|discriminate|].
    - change (lit "./snippets" ++ lit "/" ++ join (lit "/") segs)
        with (lit "./" ++ lit "snippets" ++ lit "/" ++ join (lit "/") segs).
      destruct segs as [|s0 segs0] eqn:Es; [congruence|].
      rewrite <- (join_cons2 (lit "/") (lit "snippets") s0 segs0).
      rewrite normalize_dot_relative by (assumption || discriminate).
      reflexivity.
    - destruct segs as [|[|c0 s0] segs0]; [congruence | |].
      + apply Forall_cons in Hplain as [(H & _) _]. congruence.
      + destruct (join_head (lit "/") c0 s0 segs0) as [r ->]. discriminate. }
  split; [exact Hslug|]. split; [exact Hdir|].
  unfold newFilePath. rewrite Hdir, Hslug.
  rewrite pathJoin_nonempty; [|discriminate | now destruct snippetName].
  destruct segs as [|s0 segs0] eqn:Es; [congruence|].
  change (lit "snippets/" ++ join (lit "/") (s0 :: segs0))
    with (join (lit "/") (lit "snippets" :: s0 :: segs0)).
  rewrite <- (join_snoc (lit "/") (lit "snippets" :: s0 :: segs0)
                (snippetName ++ lit ".js")) by discriminate.
  rewrite normalize_relative; [| discriminate |].
  - rewrite join_snoc by discriminate. reflexivity.
  - apply Forall_app. split; [exact Hplain'|].
    constructor; [|constructor]. now apply fileName_plain.
Qed.

Lemma output_path_witness :
  fileSlug (lit "./auth/email.link.js") = lit "auth/email-link" /\
  snippetDir (lit "./auth/email.link.js") = lit "snippets/auth/email-link" /\
  newFilePath (lit "./auth/email.link.js") (lit "sign_in")
  = lit "snippets/auth/email-link/sign_in.js".
Proof.
  apply (output_path [lit "auth"; lit "email.link"] (lit "sign_in")).
  - discriminate.
  - repeat constructor; discriminate.
  - reflexivity.
  - discriminate.
  - reflexivity.
Defined.

(** C9, as the spec has it, fails: the path separators of the source path
    are kept in the slug, so a file in a directory is written below a
    directory of the same name and not to one flat directory. *)
Lemma output_path_counterexample :
  fileSlug (lit "./auth/email.js") = lit "auth/email" /\
  47 ∈ fileSlug (lit "./auth/email.js") /\
  newFilePath (lit "./auth/email.js") (lit "sign_in")
    = lit "snippets/auth/email/sign_in.js" /\
  newFilePath (lit "./auth/email.js") (lit "sign_in")
    <> lit "snippets/auth-email/sign_in.js".
Proof.
  split; [reflexivity|]. split; [|split; [reflexivity|discriminate]].
  apply list_elem_of_In. vm_compute. tauto.
Qed.

(* ===================================================================== *)
(** ** The matcher finds every word of the regex *)
(* ===================================================================== *)

Section MatcherComplete.
Context {A : Type}.
Implicit Types (k : jsstring -> option A) (s w : jsstring).

Lemma starGreedy_complete cls k w s :
  forallb cls w = true -> is_Some (k s) ->
  is_Some (starGreedy cls k (w ++ s)).
Proof.
  intros Hw Hk. induction w as [|c w IH]; simpl in *.
  - destruct s as [|c s]; simpl; [exact Hk|].
    destruct (cls c); [|exact Hk].
    destruct (starGreedy cls k s); [eauto | exact Hk].
  - apply andb_true_iff in Hw as [-> Hw].
    destruct (IH Hw) as [r ->]. eauto.
Qed.

Lemma starLazy_complete cls k w s :
  forallb cls w = true -> is_Some (k s) ->
  is_Some (starLazy cls k (w ++ s)).
Proof.
  intros Hw Hk. induction w as [|c w IH]; simpl in *.
  - destruct Hk as [r Hr]. destruct s; simpl; rewrite Hr; eauto.
  - apply andb_true_iff in Hw as [-> Hw].
    destruct (k (c :: w ++ s)); [eauto | now apply IH].
Qed.

Lemma rep_complete greedy atLeastOne cls k w s :
  forallb cls w = true -> (atLeastOne = true -> w <> []) ->
  is_Some (k s) ->
  is_Some (rep greedy atLeastOne cls k (w ++ s)).
Proof.
  intros Hw Hne Hk.
  assert (forall v, forallb cls v = true ->
            is_Some ((if greedy then starGreedy cls k else starLazy cls k)
                       (v ++ s))) as Hstar.
  { intros v Hv.
    destruct greedy; [now apply starGreedy_complete
                     | now apply starLazy_complete]. }
  unfold rep. destruct atLeastOne; [|now apply Hstar].
  destruct w as [|c w]; [now destruct Hne|]. simpl in *.
  apply andb_true_iff in Hw as [-> Hw]. now apply Hstar.
Qed.
End MatcherComplete.

Lemma run_complete {A} (r : regex) :
  forall (s : jsstring) (caps : list jsstring)
         (k : jsstring -> list jsstring -> option A)
         (w s' : jsstring) (g : list jsstring),
    s = w ++ s' -> denotes r w g -> is_Some (k s' (caps ++ g)) ->
    is_Some (run r s caps k).
Proof.
  induction r as [p | greedy one cls | r IH | r1 IH1 r2 IH2];
    intros s caps k w s' g -> Hd Hk; simpl in *.
  - destruct Hd as [-> ->]. rewrite startsWith_refl_app, drop_app_length.
    now rewrite app_nil_r in Hk.
  - destruct Hd as (Hw & Hne & ->). rewrite app_nil_r in Hk.
    now apply rep_complete.
  - destruct Hd as (g' & Hd & ->).
    apply (IH _ _ _ w s' g' eq_refl Hd).
    rewrite length_app, Nat.add_sub, take_app_length.
    now rewrite <- app_assoc.
  - destruct Hd as (w1 & w2 & g1 & g2 & -> & -> & Hd1 & Hd2).
    rewrite <- app_assoc.
    apply (IH1 _ _ _ w1 (w2 ++ s') g1 eq_refl Hd1).
    apply (IH2 _ _ _ w2 s' g2 eq_refl Hd2).
    now rewrite <- app_assoc.
Qed.

(** At one position: the matcher answers exactly when a word of the regex
    starts there. *)
Lemma matchAt_complete (r : regex) (i : nat) (w s' : jsstring)
    (g : list jsstring) :
  denotes r w g -> is_Some (matchAt r i (w ++ s')).
Proof.
  intros Hd. unfold matchAt. now apply (run_complete r _ _ _ w s' g).
Qed.

Lemma matchAt_None (r : regex) (i : nat) (s : jsstring) :
  matchAt r i s = None <->
  ~ exists w g s', s = w ++ s' /\ denotes r w g.
Proof.
  split.
  - intros H (w & g & s' & -> & Hd).
    destruct (matchAt_complete r i w s' g Hd) as [m Hm]. congruence.
  - intros H. destruct (matchAt r i s) as [m|] eqn:E; [|reflexivity].
    destruct H. apply matchAt_sound in E as (_ & Hd & post & ->). eauto.
Qed.

(** The search skips a prefix in which no match starts. *)
Lemma search_skip (r : regex) (pre : jsstring) :
  forall (i : nat) (s : jsstring),
    (forall pre1 pre2, pre = pre1 ++ pre2 -> pre2 <> [] ->
       ~ exists w g s', pre2 ++ s = w ++ s' /\ denotes r w g) ->
    search r i (pre ++ s) = search r (i + length pre) s.
Proof.
  induction pre as [|c pre IH]; intros i s Hno.
  - simpl. now rewrite Nat.add_0_r.
  - assert (matchAt r i (c :: pre ++ s) = None) as Hc.
    { apply matchAt_None. now apply (Hno [] (c :: pre)). }
    cbn [app search length]. rewrite Hc, IH.
    + f_equal. lia.
    + intros pre1 pre2 -> Hne. now apply (Hno (c :: pre1) pre2).
Qed.

(** [line.match(re)] succeeds exactly on the lines that contain a word of
    the regex. *)
Lemma matches_iff_denotes (re : regex) (line : jsstring) :
  matches re line = true <->
  exists pre w post g, line = pre ++ w ++ post /\ denotes re w g.
Proof.
  rewrite matches_true. split.
  - intros [m Hm]. apply exec_sound in Hm as (Hd & pre & post & -> & _).
    eauto 6.
  - intros (pre & w & post & g & -> & Hd). unfold exec. generalize 0%nat.
    induction pre as [|c pre IH]; intros i.
    + destruct (matchAt_complete re i w post g Hd) as [m Hm].
      exists m. cbn [app]. destruct (w ++ post); simpl; now rewrite Hm.
    + cbn [app search]. destruct (matchAt re i (c :: pre ++ w ++ post));
        [eauto | apply IH].
Qed.

(* ===================================================================== *)
(** ** Which lines are tags *)
(* ===================================================================== *)

Lemma nameChar_cases (c : code) :
  nameChar c = true <-> 65 <= c <= 90 \/ 97 <= c <= 122 \/ c = 95.
Proof.
  unfold nameChar, isUpper, isLower.
  rewrite !orb_true_iff, !andb_true_iff, !N.leb_le, N.eqb_eq. tauto.
Qed.

Lemma isWhiteSpace_cases (c : code) :
  isWhiteSpace c = true ->
  9 <= c <= 13 \/ c = 32 \/ 160 <= c.
Proof.
  unfold isWhiteSpace.
  rewrite !orb_true_iff, !andb_true_iff, !N.leb_le, !N.eqb_eq. lia.
Qed.

Lemma nameChar_not_whitespace (c : code) :
  nameChar c = true -> isWhiteSpace c = false.
Proof.
  intros Hn. apply nameChar_cases in Hn.
  destruct (isWhiteSpace c) eqn:E; [|reflexivity].
  apply isWhiteSpace_cases in E. lia.
Qed.

Lemma whitespace_not_nameChar (c : code) :
  isWhiteSpace c = true -> nameChar c = false.
Proof.
  intros Hw. destruct (nameChar c) eqn:E; [|reflexivity].
  apply nameChar_not_whitespace in E. congruence.
Qed.

Lemma nameChar_not_bracket (c : code) :
  nameChar c = true -> negb (c =? 91) = true.
Proof.
  intros Hn. apply nameChar_cases in Hn.
  apply negb_true_iff, N.eqb_neq. lia.
Qed.

Lemma whitespace_not_bracket (c : code) :
  isWhiteSpace c = true -> negb (c =? 91) = true.
Proof.
  intros Hw. apply isWhiteSpace_cases in Hw.
  apply negb_true_iff, N.eqb_neq. lia.
Qed.

(** Two ways to cut a string after a run of characters of one class, each
    followed by a character outside the class, are the same way. *)
Lemma span_unique (p : code -> bool) (a : jsstring) :
  forall a' x x' : jsstring,
    forallb p a = true -> forallb p a' = true ->
    (forall c t, x = c :: t -> p c = false) ->
    (forall c t, x' = c :: t -> p c = false) ->
    a ++ x = a' ++ x' -> a = a' /\ x = x'.
Proof.
  induction a as [|c a IH]; intros [|c' a'] x x' Ha Ha' Hx Hx' E;
    simpl in *.
  - auto.
  - apply andb_true_iff in Ha' as [Hc _].
    rewrite (Hx _ _ E) in Hc. discriminate.
  - apply andb_true_iff in Ha as [Hc _].
    rewrite (Hx' _ _ (eq_sym E)) in Hc. discriminate.
  - injection E as -> E.
    apply andb_true_iff in Ha as [_ Ha].
    apply andb_true_iff in Ha' as [_ Ha'].
    destruct (IH a' x x' Ha Ha' Hx Hx' E) as [-> ->]. auto.
Qed.

Section Tags.
Variable keyword : jsstring.

Lemma tag_denotes (ws1 name ws2 : jsstring) :
  wellFormedTag ws1 name ws2 ->
  denotes (tagRegex keyword) (tagText keyword ws1 name ws2) [name].
Proof.
  intros (Hne1 & Hws1 & Hne & Hn & Hws2). unfold tagRegex, tagText. simpl.
  exists keyword, (ws1 ++ name ++ ws2 ++ lit "]"), [], [name].
  split; [reflexivity|]. split; [reflexivity|]. split; [now split|].
  exists ws1, (name ++ ws2 ++ lit "]"), [], [name].
  split; [reflexivity|]. split; [reflexivity|]. split; [now repeat split|].
  exists name, (ws2 ++ lit "]"), [name], [].
  split; [reflexivity|]. split; [reflexivity|]. split.
  { exists []. split; [now repeat split | reflexivity]. }
  exists ws2, (lit "]"), [], [].
  split; [reflexivity|]. split; [reflexivity|]. split; [|now split].
  split; [exact Hws2|]. split; [discriminate | reflexivity].
Qed.

Lemma tag_denotes_inv (w : jsstring) (g : list jsstring) :
  denotes (tagRegex keyword) w g ->
  exists ws1 name ws2,
    g = [name] /\ w = tagText keyword ws1 name ws2 /\
    wellFormedTag ws1 name ws2.
Proof.
  unfold tagRegex, tagText. simpl.
  intros (w1 & w2 & g1 & g2 & -> & -> & [-> ->] & Hd).
  destruct Hd as (w3 & w4 & g3 & g4 & -> & -> & (Hws1 & Hne1 & ->) & Hd).
  destruct Hd as (w5 & w6 & g5 & g6 & -> & -> & (g' & (Hn & Hne & ->) & ->) & Hd).
  destruct Hd as (w7 & w8 & g7 & g8 & -> & -> & (Hws2 & _ & ->) & [-> ->]).
  exists w3, w5, w7. repeat split; auto.
Qed.

Lemma tag_unique (ws1 name ws2 post ws1' name' ws2' post' : jsstring) :
  wellFormedTag ws1 name ws2 -> wellFormedTag ws1' name' ws2' ->
  tagText keyword ws1 name ws2 ++ post
  = tagText keyword ws1' name' ws2' ++ post' ->
  ws1 = ws1' /\ name = name' /\ ws2 = ws2' /\ post = post'.
Proof.
  intros (Hne1 & Hws1 & Hne & Hn & Hws2) (Hne1' & Hws1' & Hne' & Hn' & Hws2').
  unfold tagText. rewrite <- !app_assoc. intros E.
  apply app_inv_head in E.
  assert (forall n rest c t,
            n <> [] -> forallb nameChar n = true ->
            n ++ rest = c :: t -> isWhiteSpace c = false) as Hhead1.
  { intros [|c0 n] rest c t Hnn Hnc; [congruence|]. simpl in *.
    intros [= <- _]. apply andb_true_iff in Hnc as [Hc _].
    now apply nameChar_not_whitespace. }
  destruct (span_unique isWhiteSpace ws1 ws1' _ _ Hws1 Hws1'
              (fun c t => Hhead1 name _ c t Hne Hn)
              (fun c t => Hhead1 name' _ c t Hne' Hn') E) as [<- E1].
  assert (forall v rest c t,
            forallb isWhiteSpace v = true ->
            v ++ lit "]" ++ rest = c :: t -> nameChar c = false) as Hhead2.
  { intros [|c0 v] rest c t Hv; simpl in *.
    - now intros [= <- _].
    - intros [= <- _]. apply andb_true_iff in Hv as [Hc _].
      now apply whitespace_not_nameChar. }
  destruct (span_unique nameChar name name' _ _ Hn Hn'
              (fun c t => Hhead2 ws2 _ c t Hws2)
              (fun c t => Hhead2 ws2' _ c t Hws2') E1) as [<- E2].
  destruct (span_unique isWhiteSpace ws2 ws2' (lit "]" ++ post)
              (lit "]" ++ post') Hws2 Hws2') as [<- E3]; auto.
  - now intros c t [= <- _].
  - now intros c t [= <- _].
  - injection E3 as <-. auto.
Qed.

Lemma search_found (r : regex) (i : nat) (s : jsstring) (m : matchResult) :
  matchAt r i s = Some m -> search r i s = Some m.
Proof. intros H. destruct s; simpl; now rewrite H. Qed.

(** The match of a tag regex on a line whose first opening bracket opens a
    well-formed tag: that tag, with its name as the capture. *)
Lemma exec_tag (kw' pre ws1 name ws2 post : jsstring) :
  keyword = 91 :: kw' -> noBracket pre -> wellFormedTag ws1 name ws2 ->
  exec (tagRegex keyword) (pre ++ tagText keyword ws1 name ws2 ++ post)
  = Some (MatchResult (length pre) (tagText keyword ws1 name ws2) [name]).
Proof.
  intros Hkw Hpre Htag. unfold exec. rewrite search_skip.
  - destruct (matchAt_complete (tagRegex keyword) (0 + length pre) _ post _
                (tag_denotes _ _ _ Htag)) as [m Hm].
    rewrite (search_found _ _ _ _ Hm). f_equal.
    apply matchAt_sound in Hm as (Hi & Hd & post' & E).
    apply tag_denotes_inv in Hd as (ws1' & name' & ws2' & Hg & Hw & Htag').
    rewrite Hw in E.
    apply (tag_unique _ _ _ _ _ _ _ _ Htag Htag') in E as (<- & <- & <- & _).
    destruct m as [i w g]. simpl in *. now subst.
  - intros pre1 pre2 -> Hne (w & g & s' & E & Hd).
    apply tag_denotes_inv in Hd as (ws1' & name' & ws2' & _ & -> & _).
    unfold tagText in E. rewrite Hkw in E.
    destruct pre2 as [|c pre2]; [congruence|]. simpl in E.
    injection E as -> _. unfold noBracket in Hpre.
    rewrite forallb_app in Hpre. simpl in Hpre.
    now rewrite andb_false_r in Hpre.
Qed.

(** A match of a tag regex starts at an opening bracket. *)
Lemma exec_tag_bracket (kw' line : jsstring) (m : matchResult) :
  keyword = 91 :: kw' -> exec (tagRegex keyword) line = Some m ->
  exists pre rest, line = pre ++ 91 :: kw' ++ rest.
Proof.
  intros Hkw Hm. apply exec_sound in Hm as (Hd & pre & post & -> & _).
  apply tag_denotes_inv in Hd as (ws1 & name & ws2 & _ & -> & _).
  unfold tagText. rewrite Hkw. exists pre. eexists.
  rewrite <- !app_assoc. reflexivity.
Qed.
End Tags.

Lemma noBracket_no_tag (keyword kw' line : jsstring) :
  keyword = 91 :: kw' -> noBracket line ->
  exec (tagRegex keyword) line = None.
Proof.
  intros Hkw Hline. destruct (exec (tagRegex keyword) line) eqn:E;
    [|reflexivity].
  destruct (exec_tag_bracket _ _ _ _ Hkw E) as (pre & rest & ->).
  unfold noBracket in Hline. rewrite forallb_app in Hline. simpl in Hline.
  now rewrite andb_false_r in Hline.
Qed.

(** Where the first opening bracket of a string is, any other one comes
    after it. *)
Lemma first_bracket (a : jsstring) :
  forall p x y : jsstring,
    noBracket a -> a ++ 91 :: x = p ++ 91 :: y ->
    (p = a /\ y = x) \/ exists p', x = p' ++ 91 :: y.
Proof.
  unfold noBracket.
  induction a as [|c a IH]; intros [|d p] x y Ha E; simpl in *.
  - injection E as ->. auto.
  - injection E as <- ->. eauto.
  - injection E as -> _. discriminate.
  - injection E as -> E. apply andb_true_iff in Ha as [_ Ha].
    destruct (IH p x y Ha E) as [[-> ->]|H]; auto.
Qed.

(** X1. A line whose first opening bracket opens a well-formed
    [[START name]] tag is a Start line of that name, whatever follows the
    tag: [line.match(RE_START_SNIPPET)] finds that tag and captures
    [name]. *)
Theorem start_tag_recognised (pre ws1 name ws2 post : jsstring) :
  noBracket pre -> wellFormedTag ws1 name ws2 ->
  exec RE_START_SNIPPET
    (pre ++ tagText (lit "[START") ws1 name ws2 ++ post)
  = Some (MatchResult (length pre)
            (tagText (lit "[START") ws1 name ws2) [name]) /\
  classify (pre ++ tagText (lit "[START") ws1 name ws2 ++ post)
  = Start name.
Proof.
  intros Hpre Htag.
  pose proof (exec_tag (lit "[START") (lit "START") pre ws1 name ws2 post
                eq_refl Hpre Htag) as H.
  change (tagRegex (lit "[START")) with RE_START_SNIPPET in H.
  split; [exact H|]. unfold classify. now rewrite H.
Qed.

Lemma start_tag_recognised_witness :
  exec RE_START_SNIPPET (lit "  // [START  sign_in ] (web)")
  = Some (MatchResult 5 (lit "[START  sign_in ]") [lit "sign_in"]) /\
  classify (lit "  // [START  sign_in ] (web)") = Start (lit "sign_in").
Proof.
  apply (start_tag_recognised (lit "  // ") (lit "  ") (lit "sign_in")
           (lit " ") (lit " (web)")).
  - reflexivity.
  - repeat split; (discriminate || reflexivity).
Defined.

(** X2. A line whose only opening bracket opens a well-formed
    [[END name]] tag is an End line of that name. *)
Theorem end_tag_recognised (pre ws1 name ws2 post : jsstring) :
  noBracket pre -> noBracket post -> wellFormedTag ws1 name ws2 ->
  classify (pre ++ tagText (lit "[END") ws1 name ws2 ++ post) = End name.
Proof.
  intros Hpre Hpost Htag.
  pose proof (exec_tag (lit "[END") (lit "END") pre ws1 name ws2 post
                eq_refl Hpre Htag) as H.
  change (tagRegex (lit "[END")) with RE_END_SNIPPET in H.
  unfold classify. rewrite H.
  destruct (exec RE_START_SNIPPET _) as [m|] eqn:E; [exfalso|reflexivity].
  destruct (exec_tag_bracket (lit "[START") (lit "START") _ m eq_refl E)
    as (p & rest & Hline).
  destruct Htag as (_ & Hws1 & _ & Hn & Hws2).
  change (tagText (lit "[END") ws1 name ws2 ++ post)
    with (91 :: lit "END" ++ (ws1 ++ name ++ ws2 ++ lit "]") ++ post)
    in Hline.
  apply first_bracket in Hline as [[_ Hrest]|[p' Hin]]; [| |exact Hpre].
  - discriminate Hrest.
  - assert (noBracket (lit "END" ++ (ws1 ++ name ++ ws2 ++ lit "]") ++ post))
      as Hnb.
    { unfold noBracket in *. rewrite !forallb_app, Hpost, !andb_true_r.
      repeat (apply andb_true_iff; split); try reflexivity.
      - apply forallb_forall. intros c Hc.
        rewrite forallb_forall in Hws1. now apply whitespace_not_bracket, Hws1.
      - apply forallb_forall. intros c Hc.
        rewrite forallb_forall in Hn. now apply nameChar_not_bracket, Hn.
      - apply forallb_forall. intros c Hc.
        rewrite forallb_forall in Hws2. now apply whitespace_not_bracket, Hws2. }
    rewrite Hin in Hnb. unfold noBracket in Hnb.
    rewrite forallb_app in Hnb. simpl in Hnb.
    now rewrite andb_false_r in Hnb.
Qed.

Lemma end_tag_recognised_witness :
  classify (lit "// [END sign_in]") = End (lit "sign_in").
Proof.
  apply (end_tag_recognised (lit "// ") (lit " ") (lit "sign_in") (lit "")
           (lit "")).
  - reflexivity.
  - reflexivity.
  - repeat split; (discriminate || reflexivity).
Defined.

(** X3. A line without an opening bracket is no tag: it is classified as
    plain, whatever else it contains. *)
Theorem line_without_bracket_is_plain (line : jsstring) :
  noBracket line -> classify line = Plain.
Proof.
  intros H. unfold classify.
  change RE_START_SNIPPET with (tagRegex (lit "[START")).
  change RE_END_SNIPPET with (tagRegex (lit "[END")).
  rewrite (noBracket_no_tag (lit "[START") (lit "START") _ eq_refl H).
  now rewrite (noBracket_no_tag (lit "[END") (lit "END") _ eq_refl H).
Qed.

Lemma line_without_bracket_is_plain_witness :
  classify (lit "const START = require('END');") = Plain.
Proof. apply line_without_bracket_is_plain. reflexivity. Defined.

(* ===================================================================== *)
(** ** The configuration of a file *)
(* ===================================================================== *)

Lemma matches_separation (line : jsstring) :
  matches RE_SNIPPETS_SEPARATION line = true <-> hasEnablementMarker line.
Proof.
  rewrite matches_iff_denotes. unfold hasEnablementMarker. split.
  - intros (pre & w & post & g & -> & Hd). simpl in Hd.
    destruct Hd as (w1 & w2 & g1 & g2 & -> & _ & [-> _] & Hd).
    destruct Hd as (w3 & w4 & g3 & g4 & -> & _ & (Hws & Hne & _) & [-> _]).
    exists pre, w3, post. rewrite <- !app_assoc. auto.
  - intros (pre & ws & post & -> & Hne & Hws).
    exists pre, (lit "[SNIPPETS_SEPARATION" ++ ws ++ lit "enabled]"), post, [].
    split; [now rewrite <- !app_assoc|]. simpl.
    exists (lit "[SNIPPETS_SEPARATION"), (ws ++ lit "enabled]"), [], [].
    split; [reflexivity|]. split; [reflexivity|]. split; [now split|].
    exists ws, (lit "enabled]"), [], [].
    split; [reflexivity|]. split; [reflexivity|]. split; [|now split].
    now repeat split.
Qed.

Lemma existsb_separation (lines : list jsstring) :
  existsb (matches RE_SNIPPETS_SEPARATION) lines = true <->
  Exists hasEnablementMarker lines.
Proof.
  rewrite existsb_exists, List.Exists_exists.
  split; intros (l & Hl & H); exists l; (split; [exact Hl|]);
    now apply matches_separation.
Qed.

(** X4. A file is processed exactly when one of its lines contains
    [[SNIPPETS_SEPARATION], white space, [enabled]]. Without such a line
    [collectSnippets] returns the disabled configuration with no region,
    and throws nothing even when the tags of the file are unbalanced; with
    one, a configuration it returns is enabled. *)
Theorem enabled_iff_marker (filePath : jsstring) (lines : list jsstring) :
  (Exists hasEnablementMarker lines ->
   forall config,
     collectLines filePath lines = Ok config -> enabled config = true) /\
  (~ Exists hasEnablementMarker lines ->
   collectLines filePath lines = Ok (Config false DEFAULT_SUFFIX ∅)).
Proof.
  split.
  - intros H config. apply existsb_separation in H.
    destruct (collectLines_enabled filePath lines H) as (sfx & _ & ->).
    destruct (scan filePath lines initialState); simpl; [|discriminate].
    now intros [= <-].
  - intros H. apply collectLines_disabled.
    destruct (existsb _ lines) eqn:E; [|reflexivity].
    now apply existsb_separation in E.
Qed.

Lemma enabled_iff_marker_witness :
  (forall config,
     collectLines examplePath danglingFile = Ok config ->
     enabled config = true) /\
  collectLines examplePath disabledFile = Ok (Config false DEFAULT_SUFFIX ∅).
Proof.
  split.
  - apply (proj1 (enabled_iff_marker examplePath danglingFile)).
    apply existsb_separation. reflexivity.
  - apply (proj2 (enabled_iff_marker examplePath disabledFile)).
    intros H. apply existsb_separation in H. discriminate H.
Defined.

Lemma find_first {A} (p : A -> bool) (pre : list A) (x : A) (rest : list A) :
  Forall (fun y => p y = false) pre -> p x = true ->
  List.find p (pre ++ x :: rest) = Some x.
Proof.
  induction 1 as [|y pre Hy _ IH]; intros Hx; simpl.
  - now rewrite Hx.
  - rewrite Hy. now apply IH.
Qed.

Lemma find_none_all {A} (p : A -> bool) (l : list A) :
  Forall (fun y => p y = false) l -> List.find p l = None.
Proof. induction 1 as [|y l Hy _ IH]; simpl; [reflexivity|]. now rewrite Hy. Qed.

(** X5. The suffix of an enabled file is the capture of the first line, in
    file order, that matches the suffix marker, whatever later markers say;
    a file none of whose lines matches it (the lines [pre] alone) has the
    suffix [_modular]. *)
Theorem suffix_first_marker_wins (filePath : jsstring)
    (pre rest : list jsstring) (line : jsstring) (m : matchResult)
    (config : SnippetsConfig) :
  Forall (fun l => exec RE_SNIPPETS_SUFFIX l = None) pre ->
  (exec RE_SNIPPETS_SUFFIX line = Some m ->
   collectLines filePath (pre ++ line :: rest) = Ok config ->
   enabled config = true ->
   suffix config = group 1 m) /\
  (collectLines filePath pre = Ok config -> suffix config = DEFAULT_SUFFIX).
Proof.
  intros Hpre.
  assert (Forall (fun l => matches RE_SNIPPETS_SUFFIX l = false) pre) as Hpre'.
  { eapply Forall_impl; [exact Hpre|]. intros l. apply matches_None. }
  split.
  - intros Hm. unfold collectLines.
    destruct (negb _); [intros [= <-]; discriminate|].
    unfold readSuffix.
    rewrite (find_first _ _ _ _ Hpre' (matches_Some _ _ _ Hm)).
    destruct line as [|c line].
    + vm_compute in Hm. discriminate Hm.
    + rewrite Hm. simpl.
      destruct (scan filePath _ initialState); simpl; [|discriminate].
      now intros [= <-].
  - unfold collectLines. destruct (negb _); [now intros [= <-]|].
    unfold readSuffix. rewrite (find_none_all _ _ Hpre'). simpl.
    destruct (scan filePath pre initialState); simpl; [|discriminate].
    now intros [= <-].
Qed.

Lemma suffix_first_marker_wins_witness :
  collectLines examplePath twoSuffixFile
  = Ok (Config true (lit "_v9") ∅) /\
  suffix (Config true (lit "_v9") ∅) = lit "_v9".
Proof.
  assert (collectLines examplePath twoSuffixFile
          = Ok (Config true (lit "_v9") ∅)) as H by (vm_compute; reflexivity).
  split; [exact H|].
  apply (proj1 (suffix_first_marker_wins examplePath
                  (take 2 twoSuffixFile) (drop 3 twoSuffixFile)
                  (lit "// [SNIPPETS_SUFFIX _v9]")
                  (MatchResult 3 (lit "[SNIPPETS_SUFFIX _v9]") [lit "_v9"])
                  (Config true (lit "_v9") ∅)
                  ltac:(repeat constructor))).
  - reflexivity.
  - exact H.
  - reflexivity.
Defined.

Lemma suffixChar_cases (c : code) :
  suffixChar c = true ->
  65 <= c <= 90 \/ 97 <= c <= 122 \/ 48 <= c <= 57 \/ c = 95.
Proof.
  unfold suffixChar, isUpper, isLower, isDigit.
  rewrite !orb_true_iff, !andb_true_iff, !N.leb_le, N.eqb_eq. tauto.
Qed.

Lemma suffixChars_noDollar (s : jsstring) :
  forallb suffixChar s = true -> noDollar s = true.
Proof.
  unfold noDollar. rewrite !forallb_forall. intros H c Hc.
  specialize (H c Hc). apply suffixChar_cases in H.
  apply negb_true_iff, N.eqb_neq. lia.
Qed.

Lemma readSuffix_chars (lines : list jsstring) (sfx : jsstring) :
  readSuffix lines = Ok sfx ->
  sfx <> [] /\ forallb suffixChar sfx = true.
Proof.
  unfold readSuffix.
  destruct (List.find _ lines) as [[|c l]|];
    try (intros [= <-]; split; [discriminate | reflexivity]).
  destruct (exec RE_SNIPPETS_SUFFIX (c :: l)) as [m|] eqn:E; [|discriminate].
  intros [= <-]. apply exec_sound in E as [Hd _]. simpl in Hd.
  destruct Hd as (w1 & w2 & g1 & g2 & _ & Hg & [_ ->] & Hd).
  destruct Hd as (w3 & w4 & g3 & g4 & _ & -> & (_ & _ & ->) & Hd).
  destruct Hd as (w5 & w6 & g5 & g6 & _ & -> & (g' & (Hs & Hne & ->) & ->) & Hd).
  destruct Hd as [_ ->]. unfold group. rewrite Hg. simpl. auto.
Qed.

(** X6. The suffix [collectSnippets] returns is never empty and is made of
    letters, digits and [_] only; in particular it has no [$], so the
    replacement templates of [addSuffixToSnippetNames] copy it as it
    is. *)
Theorem suffix_is_identifier (filePath : jsstring) (lines : list jsstring)
    (config : SnippetsConfig) :
  collectLines filePath lines = Ok config ->
  suffix config <> [] /\
  forallb suffixChar (suffix config) = true /\
  noDollar (suffix config) = true.
Proof.
  unfold collectLines. destruct (negb _).
  - intros [= <-]. repeat split. discriminate.
  - destruct (readSuffix lines) as [sfx|e] eqn:E; simpl; [|discriminate].
    destruct (scan filePath lines initialState); simpl; [|discriminate].
    intros [= <-]. simpl. apply readSuffix_chars in E as [Hne Hs].
    repeat split; auto. now apply suffixChars_noDollar.
Qed.

Lemma suffix_is_identifier_witness :
  lit "_v9" <> [] /\
  forallb suffixChar (lit "_v9") = true /\
  noDollar (lit "_v9") = true.
Proof.
  apply (suffix_is_identifier examplePath twoSuffixFile
           (Config true (lit "_v9") ∅)).
  vm_compute. reflexivity.
Defined.

(* ===================================================================== *)
(** ** More on the line transforms *)
(* ===================================================================== *)

(** X7. [isBlank] holds of the lines made of white space only (the empty
    line among them): [trim] leaves nothing exactly when every character
    is white space. *)
Theorem isBlank_iff_whitespace (line : jsstring) :
  isBlank line = true <-> forall c, In c line -> isWhiteSpace c = true.
Proof. now rewrite isBlank_forallb, forallb_forall. Qed.

Lemma matches_require (line : jsstring) :
  matches RE_REQUIRE line = true <-> hasRequire line.
Proof.
  rewrite matches_iff_denotes. unfold hasRequire. split.
  - intros (pre & w & post & g & -> & Hd). simpl in Hd.
    destruct Hd as (w1 & w2 & g1 & g2 & -> & _ & [-> _] & Hd).
    destruct Hd as (w3 & w4 & g3 & g4 & -> & _ & (g' & (Hn & Hne & _) & _) & Hd).
    destruct Hd as (w5 & w6 & g5 & g6 & -> & _ & [-> _] & Hd).
    destruct Hd as (w7 & w8 & g7 & g8 & -> & _ & (g'' & (Hs & Hnes & _) & _) & Hd).
    destruct Hd as [-> _].
    exists pre, w3, w7, post. rewrite <- !app_assoc. auto 6.
  - intros (pre & names & source & post & -> & Hne & Hn & Hnes & Hs).
    exists pre, (lit "const {" ++ names ++ lit "} = require(" ++ source
                   ++ lit ")"), post, [names; source].
    split; [reflexivity|]. simpl.
    exists (lit "const {"), (names ++ lit "} = require(" ++ source ++ lit ")"),
      [], [names; source].
    split; [reflexivity|]. split; [reflexivity|]. split; [now split|].
    exists names, (lit "} = require(" ++ source ++ lit ")"), [names], [source].
    split; [reflexivity|]. split; [reflexivity|]. split.
    { exists []. split; [now repeat split | reflexivity]. }
    exists (lit "} = require("), (source ++ lit ")"), [], [source].
    split; [reflexivity|]. split; [reflexivity|]. split; [now split|].
    exists source, (lit ")"), [source], [].
    split; [reflexivity|]. split; [reflexivity|]. split; [|now split].
    exists []. split; [now repeat split | reflexivity].
Qed.

Lemma addSuffixToSnippetNames_end (line snippetSuffix : jsstring)
    (m : matchResult) :
  exec RE_START_SNIPPET line = None ->
  exec RE_END_SNIPPET line = Some m ->
  noDollar snippetSuffix = true ->
  exists pre post,
    line = pre ++ matched m ++ post /\
    addSuffixToSnippetNames [line] snippetSuffix
    = [pre ++ (lit "[END " ++ group 1 m ++ snippetSuffix ++ lit "]") ++ post].
Proof.
  intros Hs Hm Hsfx. unfold addSuffixToSnippetNames. cbn [List.map].
  rewrite (matches_None _ _ Hs), (matches_Some _ _ _ Hm).
  destruct (replace_sound _ (lit "[END $1" ++ snippetSuffix ++ lit "]")
              _ _ Hm) as (pre & post & Hline & ->).
  exists pre, post. split; [exact Hline|].
  change (lit "[END $1" ++ snippetSuffix ++ lit "]")
    with (lit "[END " ++ 36 :: 49 :: snippetSuffix ++ lit "]").
  rewrite getSubstitution_tag; auto.
  now rewrite (exec_ngroups _ _ _ Hm).
Qed.

(** X10. A suffix of letters and [_] renames the region of a tag: a line
    whose first opening bracket opens [[START name]] comes out of
    [addSuffixToSnippetNames] as a Start line of [name ++ suffix], and
    the text around the tag is kept. *)
Theorem suffixed_start_tag_is_a_tag
    (pre ws1 name ws2 post snippetSuffix : jsstring) :
  noBracket pre -> wellFormedTag ws1 name ws2 ->
  forallb nameChar snippetSuffix = true ->
  addSuffixToSnippetNames
    [pre ++ tagText (lit "[START") ws1 name ws2 ++ post] snippetSuffix
  = [pre ++ lit "[START " ++ (name ++ snippetSuffix) ++ lit "]" ++ post] /\
  classify (pre ++ lit "[START " ++ (name ++ snippetSuffix) ++ lit "]" ++ post)
  = Start (name ++ snippetSuffix).
Proof.
  intros Hpre Htag Hsfx. split.
  - pose proof (exec_tag (lit "[START") (lit "START") pre ws1 name ws2 post
                  eq_refl Hpre Htag) as Hm.
    change (tagRegex (lit "[START")) with RE_START_SNIPPET in Hm.
    unfold addSuffixToSnippetNames. cbn [List.map].
    rewrite (matches_Some _ _ _ Hm). unfold replace. rewrite Hm.
    cbn [index matched].
    change (lit "[START $1" ++ snippetSuffix ++ lit "]")
      with (lit "[START " ++ 36 :: 49 :: snippetSuffix ++ lit "]").
    rewrite getSubstitution_tag; [|reflexivity|reflexivity|].
    + rewrite take_app_length, drop_app_add, drop_app_length.
      unfold group. cbn [groups nth Nat.sub]. now rewrite <- !app_assoc.
    + unfold noDollar. rewrite forallb_forall in *. intros c Hc.
      specialize (Hsfx c Hc). apply nameChar_cases in Hsfx.
      apply negb_true_iff, N.eqb_neq. lia.
  - destruct Htag as (_ & _ & Hne & Hn & _).
    pose proof (exec_tag (lit "[START") (lit "START") pre (lit " ")
                  (name ++ snippetSuffix) (lit "") post eq_refl Hpre) as Hm.
    change (tagRegex (lit "[START")) with RE_START_SNIPPET in Hm.
    assert (lit "[START " ++ (name ++ snippetSuffix) ++ lit "]" ++ post
            = tagText (lit "[START") (lit " ") (name ++ snippetSuffix) (lit "")
                ++ post) as ->
      by (unfold tagText; simpl; now rewrite <- !app_assoc).
    unfold classify. rewrite Hm; [reflexivity|].
    repeat split; try discriminate.
    + now destruct name.
    + now rewrite forallb_app, Hn, Hsfx.
Qed.

Lemma suffixed_start_tag_is_a_tag_witness :
  addSuffixToSnippetNames [lit "// [START  sign_in ]"] (lit "_modular")
  = [lit "// [START sign_in_modular]"] /\
  classify (lit "// [START sign_in_modular]") = Start (lit "sign_in_modular").
Proof.
  apply (suffixed_start_tag_is_a_tag (lit "// ") (lit "  ") (lit "sign_in")
           (lit " ") (lit "") (lit "_modular")).
  - reflexivity.
  - repeat split; (discriminate || reflexivity).
  - reflexivity.
Defined.

(** *** Indentation, again *)

Lemma take_leadingWhitespace (l : jsstring) :
  forall m, (m <= leadingWhitespace l)%nat ->
            forallb isWhiteSpace (take m l) = true.
Proof.
  induction l as [|c l IH]; intros [|m] Hm; simpl in *; try reflexivity.
  destruct (isWhiteSpace c); [|lia]. simpl. apply IH. lia.
Qed.

Lemma isBlank_drop (l : jsstring) (m : nat) :
  (m <= leadingWhitespace l)%nat -> isBlank (drop m l) = isBlank l.
Proof.
  intros Hm. rewrite !isBlank_forallb.
  rewrite <- (take_drop m l) at 2.
  now rewrite forallb_app, take_leadingWhitespace.
Qed.

Lemma adjustIndentation_nonblank (lines : list jsstring) (l0 : jsstring) :
  In l0 lines -> isBlank l0 = false ->
  exists m,
    mathMin (nonBlankIndents lines) = Fin m /\
    (exists l, In l lines /\ isBlank l = false /\ leadingWhitespace l = m) /\
    (forall l, In l lines -> isBlank l = false ->
               (m <= leadingWhitespace l)%nat).
Proof.
  intros Hin Hb.
  destruct (mathMin_nonempty (nonBlankIndents lines)) as (m & Hmin & Hm & Hle).
  { intros E.
    assert (In (leadingWhitespace l0) (nonBlankIndents lines)) as H
      by (apply in_nonBlankIndents; eauto).
    rewrite E in H. destruct H. }
  exists m. split; [exact Hmin|]. split; [now apply in_nonBlankIndents|].
  intros l Hl Hlb. apply Hle, in_nonBlankIndents. eauto.
Qed.

(** Every blank line of the result is empty, whatever the input. *)
Lemma adjustIndentation_blank_empty (lines : list jsstring) :
  Forall (fun l => isBlank l = true -> l = [])
         (adjustIndentation lines) /\
  forall l, In l lines -> isBlank l = false ->
    exists m, mathMin (nonBlankIndents lines) = Fin m /\
              (m <= leadingWhitespace l)%nat /\
              isBlank (drop m l) = false.
Proof.
  assert (forall l, In l lines -> isBlank l = false ->
            exists m, mathMin (nonBlankIndents lines) = Fin m /\
                      (m <= leadingWhitespace l)%nat /\
                      isBlank (drop m l) = false) as H.
  { intros l Hin Hb.
    destruct (adjustIndentation_nonblank lines l Hin Hb) as (m & Hm & _ & Hle).
    exists m. split; [exact Hm|]. split; [now apply Hle|].
    rewrite isBlank_drop; auto. }
  split; [|exact H].
  unfold adjustIndentation. fold (nonBlankIndents lines).
  apply List.Forall_forall. intros x Hx.
  apply in_map_iff in Hx as (l & <- & Hin).
  destruct (isBlank l) eqn:Hb; [reflexivity|].
  destruct (H l Hin Hb) as (m & -> & _ & Hdrop). simpl. congruence.
Qed.

(** X11. [adjustIndentation] is idempotent: running it on its own result
    changes nothing, since the result has a line at column zero (or no
    line that is not blank) and its blank lines are empty. *)
Theorem adjustIndentation_idempotent (lines : list jsstring) :
  adjustIndentation (adjustIndentation lines) = adjustIndentation lines.
Proof.
  set (out := adjustIndentation lines).
  assert (forall x, In x out -> isBlank x = false ->
            exists l, In l lines /\ isBlank l = false /\
              exists m, mathMin (nonBlankIndents lines) = Fin m /\
                        x = drop m l /\ (m <= leadingWhitespace l)%nat)
    as Hout.
  { intros x Hx Hxb. unfold out, adjustIndentation in Hx.
    fold (nonBlankIndents lines) in Hx.
    apply in_map_iff in Hx as (l & Hl & Hin).
    destruct (isBlank l) eqn:Hb; [subst x; discriminate|].
    destruct (adjustIndentation_nonblank lines l Hin Hb) as (m & Hm & _ & Hle).
    rewrite Hm in Hl. exists l. split; [exact Hin|]. split; [exact Hb|].
    exists m. auto. }
  unfold adjustIndentation at 1. fold (nonBlankIndents out).
  rewrite <- (map_id out) at 2. apply map_ext_in. intros x Hx.
  destruct (isBlank x) eqn:Hxb.
  - destruct (adjustIndentation_blank_empty lines) as [Hall _].
    rewrite List.Forall_forall in Hall. symmetry. now apply Hall.
  - destruct (Hout x Hx Hxb) as (l & Hin & Hb & m & Hm & -> & Hle).
    destruct (adjustIndentation_nonblank lines l Hin Hb)
      as (m' & Hm' & (l1 & Hin1 & Hb1 & Hl1) & Hle').
    assert (m' = m) as -> by congruence.
    assert (In (drop m l1) out) as Hx1.
    { unfold out, adjustIndentation. fold (nonBlankIndents lines).
      apply in_map_iff. exists l1. rewrite Hb1, Hm. auto. }
    assert (isBlank (drop m l1) = false) as Hb1'
      by (rewrite isBlank_drop; [exact Hb1 | lia]).
    destruct (adjustIndentation_nonblank out _ Hx1 Hb1')
      as (k & -> & _ & Hk).
    specialize (Hk _ Hx1 Hb1').
    rewrite <- indentSize_leadingWhitespace in Hk.
    rewrite indentSize_drop in Hk
      by (rewrite indentSize_leadingWhitespace; lia).
    rewrite indentSize_leadingWhitespace in Hk.
    assert (k = 0%nat) as -> by lia. reflexivity.
Qed.

(** *** The first line after the comments *)

Lemma findIndex_first {A} (p : A -> bool) (pre : list A) (x : A)
    (rest : list A) :
  Forall (fun y => p y = false) pre -> p x = true ->
  findIndex p (pre ++ x :: rest) = Some (length pre).
Proof.
  induction 1 as [|y pre Hy _ IH]; intros Hx; simpl.
  - now rewrite Hx.
  - rewrite Hy, IH by exact Hx. reflexivity.
Qed.

Lemma findIndex_none {A} (p : A -> bool) (l : list A) :
  Forall (fun y => p y = false) l -> findIndex p l = None.
Proof.
  induction 1 as [|y l Hy _ IH]; simpl; [reflexivity|]. now rewrite Hy, IH.
Qed.

(** X12. [removeFirstLineAfterComments] looks at one line only, the first
    that does not start with [//]: when that line is blank it is removed,
    once, and every other line (a second blank line after it too) stays;
    when it is not blank, or when every line is a comment, the region
    comes back unchanged. *)
Theorem first_line_after_comments (comments rest : list jsstring)
    (line : jsstring) :
  Forall (fun l => startsWith (lit "//") l = true) comments ->
  startsWith (lit "//") line = false ->
  removeFirstLineAfterComments (comments ++ line :: rest)
    = (if isBlank line then comments ++ rest else comments ++ line :: rest) /\
  removeFirstLineAfterComments comments = comments.
Proof.
  intros Hc Hl.
  assert (Forall (fun y => negb (startsWith (lit "//") y) = false) comments)
    as Hc'.
  { eapply Forall_impl; [exact Hc|]. intros l ->. reflexivity. }
  unfold removeFirstLineAfterComments. split.
  - rewrite (findIndex_first _ _ _ _ Hc') by now rewrite Hl.
    rewrite list_lookup_middle by reflexivity.
    destruct (isBlank line); [|reflexivity]. apply delete_middle.
  - now rewrite (findIndex_none _ _ Hc').
Qed.

Lemma first_line_after_comments_witness :
  removeFirstLineAfterComments gappedRegion
  = [lit "// [START x]"; lit "// note"; lit ""; lit "f();"; lit "// [END x]"]
  /\ removeFirstLineAfterComments (take 2 gappedRegion) = take 2 gappedRegion.
Proof.
  apply (first_line_after_comments (take 2 gappedRegion) (drop 3 gappedRegion)
           (lit " ")).
  - repeat constructor.
  - reflexivity.
Defined.

(** X13. In the body [processSnippet] emits every blank line is empty: no
    line of white space survives the pipeline; and the body has as many
    lines as the region, or one less. *)
Theorem transformed_blank_lines_are_empty (lines : list jsstring)
    (snippetSuffix : jsstring) :
  Forall (fun l => isBlank l = true -> l = [])
         (transformLines lines snippetSuffix) /\
  (length (transformLines lines snippetSuffix) = length lines \/
   S (length (transformLines lines snippetSuffix)) = length lines).
Proof.
  unfold transformLines.
  set (adjusted := adjustIndentation _).
  assert (Forall (fun l => isBlank l = true -> l = []) adjusted) as Hadj
    by apply adjustIndentation_blank_empty.
  assert (length adjusted = length lines) as Hlen.
  { unfold adjusted, adjustIndentation, addSuffixToSnippetNames,
      replaceRequireWithImport. now rewrite !length_map. }
  split.
  - unfold removeFirstLineAfterComments.
    destruct (findIndex _ adjusted) as [i|]; [|exact Hadj].
    destruct (adjusted !! i) as [l|]; [|exact Hadj].
    destruct (isBlank l); [|exact Hadj]. now apply Forall_delete.
  - rewrite <- Hlen. apply removeFirstLineAfterComments_length.
Qed.

(* ===================================================================== *)
(** ** Splitting into lines *)
(* ===================================================================== *)

Section Split.
Variable sep : code.

Lemma split_not_nil (s : jsstring) : split sep s <> [].
Proof.
  destruct s as [|c s]; simpl; [discriminate|].
  destruct (c =? sep); [discriminate|]. now destruct (split sep s).
Qed.

Lemma split_app_any (a b : jsstring) :
  split sep (a ++ sep :: b) = split sep a ++ split sep b.
Proof.
  induction a as [|c a IH]; simpl.
  - now rewrite N.eqb_refl.
  - destruct (c =? sep); [now rewrite IH|]. rewrite IH.
    pose proof (split_not_nil a). now destruct (split sep a).
Qed.

Lemma split_no_sep (w : jsstring) : noSep sep w -> split sep w = [w].
Proof.
  unfold noSep. induction w as [|c w IH]; simpl; [reflexivity|].
  intros H. apply andb_true_iff in H as [Hc Hw].
  apply negb_true_iff in Hc. rewrite Hc. now rewrite IH.
Qed.

Lemma split_join_sep (segs : list jsstring) :
  segs <> [] -> Forall (noSep sep) segs ->
  split sep (join [sep] segs) = segs.
Proof.
  induction segs as [|w segs IH]; [congruence|]. intros _ Hall.
  apply Forall_cons in Hall as [Hw Hall].
  destruct segs as [|w' segs]; [now apply split_no_sep|].
  rewrite join_cons2. cbn [app].
  rewrite split_app_any, split_no_sep by exact Hw.
  cbn [app]. f_equal. now apply IH.
Qed.

(** The pieces of a split do not contain the separator. *)
Lemma split_pieces (s : jsstring) : Forall (noSep sep) (split sep s).
Proof.
  induction s as [|c s IH]; simpl; [repeat constructor|].
  destruct (c =? sep) eqn:E; [constructor; [reflexivity | exact IH]|].
  destruct (split sep s) as [|w ws]; [repeat constructor; unfold noSep; simpl;
                                      now rewrite E|].
  apply Forall_cons in IH as [Hw Hws]. constructor; [|exact Hws].
  unfold noSep in *. simpl. now rewrite E, Hw.
Qed.
End Split.

(* ===================================================================== *)
(** ** The files to scan *)
(* ===================================================================== *)

Lemma split_findOutput (paths : list jsstring) :
  Forall noNewline paths -> split 10 (findOutput paths) = paths ++ [[]].
Proof.
  induction 1 as [|p paths Hp _ IH]; [reflexivity|].
  unfold findOutput in *. cbn [List.map concat]. rewrite <- app_assoc.
  cbn [app]. rewrite split_app_any, IH.
  now rewrite (split_no_sep 10 p Hp).
Qed.

(** X14. [listSnippetFiles] reads back what [find] printed: from an output
    of one path per line, each followed by a newline, it returns those
    paths in that order (the empty piece after the last newline is
    dropped); and whatever the output, no path it returns is blank or
    contains a newline. *)
Theorem listSnippetFiles_reads_find_output (paths : list jsstring)
    (output : jsstring) :
  (Forall (fun p => noNewline p /\ isBlank p = false) paths ->
   listSnippetFiles (findOutput paths) = paths) /\
  Forall (fun p => noNewline p /\ isBlank p = false)
         (listSnippetFiles output).
Proof.
  split.
  - intros H. unfold listSnippetFiles.
    rewrite split_findOutput
      by (eapply Forall_impl; [exact H | now intros p [Hp _]]).
    rewrite List.filter_app. cbn [List.filter]. change (isBlank []) with true.
    cbn [negb]. rewrite app_nil_r.
    induction H as [|p paths [_ Hp] _ IH]; [reflexivity|].
    cbn [List.filter]. rewrite Hp. cbn [negb]. now rewrite IH.
  - unfold listSnippetFiles. apply List.Forall_forall. intros p Hp.
    apply filter_In in Hp as [Hin Hb]. apply negb_true_iff in Hb.
    split; [|exact Hb].
    pose proof (split_pieces 10 output) as Hall.
    rewrite List.Forall_forall in Hall. exact (Hall p Hin).
Qed.

Lemma listSnippetFiles_reads_find_output_witness :
  listSnippetFiles (lit "./auth/email.js" ++ [10] ++ lit "./index.js" ++ [10])
  = [lit "./auth/email.js"; lit "./index.js"].
Proof.
  apply (proj1 (listSnippetFiles_reads_find_output
                  [lit "./auth/email.js"; lit "./index.js"] [])).
  repeat constructor.
Defined.

(* ===================================================================== *)
(** ** The emitted content, line by line *)
(* ===================================================================== *)

Lemma noNewline_app (a b : jsstring) :
  noNewline (a ++ b) <-> noNewline a /\ noNewline b.
Proof. unfold noNewline. now rewrite forallb_app, andb_true_iff. Qed.

Lemma noNewline_drop (n : nat) (l : jsstring) :
  noNewline l -> noNewline (drop n l).
Proof.
  intros H. rewrite <- (take_drop n l) in H. now apply noNewline_app in H.
Qed.

Lemma suffixChars_noNewline (s : jsstring) :
  forallb suffixChar s = true -> noNewline s.
Proof.
  unfold noNewline. rewrite !forallb_forall. intros H c Hc.
  specialize (H c Hc). apply suffixChar_cases in H.
  apply negb_true_iff, N.eqb_neq. lia.
Qed.

Lemma replaceRequireWithImport_noNewline (lines : list jsstring) :
  Forall noNewline lines -> Forall noNewline (replaceRequireWithImport lines).
Proof.
  induction 1 as [|line lines Hl _ IH]; [constructor|].
  change (replaceRequireWithImport (line :: lines))
    with (replaceRequireWithImport [line] ++ replaceRequireWithImport lines).
  apply Forall_app. split; [|exact IH].
  destruct (exec RE_REQUIRE line) as [m|] eqn:E.
  - destruct (replaceRequireWithImport_shape line m E)
      as (pre & post & names & source & Hline & ->).
    rewrite Hline in Hl. constructor; [|constructor].
    repeat (apply noNewline_app in Hl as [? Hl]
            || match goal with H : noNewline (_ ++ _) |- _ =>
                 apply noNewline_app in H as [? ?] end).
    repeat (apply noNewline_app; split); auto; reflexivity.
  - unfold replaceRequireWithImport. cbn [List.map].
    rewrite (matches_None _ _ E). now constructor.
Qed.

Lemma addSuffixToSnippetNames_noNewline (lines : list jsstring)
    (snippetSuffix : jsstring) :
  noDollar snippetSuffix = true -> noNewline snippetSuffix ->
  Forall noNewline lines ->
  Forall noNewline (addSuffixToSnippetNames lines snippetSuffix).
Proof.
  intros Hd Hs. induction 1 as [|line lines Hl _ IH]; [constructor|].
  change (addSuffixToSnippetNames (line :: lines) snippetSuffix)
    with (addSuffixToSnippetNames [line] snippetSuffix
            ++ addSuffixToSnippetNames lines snippetSuffix).
  apply Forall_app. split; [|exact IH].
  assert (forall keyword m pre post,
            line = pre ++ matched m ++ post ->
            (exists name ws1 ws2,
               groups m = [name] /\
               matched m = keyword ++ ws1 ++ name ++ ws2 ++ lit "]") ->
            noNewline (pre ++ (keyword ++ lit " " ++ group 1 m
                                 ++ snippetSuffix ++ lit "]") ++ post))
    as Hout.
  { intros keyword m pre post Hline (name & ws1 & ws2 & Hg & Hw).
    rewrite Hline, Hw in Hl. unfold group. rewrite Hg. cbn [nth Nat.sub].
    repeat match goal with H : noNewline (_ ++ _) |- _ =>
             apply noNewline_app in H as [? ?] end.
    repeat (apply noNewline_app; split); auto; reflexivity. }
  destruct (exec RE_START_SNIPPET line) as [m|] eqn:E.
  - destruct (addSuffixToSnippetNames_start _ _ _ E Hd)
      as (pre & post & Hline & ->).
    destruct (tag_shape (lit "[START") _ _ E)
      as (name & ws1 & ws2 & Hg & Hw & _).
    constructor; [|constructor].
    apply (Hout (lit "[START") m pre post Hline). eauto.
  - destruct (exec RE_END_SNIPPET line) as [m|] eqn:E'.
    + destruct (addSuffixToSnippetNames_end _ _ _ E E' Hd)
        as (pre & post & Hline & ->).
      destruct (tag_shape (lit "[END") _ _ E')
        as (name & ws1 & ws2 & Hg & Hw & _).
      constructor; [|constructor].
      apply (Hout (lit "[END") m pre post Hline). eauto.
    + unfold addSuffixToSnippetNames. cbn [List.map].
      rewrite (matches_None _ _ E), (matches_None _ _ E'). now constructor.
Qed.

Lemma adjustIndentation_noNewline (lines : list jsstring) :
  Forall noNewline lines -> Forall noNewline (adjustIndentation lines).
Proof.
  intros H. unfold adjustIndentation. apply Forall_map.
  eapply Forall_impl; [exact H|]. intros l Hl. cbv beta.
  destruct (isBlank l); [reflexivity|].
  destruct (mathMin _); [now apply noNewline_drop | reflexivity].
Qed.

Lemma removeFirstLineAfterComments_noNewline (lines : list jsstring) :
  Forall noNewline lines ->
  Forall noNewline (removeFirstLineAfterComments lines).
Proof.
  intros H. unfold removeFirstLineAfterComments.
  destruct (findIndex _ lines) as [i|]; [|exact H].
  destruct (lines !! i) as [l|]; [|exact H].
  destruct (isBlank l); [|exact H]. now apply Forall_delete.
Qed.

(** X15. The content [processSnippet] returns, split on newlines again, is
    the six lines of the header (the five comment lines, the second naming
    the source file, and an empty line) followed by the lines of the
    transformed region, none merged and none cut, for a region of lines
    and a suffix of letters, digits and [_]. *)
Theorem processSnippet_lines (lines : list jsstring)
    (sourceFile snippetSuffix : jsstring) :
  Forall noNewline lines -> noNewline sourceFile ->
  forallb suffixChar snippetSuffix = true ->
  split 10 (processSnippet lines sourceFile snippetSuffix)
  = preambleLines sourceFile ++ transformLines lines snippetSuffix.
Proof.
  intros Hl Hsrc Hsfx. unfold processSnippet.
  apply split_join_sep; [discriminate|].
  apply Forall_app. split.
  - unfold preambleLines.
    repeat (constructor; [try reflexivity|]); [|constructor].
    apply noNewline_app. split; [reflexivity | exact Hsrc].
  - unfold transformLines.
    apply removeFirstLineAfterComments_noNewline, adjustIndentation_noNewline.
    apply addSuffixToSnippetNames_noNewline;
      [now apply suffixChars_noDollar | now apply suffixChars_noNewline |].
    now apply replaceRequireWithImport_noNewline.
Qed.

Lemma processSnippet_lines_witness :
  split 10 (processSnippet demoRegionIndented examplePath (lit "_doc"))
  = preambleLines examplePath
      ++ [lit "// [START demo_doc]"; lit "import {x} from 'y'";
          lit "// [END demo_doc]"].
Proof.
  rewrite (processSnippet_lines demoRegionIndented examplePath (lit "_doc")).
  - reflexivity.
  - repeat constructor.
  - reflexivity.
  - reflexivity.
Defined.

(* ===================================================================== *)
(** ** What the collector returns *)
(* ===================================================================== *)

Lemma collectLines_Ok_enabled (filePath : jsstring) (lines : list jsstring)
    (config : SnippetsConfig) :
  collectLines filePath lines = Ok config -> enabled config = true ->
  exists st,
    scan filePath lines initialState = Ok st /\ snippets config = map st.
Proof.
  unfold collectLines. destruct (negb _); [intros [= <-]; discriminate|].
  destruct (readSuffix lines); simpl; [|discriminate].
  destruct (scan filePath lines initialState) as [st|]; simpl; [|discriminate].
  intros [= <-] _. eauto.
Qed.

Lemma not_elem_of_names (name : jsstring) (names : list jsstring) :
  bool_decide (name ∈ names) = false -> name ∉ names.
Proof. intros H. now apply bool_decide_eq_false in H. Qed.

Lemma startNames_snoc (lines : list jsstring) (line : jsstring) :
  startNames (lines ++ [line])
  = startNames lines ++ match classify line with
                        | Start name => [name]
                        | _ => []
                        end.
Proof.
  unfold startNames. rewrite omap_app. f_equal. simpl.
  now destruct (classify line).
Qed.

Lemma startNames_app (l1 l2 : list jsstring) :
  startNames (l1 ++ l2) = startNames l1 ++ startNames l2.
Proof. apply omap_app. Qed.

Lemma startNames_cons_start (line name : jsstring) (lines : list jsstring) :
  classify line = Start name ->
  startNames (line :: lines) = name :: startNames lines.
Proof. intros H. unfold startNames. simpl. now rewrite H. Qed.

Lemma classify_start_name (line name : jsstring) :
  classify line = Start name -> name <> [] /\ forallb nameChar name = true.
Proof.
  unfold classify. destruct (exec RE_START_SNIPPET line) as [m|] eqn:E.
  - intros [= <-].
    destruct (tag_shape (lit "[START") _ _ E)
      as (name & ws1 & ws2 & Hg & _ & Hn & Hne & _).
    unfold group. rewrite Hg. simpl. auto.
  - destruct (exec RE_END_SNIPPET line); discriminate.
Qed.

Lemma isDefined_false_prototype (m : gmap jsstring (list jsstring))
    (name : jsstring) :
  isDefined m name = false -> name ∉ objectPrototype.
Proof.
  unfold isDefined. destruct (m !! name); [discriminate|].
  now intros H%bool_decide_eq_false.
Qed.

(** The keys of the map are the names of the Start lines seen so far. *)
Lemma scan_keys (filePath : jsstring) (lines : list jsstring) :
  forall st,
    scan filePath lines initialState = Ok st ->
    NoDup (startNames lines) /\
    (forall name, is_Some (map st !! name) <-> name ∈ startNames lines) /\
    (forall name, name ∈ startNames lines -> name ∉ objectPrototype).
Proof.
  induction lines as [|l lines IH] using rev_ind; intros st.
  - intros [= <-]. split; [apply NoDup_nil_2|]. split.
    + intros name. simpl. rewrite lookup_empty, elem_of_nil.
      split; [intros [x Hx]; discriminate | tauto].
    + intros name H. now apply elem_of_nil in H.
  - rewrite scan_snoc.
    destruct (scan filePath lines initialState) as [st0|] eqn:E0;
      [simpl | discriminate].
    destruct (IH st0 eq_refl) as (Hnd & Hkeys & Hproto).
    destruct (scan_wellFormed _ _ _ _ wellFormed_initial E0) as [Hndo Hopen].
    rewrite scanLine_classify, startNames_snoc.
    destruct (classify l) as [n|n|] eqn:Hc.
    + destruct (isDefined (map st0) n) eqn:Hdef; [discriminate|].
      intros [= <-]. simpl.
      assert (n ∉ startNames lines) as Hfresh.
      { intros H. apply Hkeys in H as [ls Hls].
        apply isDefined_false in Hdef. congruence. }
      split; [|split].
      * apply NoDup_app. split; [exact Hnd|]. split; [|apply NoDup_singleton].
        intros x Hx Hx'. apply list_elem_of_singleton in Hx'. congruence.
      * intros name. rewrite lookup_insert_is_Some, elem_of_app,
          list_elem_of_singleton, <- Hkeys.
        destruct (decide (n = name)); intuition congruence.
      * intros name Hin. apply elem_of_app in Hin as [Hin|Hin]; [auto|].
        apply list_elem_of_singleton in Hin as ->.
        now apply isDefined_false_prototype in Hdef.
    + rewrite app_nil_r.
      destruct (decide (n ∈ inSnippetNames st0)) as [Hn|Hn].
      * rewrite bool_decide_eq_true_2 by exact Hn.
        destruct (Hopen _ Hn) as [ls Hls]. unfold push. rewrite Hls. simpl.
        intros [= <-]. simpl. split; [exact Hnd|]. split; [|exact Hproto].
        intros name. rewrite <- Hkeys, lookup_insert_is_Some.
        destruct (decide (n = name)) as [<-|]; [|intuition congruence].
        rewrite Hls. intuition eauto.
      * now rewrite bool_decide_eq_false_2 by exact Hn.
    + rewrite app_nil_r.
      destruct (pushAll_lookup l _ (map st0) Hndo Hopen) as (m' & -> & Hlook).
      simpl. intros [= <-]. simpl. split; [exact Hnd|]. split; [|exact Hproto].
      intros name. rewrite <- Hkeys, Hlook.
      destruct (bool_decide _); [|reflexivity]. apply fmap_is_Some.
Qed.

(** X16. The regions [collectSnippets] returns for an enabled file are
    exactly the names of the Start lines of the file, and on success no
    two Start lines have the same name. Every such name is a non-empty
    word of letters and [_], and none is the name of a property of
    [Object.prototype]. *)
Theorem regions_are_the_start_names (filePath : jsstring)
    (lines : list jsstring) (config : SnippetsConfig) :
  collectLines filePath lines = Ok config -> enabled config = true ->
  NoDup (startNames lines) /\
  (forall name,
     is_Some (snippets config !! name) <-> name ∈ startNames lines) /\
  (forall name, name ∈ startNames lines ->
     name <> [] /\ forallb nameChar name = true /\
     (name ∉ objectPrototype)).
Proof.
  intros Hc Hen.
  destruct (collectLines_Ok_enabled _ _ _ Hc Hen) as (st & Hscan & ->).
  destruct (scan_keys _ _ _ Hscan) as (Hnd & Hkeys & Hproto).
  split; [exact Hnd|]. split; [exact Hkeys|].
  intros name Hin. specialize (Hproto name Hin).
  unfold startNames in Hin. apply list_elem_of_omap in Hin as (l & _ & Hl).
  destruct (classify l) as [n| |] eqn:E; try discriminate.
  injection Hl as ->. destruct (classify_start_name _ _ E). auto.
Qed.

Lemma regions_are_the_start_names_witness :
  NoDup (startNames danglingFile) /\
  (forall name,
     is_Some (snippets danglingConfig !! name)
     <-> name ∈ startNames danglingFile) /\
  (forall name, name ∈ startNames danglingFile ->
     name <> [] /\ forallb nameChar name = true /\
     (name ∉ objectPrototype)).
Proof.
  apply (regions_are_the_start_names examplePath danglingFile danglingConfig).
  - vm_compute. reflexivity.
  - reflexivity.
Defined.

(** X17. A file with two Start lines of one name is never collected,
    wherever they are and whether or not the first region was closed in
    between. *)
Theorem duplicate_start_is_fatal (filePath : jsstring)
    (l1 l2 l3 : list jsstring) (s1 s2 name : jsstring) :
  existsb (matches RE_SNIPPETS_SEPARATION) (l1 ++ s1 :: l2 ++ s2 :: l3)
    = true ->
  classify s1 = Start name -> classify s2 = Start name ->
  exists e, collectLines filePath (l1 ++ s1 :: l2 ++ s2 :: l3) = Throw e.
Proof.
  intros Hen H1 H2.
  destruct (collectLines_enabled filePath _ Hen) as (sfx & _ & ->).
  destruct (scan filePath _ initialState) as [st|e] eqn:E; [|simpl; eauto].
  exfalso. apply scan_keys in E as (Hnd & _).
  rewrite startNames_app, (startNames_cons_start _ _ _ H1),
    startNames_app, (startNames_cons_start _ _ _ H2) in Hnd.
  apply NoDup_app in Hnd as (_ & _ & Hnd).
  apply NoDup_cons in Hnd as [Hnot _]. apply Hnot.
  apply elem_of_app. right. now left.
Qed.

Lemma duplicate_start_is_fatal_witness :
  exists e,
    collectLines examplePath
      ([enablementLine] ++ lit "// [START a]"
         :: [lit "f();"; lit "// [END a]"] ++ lit "/* [START a] */" :: [])
    = Throw e.
Proof.
  apply (duplicate_start_is_fatal examplePath _ _ _ _ _ (lit "a"));
    reflexivity.
Defined.

(** X18. An End line is fatal unless a Start line of its name comes
    before it in the file. *)
Theorem end_without_start_is_fatal (filePath : jsstring)
    (pre rest : list jsstring) (line name : jsstring) :
  existsb (matches RE_SNIPPETS_SEPARATION) (pre ++ line :: rest) = true ->
  classify line = End name -> name ∉ startNames pre ->
  exists e, collectLines filePath (pre ++ line :: rest) = Throw e.
Proof.
  intros Hen Hc Hfresh.
  destruct (collectLines_enabled filePath _ Hen) as (sfx & _ & ->).
  rewrite scan_app.
  destruct (scan filePath pre initialState) as [st|e] eqn:E; [|simpl; eauto].
  cbn [bind]. rewrite scan_cons, scanLine_classify, Hc.
  rewrite bool_decide_eq_false_2; [simpl; eauto|].
  intros Hin. apply Hfresh.
  destruct (scan_openCaptured _ _ _ E name Hin) as (p & s & r & -> & Hs & _).
  rewrite startNames_app, (startNames_cons_start _ _ _ Hs).
  apply elem_of_app. right. now left.
Qed.

Lemma end_without_start_is_fatal_witness :
  exists e,
    collectLines examplePath
      ([enablementLine; lit "// [START a]"] ++ lit "// [END b]" :: [])
    = Throw e.
Proof.
  apply (end_without_start_is_fatal examplePath _ _ _ (lit "b")).
  - reflexivity.
  - reflexivity.
  - apply not_elem_of_names. reflexivity.
Defined.

(** *** The lines of a region *)

(** Inside one open region, plain lines are appended to it. *)
Lemma scan_plain_inside (filePath : jsstring) (body : list jsstring)
    (a : jsstring) :
  Forall (fun l => classify l = Plain) body ->
  forall (m : gmap jsstring (list jsstring)) (ls : list jsstring),
    m !! a = Some ls ->
    scan filePath body (ScanState m [a])
    = Ok (ScanState (<[a := ls ++ body]> m) [a]).
Proof.
  induction 1 as [|l body Hl _ IH]; intros m ls Hm.
  - rewrite scan_nil, app_nil_r. now rewrite insert_id.
  - rewrite scan_cons, (step_plain_one _ _ _ _ _ Hl Hm). cbn [bind].
    rewrite (IH _ (ls ++ [l])) by apply lookup_insert_eq.
    now rewrite insert_insert_eq, <- app_assoc.
Qed.

(** X20. For a well-formed file with one region (a Start line, plain
    lines, the End line of the same name, plain lines around, the name not
    one of [Object.prototype]) the collector returns that region alone,
    made of the lines from the Start line to the End line, both
    included. *)
Theorem single_region_collected (filePath : jsstring)
    (pre body post : list jsstring) (start stop name : jsstring) :
  existsb (matches RE_SNIPPETS_SEPARATION)
    (pre ++ start :: body ++ stop :: post) = true ->
  Forall (fun l => classify l = Plain) (pre ++ body ++ post) ->
  classify start = Start name -> classify stop = End name ->
  name ∉ objectPrototype ->
  exists snippetSuffix,
    collectLines filePath (pre ++ start :: body ++ stop :: post)
    = Ok (Config true snippetSuffix {[ name := start :: body ++ [stop] ]}).
Proof.
  intros Hen Hplain Hs He Hp.
  apply Forall_app in Hplain as [Hpre Hplain].
  apply Forall_app in Hplain as [Hbody Hpost].
  destruct (collectLines_enabled filePath _ Hen) as (sfx & _ & ->).
  exists sfx. unfold initialState.
  rewrite scan_app, (scan_plain_outside _ _ _ Hpre). cbn [bind].
  rewrite scan_cons, (step_start _ _ _ _ _ Hs (lookup_empty name) Hp).
  cbn [bind app].
  rewrite scan_app, (scan_plain_inside _ _ _ Hbody _ [start])
    by apply lookup_insert_eq.
  cbn [bind]. rewrite insert_insert_eq.
  rewrite scan_cons, (step_end _ _ _ _ _ ([start] ++ body) He);
    [| now left | apply lookup_insert_eq].
  cbn [bind].
  assert (spliceOut name [name] = []) as ->.
  { unfold spliceOut. cbn [arrayIndexOf]. now rewrite bool_decide_eq_true_2. }
  rewrite (scan_plain_outside _ _ _ Hpost). cbn [bind map].
  rewrite insert_insert_eq. reflexivity.
Qed.

Lemma single_region_collected_witness :
  exists snippetSuffix,
    collectLines examplePath oneRegionFile
    = Ok (Config true snippetSuffix
            {[ lit "run" := [lit "// [START run]"; lit "const a = 1;";
                             lit ""; lit "run(a);"; lit "// [END run]"] ]}).
Proof.
  apply (single_region_collected examplePath (take 2 oneRegionFile)
           [lit "const a = 1;"; lit ""; lit "run(a);"] [lit "teardown();"]
           (lit "// [START run]") (lit "// [END run]") (lit "run")).
  - reflexivity.
  - repeat constructor.
  - reflexivity.
  - reflexivity.
  - apply not_in_objectPrototype. reflexivity.
Defined.

(* ===================================================================== *)
(** ** Output paths, for every source path *)
(* ===================================================================== *)

Lemma split_pieces_forallb (sep : code) (P : code -> bool) (s : jsstring) :
  forallb P s = true -> Forall (fun w => forallb P w = true) (split sep s).
Proof.
  induction s as [|c s IH]; simpl; [repeat constructor|].
  intros H. apply andb_true_iff in H as [Hc Hs]. specialize (IH Hs).
  destruct (c =? sep); [constructor; [reflexivity | exact IH]|].
  destruct (split sep s) as [|w ws];
    [repeat constructor; simpl; now rewrite Hc|].
  apply Forall_cons in IH as [Hw Hws]. constructor; [|exact Hws].
  simpl. now rewrite Hc, Hw.
Qed.

Lemma fold_left_pushSegment_loose (allowAboveRoot : bool)
    (segs : list jsstring) :
  Forall (fun s => s = [] \/ plainSegment s) segs ->
  forall acc,
    fold_left (pushSegment allowAboveRoot) segs acc
    = acc ++ filter (fun s : jsstring => s <> []) segs.
Proof.
  induction 1 as [|s segs Hs _ IH]; intros acc; cbn [fold_left].
  - now rewrite filter_nil, app_nil_r.
  - destruct Hs as [->|Hs].
    + rewrite filter_cons_False by tauto. unfold pushSegment at 2.
      rewrite bool_decide_eq_true_2 by auto. apply IH.
    + rewrite pushSegment_plain by exact Hs.
      rewrite filter_cons_True by apply Hs.
      rewrite IH. now rewrite <- app_assoc.
Qed.

Lemma slug_pieces (slug : jsstring) :
  forallb (fun c => negb (c =? 46)) slug = true ->
  Forall (fun s => s = [] \/ plainSegment s) (split 47 slug).
Proof.
  intros Hdots.
  pose proof (split_pieces 47 slug) as Hslash.
  pose proof (split_pieces_forallb 47 _ slug Hdots) as Hdot.
  rewrite List.Forall_forall in *. intros w Hw.
  destruct w as [|c w]; [now left|]. right.
  specialize (Hslash _ Hw). specialize (Hdot _ Hw).
  split; [discriminate|]. split; [exact Hslash|].
  split; intros E; rewrite E in Hdot; discriminate.
Qed.

Lemma slugSegments_plain (filePath : jsstring) :
  Forall plainSegment (slugSegments filePath).
Proof.
  unfold slugSegments.
  pose proof (slug_pieces _ (fileSlug_no_dot filePath)) as H.
  rewrite List.Forall_forall in *. intros w Hw.
  apply list_elem_of_In, list_elem_of_filter in Hw as [Hne Hin].
  apply list_elem_of_In in Hin. destruct (H w Hin); tauto.
Qed.

Lemma plainSegment_noSlash (segs : list jsstring) :
  Forall plainSegment segs -> Forall noSlash segs.
Proof. intros H. eapply Forall_impl; [exact H|]. intros s Hs. apply Hs. Qed.

Lemma normalize_relative_form (path rest : jsstring) (c : code)
    (segs : list jsstring) :
  path = c :: rest -> (c =? 47) = false ->
  normalizeString true path = join (lit "/") segs ->
  join (lit "/") segs <> [] ->
  normalize path
  = join (lit "/") segs
      ++ (if match last path with Some d => d =? 47 | None => false end
          then lit "/" else []).
Proof.
  intros -> Hc Hn Hne. unfold normalize. cbv beta iota zeta.
  rewrite Hc. cbn [negb]. rewrite Hn.
  destruct (join (lit "/") segs); [congruence | reflexivity].
Qed.

(** The directory of a file is [snippets] followed by the components of
    its slug, with a separator at the end when the slug ends with one. *)
Lemma snippetDir_form (filePath : jsstring) :
  exists t,
    (t = [] \/ t = lit "/") /\
    snippetDir filePath
    = join (lit "/") (lit "snippets" :: slugSegments filePath) ++ t.
Proof.
  unfold snippetDir, slugSegments.
  pose proof (slug_pieces _ (fileSlug_no_dot filePath)) as Hpieces.
  destruct (fileSlug filePath) as [|c slug] eqn:Eslug.
  - exists []. split; [now left|]. reflexivity.
  - rewrite pathJoin_nonempty by discriminate.
    set (s := c :: slug) in *.
    change (lit "./snippets" ++ lit "/" ++ s)
      with (46 :: 47 :: lit "snippets" ++ 47 :: s).
    assert (normalizeString true (46 :: 47 :: lit "snippets" ++ 47 :: s)
            = join (lit "/")
                (lit "snippets"
                   :: filter (fun seg : jsstring => seg <> []) (split 47 s)))
      as Hn.
    { unfold normalizeString. f_equal.
      change (46 :: 47 :: lit "snippets" ++ 47 :: s)
        with (lit "." ++ 47 :: lit "snippets" ++ 47 :: s).
      rewrite !split_app_any.
      change (split 47 (lit ".")) with [lit "."].
      change (split 47 (lit "snippets")) with [lit "snippets"].
      cbn [app fold_left].
      change (pushSegment true [] (lit ".")) with (@nil jsstring).
      change (pushSegment true [] (lit "snippets")) with [lit "snippets"].
      now rewrite fold_left_pushSegment_loose. }
    destruct (join_head (lit "/") 115 (lit "nippets")
                (filter (fun seg : jsstring => seg <> []) (split 47 s)))
      as [rest Hj].
    change (115 :: lit "nippets") with (lit "snippets") in Hj.
    rewrite (normalize_relative_form _ _ 46 _ eq_refl eq_refl Hn)
      by (rewrite Hj; discriminate).
    destruct (match last _ with Some d => d =? 47 | None => false end);
      [exists (lit "/") | exists []]; auto.
Qed.

Lemma newFilePath_form (filePath snippetName : jsstring) :
  forallb nameChar snippetName = true ->
  newFilePath filePath snippetName
  = join (lit "/")
      ((lit "snippets" :: slugSegments filePath)
         ++ [snippetName ++ lit ".js"]).
Proof.
  intros Hname. unfold newFilePath.
  destruct (snippetDir_form filePath) as (t & Ht & ->).
  set (S := lit "snippets" :: slugSegments filePath).
  assert (Forall plainSegment S) as HS.
  { constructor; [repeat split; discriminate | apply slugSegments_plain]. }
  pose proof (fileName_plain snippetName Hname) as Hfile.
  set (file := snippetName ++ lit ".js") in *.
  destruct (join_head (lit "/") 115 (lit "nippets") (slugSegments filePath))
    as [rest Hj].
  change (115 :: lit "nippets") with (lit "snippets") in Hj. fold S in Hj.
  rewrite pathJoin_nonempty;
    [| rewrite Hj; discriminate | unfold file; now destruct snippetName].
  assert (normalizeString true ((join (lit "/") S ++ t) ++ lit "/" ++ file)
          = join (lit "/") (S ++ [file])) as Hn.
  { unfold normalizeString. f_equal.
    change (lit "/" ++ file) with (47 :: file).
    rewrite split_app_any, (split_no_sep 47 file) by apply Hfile.
    rewrite fold_left_app. cbn [fold_left].
    rewrite pushSegment_plain by exact Hfile. f_equal.
    destruct Ht as [-> | ->].
    - rewrite app_nil_r, split_join
        by (discriminate || now apply plainSegment_noSlash).
      now rewrite fold_left_pushSegment.
    - change (lit "/") with (47 :: @nil N) at 2.
      rewrite split_app_any, split_join
        by (discriminate || now apply plainSegment_noSlash).
      rewrite fold_left_app. change (split 47 []) with [@nil N].
      cbn [fold_left]. rewrite fold_left_pushSegment by exact HS.
      unfold pushSegment. now rewrite bool_decide_eq_true_2 by auto. }
  assert (last ((join (lit "/") S ++ t) ++ lit "/" ++ file) = Some 115)
    as Hlast.
  { unfold file. rewrite !last_app. reflexivity. }
  assert (exists rest',
            (join (lit "/") S ++ t) ++ lit "/" ++ file = 115 :: rest')
    as [rest' Hpath] by (rewrite Hj; cbn [app]; eauto).
  destruct (join_head (lit "/") 115 (lit "nippets")
              (slugSegments filePath ++ [file])) as [rest'' Hj'].
  change (115 :: lit "nippets") with (lit "snippets") in Hj'.
  rewrite (normalize_relative_form _ _ 115 _ Hpath eq_refl Hn)
    by (unfold S; cbn [app]; rewrite Hj'; discriminate).
  rewrite Hlast. cbn [N.eqb Pos.eqb]. now rewrite app_nil_r.
Qed.

(** X21. Whatever the source path, a region is written below the
    directory [snippets]: its path is [snippets], the components of the
    slug of the source path (none empty, none [.] or [..]) and
    [<regionName>.js], joined by [/]. No source path makes the script
    write outside [snippets/]. *)
Theorem output_stays_below_snippets (filePath snippetName : jsstring) :
  forallb nameChar snippetName = true ->
  Forall plainSegment (slugSegments filePath) /\
  newFilePath filePath snippetName
  = join (lit "/")
      ((lit "snippets" :: slugSegments filePath)
         ++ [snippetName ++ lit ".js"]) /\
  startsWith (lit "snippets/") (newFilePath filePath snippetName) = true.
Proof.
  intros Hname. split; [apply slugSegments_plain|].
  rewrite (newFilePath_form _ _ Hname). split; [reflexivity|].
  rewrite join_snoc by discriminate.
  destruct (slugSegments filePath) as [|s segs]; [reflexivity|].
  rewrite join_cons2. reflexivity.
Qed.

Lemma output_stays_below_snippets_witness :
  Forall plainSegment (slugSegments (lit "../../etc//x.js.js")) /\
  newFilePath (lit "../../etc//x.js.js") (lit "a")
  = join (lit "/")
      ((lit "snippets" :: slugSegments (lit "../../etc//x.js.js"))
         ++ [lit "a" ++ lit ".js"]) /\
  startsWith (lit "snippets/")
    (newFilePath (lit "../../etc//x.js.js") (lit "a")) = true.
Proof.
  apply (output_stays_below_snippets (lit "../../etc//x.js.js") (lit "a")).
  reflexivity.
Defined.

(** X22. Two regions of one file are never written to the same path:
    for names of letters and [_], different region names give different
    output paths, whatever the source path. *)
Theorem output_paths_are_distinct (filePath name1 name2 : jsstring) :
  forallb nameChar name1 = true -> forallb nameChar name2 = true ->
  name1 <> name2 ->
  newFilePath filePath name1 <> newFilePath filePath name2.
Proof.
  intros H1 H2 Hne. rewrite (newFilePath_form _ _ H1), (newFilePath_form _ _ H2).
  rewrite !join_snoc by discriminate. intros E.
  apply app_inv_head in E. apply app_inv_head in E.
  now apply app_inv_tail in E.
Qed.

Lemma output_paths_are_distinct_witness :
  newFilePath (lit "./auth/email.js") (lit "sign_in")
  <> newFilePath (lit "./auth/email.js") (lit "sign_up").
Proof.
  apply (output_paths_are_distinct (lit "./auth/email.js")).
  - reflexivity.
  - reflexivity.
  - discriminate.
Defined.

(* ===================================================================== *)
(** ** Where the collector fails *)
(* ===================================================================== *)

Lemma scan_throw_located (filePath : jsstring) (lines : list jsstring) :
  forall st0 e,
    wellFormed st0 -> scan filePath lines st0 = Throw e ->
    exists pre line rest st,
      lines = pre ++ line :: rest /\
      scan filePath pre st0 = Ok st /\
      ((exists name, classify line = Start name /\
                     e = DuplicateSnippetName name /\
                     isDefined (map st) name = true) \/
       (exists name, classify line = End name /\
                     e = UnmatchedEndTag name filePath /\
                     (name ∉ inSnippetNames st))).
Proof.
  induction lines as [|l lines IH]; intros st0 e Hwf; [discriminate|].
  rewrite scan_cons.
  pose proof (scanLine_wellFormed filePath st0 l Hwf) as Hstep.
  destruct (scanLine filePath st0 l) as [st1|e1] eqn:E1; cbn [bind].
  - intros H. destruct (IH st1 e Hstep H)
      as (pre & line & rest & st & -> & Hpre & Hcase).
    exists (l :: pre), line, rest, st. split; [reflexivity|].
    split; [|exact Hcase]. now rewrite scan_cons, E1.
  - intros [= <-]. exists [], l, lines, st0. auto.
Qed.

(** X23. [collectSnippets] throws for two reasons only, and at the first
    line that gives one: a Start line whose name reads as defined in the
    map built from the lines before it, or an End line whose name is not
    open after the lines before it. It never fails with a [TypeError] on
    a missing entry, and the lines before the offending one scan without
    error. *)
Theorem collector_error_located (filePath : jsstring)
    (lines : list jsstring) (e : error) :
  collectLines filePath lines = Throw e ->
  exists pre line rest st,
    lines = pre ++ line :: rest /\
    scan filePath pre initialState = Ok st /\
    ((exists name, classify line = Start name /\
                   e = DuplicateSnippetName name /\
                   isDefined (map st) name = true) \/
     (exists name, classify line = End name /\
                   e = UnmatchedEndTag name filePath /\
                   (name ∉ inSnippetNames st))).
Proof.
  unfold collectLines. destruct (negb _); [discriminate|].
  destruct (readSuffix_ok lines) as [sfx ->]. cbn [bind].
  destruct (scan filePath lines initialState) as [st|e'] eqn:E;
    cbn [bind]; [discriminate|].
  intros [= <-].
  exact (scan_throw_located _ _ _ _ wellFormed_initial E).
Qed.

Lemma collector_error_located_witness :
  exists pre line rest st,
    [enablementLine; lit "// [START a]"; lit "// [END b]"; lit "// [END a]"]
    = pre ++ line :: rest /\
    scan examplePath pre initialState = Ok st /\
    ((exists name, classify line = Start name /\
                   UnmatchedEndTag (lit "b") examplePath
                   = DuplicateSnippetName name /\
                   isDefined (map st) name = true) \/
     (exists name, classify line = End name /\
                   UnmatchedEndTag (lit "b") examplePath
                   = UnmatchedEndTag name examplePath /\
                   (name ∉ inSnippetNames st))).
Proof.
  apply (collector_error_located examplePath).
  vm_compute. reflexivity.
Defined.

(** X24. One line at column zero pins the whole region: when a line that
    is not blank has no indentation (a tag comment at the margin, say),
    [adjustIndentation] strips nothing and only empties the blank
    lines. *)
Theorem unindented_line_pins_region (lines : list jsstring)
    (line : jsstring) :
  In line lines -> isBlank line = false -> leadingWhitespace line = 0%nat ->
  adjustIndentation lines
  = List.map (fun l => if isBlank l then [] else l) lines.
Proof.
  intros Hin Hb H0.
  destruct (adjustIndentation_nonblank lines line Hin Hb) as (m & Hm & _ & Hle).
  specialize (Hle line Hin Hb).
  assert (m = 0%nat) as -> by lia.
  unfold adjustIndentation. fold (nonBlankIndents lines). now rewrite Hm.
Qed.

Lemma unindented_line_pins_region_witness :
  adjustIndentation demoRegionCommented
  = List.map (fun l => if isBlank l then [] else l) demoRegionCommented.
Proof.
  apply (unindented_line_pins_region demoRegionCommented (lit "// [START demo]")).
  - now left.
  - reflexivity.
  - reflexivity.
Defined.

(* ===================================================================== *)
(** ** Regions followed through the file *)
(* ===================================================================== *)

Lemma scan_Ok_app (filePath : jsstring) (l1 l2 : list jsstring)
    (st st' : scanState) :
  scan filePath (l1 ++ l2) st = Ok st' ->
  exists st1, scan filePath l1 st = Ok st1 /\ scan filePath l2 st1 = Ok st'.
Proof.
  rewrite scan_app.
  destruct (scan filePath l1 st) as [st1|e]; simpl; [eauto | discriminate].
Qed.

(** A line that is not the End line of an open region leaves it open, and
    is appended to it if it is a plain line. *)
Lemma step_keeps_open (filePath : jsstring) (st st' : scanState)
    (line name : jsstring) (ls : list jsstring) :
  wellFormed st -> name ∈ inSnippetNames st -> map st !! name = Some ls ->
  classify line <> End name ->
  scanLine filePath st line = Ok st' ->
  name ∈ inSnippetNames st' /\
  map st' !! name = Some (ls ++ (if isPlain line then [line] else [])).
Proof.
  intros [Hnd Hkeys] Hin Hls Hne. rewrite scanLine_classify. unfold isPlain.
  destruct (classify line) as [n|n|] eqn:Hc.
  - destruct (isDefined (map st) n) eqn:Hdef; [discriminate|].
    intros [= <-]. simpl. split; [apply elem_of_app; now left|].
    rewrite lookup_insert_ne, app_nil_r; [exact Hls|].
    intros ->. rewrite isDefined_own in Hdef; [discriminate | eauto].
  - assert (n <> name) as Hn by congruence.
    destruct (decide (n ∈ inSnippetNames st)) as [Hopen|Hopen].
    + rewrite bool_decide_eq_true_2 by exact Hopen.
      destruct (Hkeys _ Hopen) as [ls' Hls']. unfold push. rewrite Hls'.
      simpl. intros [= <-]. simpl.
      destruct (spliceOut_elem_of _ _ Hnd Hopen) as [_ Hmem].
      split; [apply Hmem; split; [exact Hin | congruence]|].
      rewrite lookup_insert_ne, app_nil_r; [exact Hls | exact Hn].
    + rewrite bool_decide_eq_false_2 by exact Hopen. discriminate.
  - destruct (pushAll_lookup line _ (map st) Hnd Hkeys) as (m' & -> & Hlook).
    simpl. intros [= <-]. simpl. split; [exact Hin|].
    rewrite Hlook, bool_decide_eq_true_2 by exact Hin. now rewrite Hls.
Qed.

Lemma scan_keeps_open (filePath name : jsstring) (rest : list jsstring) :
  noEndLine name rest ->
  forall (st st' : scanState) (ls : list jsstring),
    wellFormed st -> name ∈ inSnippetNames st -> map st !! name = Some ls ->
    scan filePath rest st = Ok st' ->
    name ∈ inSnippetNames st' /\
    map st' !! name = Some (ls ++ List.filter isPlain rest).
Proof.
  induction 1 as [|l rest Hl Hrest IH]; intros st st' ls Hwf Hin Hls.
  - intros [= <-]. now rewrite app_nil_r.
  - rewrite scan_cons.
    pose proof (scanLine_wellFormed filePath st l Hwf) as Hwf1.
    destruct (scanLine filePath st l) as [st1|e] eqn:E; simpl; [|discriminate].
    destruct (step_keeps_open _ _ _ _ _ _ Hwf Hin Hls Hl E) as [Hin1 Hls1].
    intros H. destruct (IH _ _ _ Hwf1 Hin1 Hls1 H) as [Hin' Hls'].
    split; [exact Hin'|]. rewrite Hls', <- app_assoc. do 2 f_equal.
    now destruct (isPlain l).
Qed.

(** A region that is closed stays closed, and its entry as it is. *)
Lemma step_keeps_closed (filePath : jsstring) (st st' : scanState)
    (line name : jsstring) :
  wellFormed st -> is_Some (map st !! name) -> (name ∉ inSnippetNames st) ->
  scanLine filePath st line = Ok st' ->
  (name ∉ inSnippetNames st') /\ map st' !! name = map st !! name.
Proof.
  intros [Hnd Hkeys] Hkey Hout. rewrite scanLine_classify.
  destruct (classify line) as [n|n|] eqn:Hc.
  - destruct (isDefined (map st) n) eqn:Hdef; [discriminate|].
    intros [= <-]. simpl.
    assert (n <> name) as Hn
      by (intros ->; rewrite isDefined_own in Hdef; [discriminate | exact Hkey]).
    split; [|now apply lookup_insert_ne].
    rewrite elem_of_app, list_elem_of_singleton. intros [H|H]; congruence.
  - destruct (decide (n ∈ inSnippetNames st)) as [Hopen|Hopen].
    + rewrite bool_decide_eq_true_2 by exact Hopen.
      destruct (Hkeys _ Hopen) as [ls' Hls']. unfold push. rewrite Hls'.
      simpl. intros [= <-]. simpl.
      destruct (spliceOut_elem_of _ _ Hnd Hopen) as [_ Hmem].
      split; [intros H; apply Hmem in H as [H _]; contradiction|].
      apply lookup_insert_ne. intros ->. contradiction.
    + rewrite bool_decide_eq_false_2 by exact Hopen. discriminate.
  - destruct (pushAll_lookup line _ (map st) Hnd Hkeys) as (m' & -> & Hlook).
    simpl. intros [= <-]. simpl. split; [exact Hout|].
    now rewrite Hlook, bool_decide_eq_false_2 by exact Hout.
Qed.

Lemma scan_keeps_closed (filePath name : jsstring) (rest : list jsstring) :
  forall (st st' : scanState),
    wellFormed st -> is_Some (map st !! name) -> (name ∉ inSnippetNames st) ->
    scan filePath rest st = Ok st' ->
    (name ∉ inSnippetNames st') /\ map st' !! name = map st !! name.
Proof.
  induction rest as [|l rest IH]; intros st st' Hwf Hkey Hout.
  - now intros [= <-].
  - rewrite scan_cons.
    pose proof (scanLine_wellFormed filePath st l Hwf) as Hwf1.
    destruct (scanLine filePath st l) as [st1|e] eqn:E; simpl; [|discriminate].
    destruct (step_keeps_closed _ _ _ _ _ Hwf Hkey Hout E) as [Hout1 Hk1].
    intros H. rewrite <- Hk1 in Hkey.
    destruct (IH _ _ Hwf1 Hkey Hout1 H) as [Hout' Hk'].
    split; [exact Hout'|]. now rewrite Hk'.
Qed.

(** The state right after a Start line that the scan got past. *)
Lemma scan_past_start (filePath : jsstring) (pre rest : list jsstring)
    (start name : jsstring) (st : scanState) :
  scan filePath (pre ++ start :: rest) initialState = Ok st ->
  classify start = Start name ->
  exists st1,
    wellFormed st1 /\ name ∈ inSnippetNames st1 /\
    map st1 !! name = Some [start] /\ scan filePath rest st1 = Ok st.
Proof.
  intros H Hc. apply scan_Ok_app in H as (st0 & H0 & H).
  rewrite scan_cons in H.
  pose proof (scan_wellFormed _ _ _ _ wellFormed_initial H0) as Hwf0.
  pose proof (scanLine_wellFormed filePath st0 start Hwf0) as Hwf1.
  rewrite (scanLine_start _ _ _ _ Hc) in H, Hwf1.
  destruct (isDefined (map st0) name); [discriminate|]. simpl in H.
  eexists. split; [exact Hwf1|]. simpl.
  split; [apply elem_of_app; right; now left|].
  split; [apply lookup_insert_eq | exact H].
Qed.

(** A region whose Start line no End line of its name follows is open at
    the end of the file, with every plain line after its Start line. *)
Lemma scan_dangling (filePath : jsstring) (pre rest : list jsstring)
    (start name : jsstring) (st : scanState) :
  scan filePath (pre ++ start :: rest) initialState = Ok st ->
  classify start = Start name -> noEndLine name rest ->
  name ∈ inSnippetNames st /\
  map st !! name = Some (start :: List.filter isPlain rest).
Proof.
  intros H Hc Hrest.
  destruct (scan_past_start _ _ _ _ _ _ H Hc) as (st1 & Hwf & Hin & Hls & H1).
  exact (scan_keeps_open _ _ _ Hrest _ _ _ Hwf Hin Hls H1).
Qed.

(** A region is closed by the first End line of its name after its Start
    line, and holds the plain lines between the two. *)
Lemma scan_closed (filePath : jsstring) (pre mid post : list jsstring)
    (start stop name : jsstring) (st : scanState) :
  scan filePath (pre ++ start :: mid ++ stop :: post) initialState = Ok st ->
  classify start = Start name -> noEndLine name mid ->
  classify stop = End name ->
  (name ∉ inSnippetNames st) /\
  map st !! name = Some (start :: List.filter isPlain mid ++ [stop]).
Proof.
  intros H Hc Hmid Hstop.
  destruct (scan_past_start _ _ _ _ _ _ H Hc) as (st1 & Hwf & Hin & Hls & H1).
  apply scan_Ok_app in H1 as (st2 & H2 & H3).
  pose proof (scan_wellFormed _ _ _ _ Hwf H2) as Hwf2.
  destruct (scan_keeps_open _ _ _ Hmid _ _ _ Hwf Hin Hls H2) as [Hin2 Hls2].
  rewrite scan_cons in H3.
  pose proof (scanLine_wellFormed filePath st2 stop Hwf2) as Hwf3.
  rewrite scanLine_classify, Hstop in H3, Hwf3.
  rewrite bool_decide_eq_true_2 in H3, Hwf3 by exact Hin2.
  unfold push in H3, Hwf3. rewrite Hls2 in H3, Hwf3. simpl in H3, Hwf3.
  destruct Hwf2 as [Hnd2 _].
  destruct (spliceOut_elem_of _ _ Hnd2 Hin2) as [_ Hmem].
  destruct (fun Hkey Hout => scan_keeps_closed _ name _ _ _ Hwf3 Hkey Hout H3)
    as [Hout Hk]; simpl.
  - rewrite lookup_insert_eq. eauto.
  - intros Hx. apply Hmem in Hx as [_ Hx]. congruence.
  - split; [exact Hout|]. rewrite Hk. simpl. now rewrite lookup_insert_eq.
Qed.

Lemma startNames_elem (lines : list jsstring) (name : jsstring) :
  name ∈ startNames lines ->
  exists pre start rest,
    lines = pre ++ start :: rest /\ classify start = Start name.
Proof.
  unfold startNames. rewrite list_elem_of_omap. intros (l & Hl & Hc).
  apply list_elem_of_split in Hl as (pre & rest & ->).
  exists pre, l, rest. split; [reflexivity|].
  destruct (classify l); congruence.
Qed.

(** Either no End line of [name] is in [rest], or there is a first one. *)
Lemma first_end_line (name : jsstring) (rest : list jsstring) :
  noEndLine name rest \/
  exists mid stop post,
    rest = mid ++ stop :: post /\ noEndLine name mid /\
    classify stop = End name.
Proof.
  induction rest as [|l rest IH]; [left; constructor|].
  assert (classify l = End name \/ classify l <> End name) as [Hl|Hl].
  { destruct (classify l) as [n|n|]; [now right | | now right].
    destruct (decide (n = name)) as [->|Hn]; [now left | right; congruence]. }
  - right. exists [], l, rest. split; [reflexivity|].
    split; [constructor | exact Hl].
  - destruct IH as [IH|(mid & stop & post & -> & Hmid & Hstop)].
    + left. now constructor.
    + right. exists (l :: mid), stop, post. split; [reflexivity|].
      split; [now constructor | exact Hstop].
Qed.

(* ===================================================================== *)
(** ** Regions open at the end of the file *)
(* ===================================================================== *)

(** C5. A file on which the collector throws neither the duplicate-Start
    nor the unmatched-End error is collected successfully: nothing is
    checked at the end of the file. The file is enabled exactly when one of
    its lines has the enablement marker, and then every Start line that no
    End line of its name follows leaves its region open after the last
    line and in the returned map, with that Start line and every plain
    line from there to the end of the file; the names open after the last
    line are exactly those of such Start lines. *)
Theorem dangling_region_is_kept (filePath : jsstring)
    (lines : list jsstring) :
  (forall name,
     collectLines filePath lines <> Throw (DuplicateSnippetName name)) ->
  (forall name,
     collectLines filePath lines <> Throw (UnmatchedEndTag name filePath)) ->
  exists config,
    collectLines filePath lines = Ok config /\
    enabled config = existsb (matches RE_SNIPPETS_SEPARATION) lines /\
    (enabled config = true ->
     exists st,
       scan filePath lines initialState = Ok st /\
       snippets config = map st /\
       (forall pre start rest name,
          lines = pre ++ start :: rest ->
          classify start = Start name -> noEndLine name rest ->
          name ∈ inSnippetNames st /\
          snippets config !! name
          = Some (start :: List.filter isPlain rest)) /\
       (forall name, name ∈ inSnippetNames st ->
          exists pre start rest,
            lines = pre ++ start :: rest /\
            classify start = Start name /\ noEndLine name rest /\
            snippets config !! name
            = Some (start :: List.filter isPlain rest))).
Proof.
  intros Hdup Hend.
  destruct (existsb (matches RE_SNIPPETS_SEPARATION) lines) eqn:Hen.
  - destruct (collectLines_enabled filePath lines Hen) as (suffix & _ & Hc).
    rewrite Hc in *.
    destruct (scan filePath lines initialState) as [st|e] eqn:E.
    + eexists. split; [reflexivity|]. split; [reflexivity|].
      intros _. exists st.
      split; [reflexivity|]. split; [reflexivity|]. simpl. split.
      * intros pre start rest name -> Hs Hrest.
        exact (scan_dangling _ _ _ _ _ _ E Hs Hrest).
      * intros name Hin.
        destruct (scan_openCaptured filePath _ _ E name Hin)
          as (pre & start & rest & -> & Hs & Hls).
        exists pre, start, rest. split; [reflexivity|].
        split; [exact Hs|]. split; [|exact Hls].
        destruct (first_end_line name rest)
          as [Hrest|(mid & stop & post & -> & Hmid & Hstop)]; [exact Hrest|].
        now destruct (scan_closed _ _ _ _ _ _ _ _ E Hs Hmid Hstop).
    + destruct (scan_throws _ _ _ _ wellFormed_initial E) as [[n ->]|[n ->]].
      * now destruct (Hdup n).
      * now destruct (Hend n).
  - rewrite (collectLines_disabled _ _ Hen). eexists.
    split; [reflexivity|]. split; [reflexivity|]. discriminate.
Qed.

Lemma dangling_region_is_kept_witness :
  exists config st,
    collectLines examplePath danglingFile = Ok config /\
    enabled config = true /\
    scan examplePath danglingFile initialState = Ok st /\
    lit "a" ∈ inSnippetNames st /\
    snippets config !! lit "a"
    = Some [lit "// [START a]"; lit "f();"; lit "g();"; lit "h();"].
Proof.
  destruct (dangling_region_is_kept examplePath danglingFile)
    as (config & Hc & Hen & H).
  - intros name. vm_compute. discriminate.
  - intros name. vm_compute. discriminate.
  - assert (enabled config = true) as Hen' by (rewrite Hen; reflexivity).
    destruct (H Hen') as (st & Hst & _ & Hopen & _).
    destruct (Hopen [enablementLine] (lit "// [START a]")
                [lit "f();"; lit "// [START b]"; lit "g();";
                 lit "// [END b]"; lit "h();"] (lit "a"))
      as [Hin Hls].
    + reflexivity.
    + reflexivity.
    + repeat constructor; vm_compute; discriminate.
    + exists config, st. split; [exact Hc|]. split; [exact Hen'|].
      split; [exact Hst|]. split; [exact Hin | exact Hls].
Defined.

(* ===================================================================== *)
(** ** What a region holds *)
(* ===================================================================== *)

(** X19. The regions of the returned map are those of the Start lines of
    the file, and what follows a Start line decides the contents of its
    region. If an End line of the name follows, the region holds the Start
    line, the plain lines up to the first such End line, and that End
    line; if none follows, it holds the Start line and every plain line up
    to the end of the file. Start and End lines of other regions are never
    part of it. Every Start line has its region in the map, and every
    region of the map comes from a Start line in this way. *)
Theorem region_contents (filePath : jsstring) (lines : list jsstring)
    (config : SnippetsConfig) :
  collectLines filePath lines = Ok config -> enabled config = true ->
  (forall pre start rest name,
     lines = pre ++ start :: rest -> classify start = Start name ->
     exists ls,
       snippets config !! name = Some ls /\
       ((noEndLine name rest /\ ls = start :: List.filter isPlain rest) \/
        exists mid stop post,
          rest = mid ++ stop :: post /\
          noEndLine name mid /\ classify stop = End name /\
          ls = start :: List.filter isPlain mid ++ [stop])) /\
  (forall name ls,
     snippets config !! name = Some ls ->
     exists pre start rest,
       lines = pre ++ start :: rest /\
       classify start = Start name /\
       ((noEndLine name rest /\ ls = start :: List.filter isPlain rest) \/
        exists mid stop post,
          rest = mid ++ stop :: post /\
          noEndLine name mid /\ classify stop = End name /\
          ls = start :: List.filter isPlain mid ++ [stop])).
Proof.
  intros Hc Hen.
  destruct (collectLines_Ok_enabled _ _ _ Hc Hen) as (st & Hst & Hmap).
  rewrite Hmap.
  assert (forall pre start rest name,
            lines = pre ++ start :: rest -> classify start = Start name ->
            exists ls,
              map st !! name = Some ls /\
              ((noEndLine name rest /\
                ls = start :: List.filter isPlain rest) \/
               exists mid stop post,
                 rest = mid ++ stop :: post /\
                 noEndLine name mid /\ classify stop = End name /\
                 ls = start :: List.filter isPlain mid ++ [stop]))
    as Hforward.
  { intros pre start rest name -> Hs.
    destruct (first_end_line name rest)
      as [Hrest|(mid & stop & post & -> & Hmid & Hstop)].
    - destruct (scan_dangling _ _ _ _ _ _ Hst Hs Hrest) as [_ H].
      eexists. split; [exact H|]. now left.
    - destruct (scan_closed _ _ _ _ _ _ _ _ Hst Hs Hmid Hstop) as [_ H].
      eexists. split; [exact H|]. right. now exists mid, stop, post. }
  split; [exact Hforward|].
  intros name ls Hls.
  destruct (scan_keys _ _ _ Hst) as (_ & Hkeys & _).
  destruct (startNames_elem lines name) as (pre & start & rest & Hl & Hs).
  { apply Hkeys. eauto. }
  exists pre, start, rest. split; [exact Hl|]. split; [exact Hs|].
  destruct (Hforward _ _ _ _ Hl Hs) as (ls' & Hls' & H).
  rewrite Hls in Hls'. now injection Hls' as <-.
Qed.

Lemma region_contents_witness :
  (exists ls,
     snippets danglingConfig !! lit "b" = Some ls /\
     ((noEndLine (lit "b") [lit "g();"; lit "// [END b]"; lit "h();"] /\
       ls = lit "// [START b]"
              :: List.filter isPlain
                   [lit "g();"; lit "// [END b]"; lit "h();"]) \/
      exists mid stop post,
        [lit "g();"; lit "// [END b]"; lit "h();"] = mid ++ stop :: post /\
        noEndLine (lit "b") mid /\ classify stop = End (lit "b") /\
        ls = lit "// [START b]" :: List.filter isPlain mid ++ [stop])) /\
  (exists pre start rest,
     danglingFile = pre ++ start :: rest /\
     classify start = Start (lit "a") /\
     ((noEndLine (lit "a") rest /\
       [lit "// [START a]"; lit "f();"; lit "g();"; lit "h();"]
       = start :: List.filter isPlain rest) \/
      exists mid stop post,
        rest = mid ++ stop :: post /\
        noEndLine (lit "a") mid /\ classify stop = End (lit "a") /\
        [lit "// [START a]"; lit "f();"; lit "g();"; lit "h();"]
        = start :: List.filter isPlain mid ++ [stop])).
Proof.
  destruct (region_contents examplePath danglingFile danglingConfig)
    as [Hforward Hback]; [reflexivity | reflexivity |].
  split.
  - apply (Hforward [enablementLine; lit "// [START a]"; lit "f();"]
             (lit "// [START b]")); reflexivity.
  - apply (Hback (lit "a")). reflexivity.
Defined.

(* ===================================================================== *)
(** ** The first match of a line *)
(* ===================================================================== *)

(** The search stops at the first position where a word of the regex
    starts. *)
Lemma search_first (r : regex) (s : jsstring) :
  forall (i : nat) (m : matchResult),
    search r i s = Some m ->
    exists pre post,
      s = pre ++ post /\ index m = (i + length pre)%nat /\
      matchAt r (index m) post = Some m /\
      forall pre1 pre2, pre = pre1 ++ pre2 -> pre2 <> [] ->
        ~ exists w g s', pre2 ++ post = w ++ s' /\ denotes r w g.
Proof.
  assert (forall i t m, matchAt r i t = Some m ->
            exists pre post,
              t = pre ++ post /\ index m = (i + length pre)%nat /\
              matchAt r (index m) post = Some m /\
              forall pre1 pre2, pre = pre1 ++ pre2 -> pre2 <> [] ->
                ~ exists w g s', pre2 ++ post = w ++ s' /\ denotes r w g)
    as Hhere.
  { intros i t m E. exists [], t.
    destruct (matchAt_sound _ _ _ _ E) as (Hi & _). rewrite Hi.
    split; [reflexivity|]. split; [simpl; lia|]. split; [exact E|].
    intros pre1 pre2 H Hne. destruct pre1, pre2; simpl in H; congruence. }
  induction s as [|c s IH]; intros i m; simpl.
  - destruct (matchAt r i []) eqn:E; [|discriminate]. intros [= ->].
    now apply Hhere.
  - destruct (matchAt r i (c :: s)) eqn:E.
    + intros [= ->]. now apply Hhere.
    + intros H. apply IH in H as (pre & post & -> & Hi & Hm & Hno).
      exists (c :: pre), post. split; [reflexivity|].
      split; [simpl; lia|]. split; [exact Hm|].
      intros [|d pre1] pre2 Hp Hne.
      * simpl in Hp. subst pre2. now apply (matchAt_None r i).
      * injection Hp as <- ->. now apply (Hno pre1 pre2).
Qed.

(** [s.match(r)] and [s.replace(r, template)] on a line the regex matches:
    the match is the first word of the regex in the line, and it is what
    the replacement rewrites. *)
Lemma exec_first (r : regex) (s : jsstring) (m : matchResult) :
  exec r s = Some m ->
  exists pre post,
    s = pre ++ matched m ++ post /\ index m = length pre /\
    denotes r (matched m) (groups m) /\
    matchAt r (index m) (matched m ++ post) = Some m /\
    (forall pre1 pre2, pre = pre1 ++ pre2 -> pre2 <> [] ->
       ~ exists w g s',
           pre2 ++ matched m ++ post = w ++ s' /\ denotes r w g) /\
    forall template,
      replace r template s = pre ++ getSubstitution s m template ++ post.
Proof.
  intros H. pose proof H as Hx. unfold exec in Hx.
  apply search_first in Hx as (pre & post0 & Hs & Hi & Hm & Hno).
  rewrite Nat.add_0_l in Hi.
  destruct (matchAt_sound _ _ _ _ Hm) as (_ & Hd & post & ->).
  exists pre, post. split; [exact Hs|]. split; [exact Hi|].
  split; [exact Hd|]. split; [exact Hm|]. split; [exact Hno|].
  intros template. unfold replace. rewrite H, Hi.
  assert (take (length pre) s = pre) as ->
    by (rewrite Hs; apply take_app_length).
  assert (drop (length pre + length (matched m)) s = post) as ->
    by (rewrite Hs, drop_app_add; apply drop_app_length).
  reflexivity.
Qed.

(* ===================================================================== *)
(** ** The tag a suffix goes to *)
(* ===================================================================== *)

Lemma tagAtHead_denotes (keyword s : jsstring) :
  tagAtHead keyword s <->
  exists w g s', s = w ++ s' /\ denotes (tagRegex keyword) w g.
Proof.
  split.
  - intros (ws1 & name & ws2 & rest & Htag & ->).
    exists (tagText keyword ws1 name ws2), [name], rest.
    split; [reflexivity | now apply tag_denotes].
  - intros (w & g & s' & -> & Hd).
    apply tag_denotes_inv in Hd as (ws1 & name & ws2 & _ & -> & Htag).
    now exists ws1, name, ws2, s'.
Qed.

(** The replacement of a tag regex by [keyword $1<suffix>]]: the first
    tag of the line is rewritten, with its name, and the rest is kept. *)
Lemma replace_tag (keyword line snippetSuffix : jsstring) (m : matchResult) :
  exec (tagRegex keyword) line = Some m ->
  noDollar keyword = true -> noDollar snippetSuffix = true ->
  exists pre post ws1 ws2,
    wellFormedTag ws1 (group 1 m) ws2 /\
    matched m = tagText keyword ws1 (group 1 m) ws2 /\
    line = pre ++ matched m ++ post /\
    noTagStartsIn keyword pre (matched m ++ post) /\
    replace (tagRegex keyword)
      (keyword ++ lit " " ++ 36 :: 49 :: snippetSuffix ++ lit "]") line
    = pre ++ (keyword ++ lit " " ++ group 1 m ++ snippetSuffix ++ lit "]")
        ++ post.
Proof.
  intros Hm Hkw Hsfx.
  destruct (exec_first _ _ _ Hm) as (pre & post & Hline & _ & Hd & _ & Hno & Hrep).
  apply tag_denotes_inv in Hd as (ws1 & name & ws2 & Hg & Hw & Htag).
  assert (group 1 m = name) as Hname by (unfold group; now rewrite Hg).
  exists pre, post, ws1, ws2. rewrite Hname.
  split; [exact Htag|]. split; [exact Hw|]. split; [exact Hline|]. split.
  - intros pre1 pre2 Hp Hne Hhead. apply (Hno pre1 pre2 Hp Hne).
    now apply tagAtHead_denotes.
  - rewrite Hrep. do 2 f_equal.
    rewrite !(app_assoc keyword (lit " ")).
    rewrite getSubstitution_tag, Hname; auto.
    + now rewrite Hg.
    + unfold noDollar in *. rewrite forallb_app, Hkw. reflexivity.
Qed.

(** X9. [addSuffixToSnippetNames] rewrites a Start line and an End line in
    place, and nothing else. The tag it rewrites is the first tag of the
    line of the kind the line is classified by: the keyword, white space,
    the name of letters and [_], optional white space and the bracket. It
    becomes [[START name<suffix>]] (or [[END name<suffix>]]) with one space
    after the keyword and none before the bracket, the text around that
    tag stays as it is, and a plain line is returned as it is. *)
Theorem suffix_added_to_tag (line snippetSuffix : jsstring) :
  noDollar snippetSuffix = true ->
  match classify line with
  | Start name =>
      exists pre post ws1 ws2,
        wellFormedTag ws1 name ws2 /\
        line = pre ++ tagText (lit "[START") ws1 name ws2 ++ post /\
        noTagStartsIn (lit "[START") pre
          (tagText (lit "[START") ws1 name ws2 ++ post) /\
        addSuffixToSnippetNames [line] snippetSuffix
        = [pre ++ (lit "[START " ++ name ++ snippetSuffix ++ lit "]") ++ post]
  | End name =>
      exists pre post ws1 ws2,
        wellFormedTag ws1 name ws2 /\
        line = pre ++ tagText (lit "[END") ws1 name ws2 ++ post /\
        noTagStartsIn (lit "[END") pre
          (tagText (lit "[END") ws1 name ws2 ++ post) /\
        addSuffixToSnippetNames [line] snippetSuffix
        = [pre ++ (lit "[END " ++ name ++ snippetSuffix ++ lit "]") ++ post]
  | Plain => addSuffixToSnippetNames [line] snippetSuffix = [line]
  end.
Proof.
  intros Hsfx. unfold classify, addSuffixToSnippetNames. cbn [List.map].
  destruct (exec RE_START_SNIPPET line) as [m|] eqn:Hs.
  - rewrite (matches_Some _ _ _ Hs).
    destruct (replace_tag (lit "[START") _ _ _ Hs eq_refl Hsfx)
      as (pre & post & ws1 & ws2 & Htag & Hw & Hline & Hno & Hout).
    exists pre, post, ws1, ws2. rewrite <- Hw.
    split; [exact Htag|]. split; [exact Hline|]. split; [exact Hno|].
    f_equal. exact Hout.
  - rewrite (matches_None _ _ Hs).
    destruct (exec RE_END_SNIPPET line) as [m|] eqn:He.
    + rewrite (matches_Some _ _ _ He).
      destruct (replace_tag (lit "[END") _ _ _ He eq_refl Hsfx)
        as (pre & post & ws1 & ws2 & Htag & Hw & Hline & Hno & Hout).
      exists pre, post, ws1, ws2. rewrite <- Hw.
      split; [exact Htag|]. split; [exact Hline|]. split; [exact Hno|].
      f_equal. exact Hout.
    + now rewrite (matches_None _ _ He).
Qed.

Lemma suffix_added_to_tag_witness :
  (exists pre post ws1 ws2,
     wellFormedTag ws1 (lit "sign_in") ws2 /\
     lit "  // [END   sign_in  ] done ] [END x]"
     = pre ++ tagText (lit "[END") ws1 (lit "sign_in") ws2 ++ post /\
     noTagStartsIn (lit "[END") pre
       (tagText (lit "[END") ws1 (lit "sign_in") ws2 ++ post) /\
     addSuffixToSnippetNames [lit "  // [END   sign_in  ] done ] [END x]"]
       (lit "_v9")
     = [pre ++ lit "[END sign_in_v9]" ++ post]) /\
  addSuffixToSnippetNames [lit "  // [END   sign_in  ] done ] [END x]"]
    (lit "_v9")
  = [lit "  // [END sign_in_v9] done ] [END x]"].
Proof.
  split.
  - exact (suffix_added_to_tag (lit "  // [END   sign_in  ] done ] [END x]")
             (lit "_v9") eq_refl).
  - reflexivity.
Defined.

(* ===================================================================== *)
(** ** A line with both tags *)
(* ===================================================================== *)

(** A word without an opening bracket that starts a string ends before
    the first opening bracket of that string. *)
Lemma noBracket_prefix (a : jsstring) :
  forall p x y : jsstring,
    noBracket a -> a ++ x = p ++ 91 :: y ->
    exists t, p = a ++ t /\ x = t ++ 91 :: y.
Proof.
  unfold noBracket.
  induction a as [|c a IH]; intros p x y Ha E; simpl in *.
  - now exists p.
  - apply andb_true_iff in Ha as [Hc Ha]. destruct p as [|d p]; simpl in E.
    + injection E as -> _. discriminate.
    + injection E as <- E. destruct (IH p x y Ha E) as (t & -> & ->).
      now exists t.
Qed.

(** Two bracketed words of a line that differ after their bracket, none
    with a second opening bracket, do not overlap: the second is before
    the first or after it. *)
Lemma bracket_words_apart (T' post E' q : jsstring) :
  noBracket T' -> noBracket E' -> (forall x y, T' ++ x <> E' ++ y) ->
  forall pre p : jsstring,
    pre ++ 91 :: T' ++ post = p ++ 91 :: E' ++ q ->
    (exists b, pre = p ++ 91 :: E' ++ b) \/
    (exists a, post = a ++ 91 :: E' ++ q).
Proof.
  intros HT HE Hdiff.
  induction pre as [|c pre IH]; intros [|d p] E; simpl in E.
  - injection E as E. now destruct (Hdiff _ _ E).
  - injection E as <- E.
    destruct (noBracket_prefix _ _ _ _ HT E) as (t & _ & ->). eauto.
  - injection E as -> E. symmetry in E.
    destruct (noBracket_prefix _ _ _ _ HE E) as (t & -> & _).
    left. exists t. reflexivity.
  - injection E as <- E. destruct (IH p E) as [[b ->]|[a ->]].
    + left. now exists b.
    + right. now exists a.
Qed.

Lemma tagText_noBracket (kw' ws1 name ws2 : jsstring) :
  noBracket kw' -> wellFormedTag ws1 name ws2 ->
  noBracket (kw' ++ ws1 ++ name ++ ws2 ++ lit "]").
Proof.
  intros Hkw (_ & Hws1 & _ & Hn & Hws2). unfold noBracket in *.
  rewrite !forallb_app, Hkw. rewrite !andb_true_iff.
  split; [reflexivity|]. repeat split.
  - apply forallb_forall. intros c Hc.
    rewrite forallb_forall in Hws1.
    now rewrite (whitespace_not_bracket c (Hws1 c Hc)).
  - apply forallb_forall. intros c Hc.
    rewrite forallb_forall in Hn.
    now rewrite (nameChar_not_bracket c (Hn c Hc)).
  - apply forallb_forall. intros c Hc.
    rewrite forallb_forall in Hws2.
    now rewrite (whitespace_not_bracket c (Hws2 c Hc)).
Qed.

(** C10. A line on which both tag patterns match is a Start line and
    nothing else: the collector runs the Start branch for the Start name
    (a new entry holding this line, the name opened, or the duplicate
    error), the End name is not looked up in the open names and stays open
    if it was, and the entry of the End name is not touched. The suffix
    goes to the Start tag alone: the text the Start pattern matched is the
    first Start tag of the line (the keyword, white space, the name,
    optional white space, the bracket), it becomes
    [[START name<suffix>]], the text before and after it stays as it is,
    and the text the End pattern matched lies in that text before or
    after. *)
Theorem line_with_both_tags_is_a_start (filePath : jsstring)
    (st : scanState) (line snippetSuffix : jsstring)
    (startMatch endMatch : matchResult) :
  exec RE_START_SNIPPET line = Some startMatch ->
  exec RE_END_SNIPPET line = Some endMatch ->
  noDollar snippetSuffix = true ->
  classify line = Start (group 1 startMatch) /\
  scanLine filePath st line =
    (if isDefined (map st) (group 1 startMatch)
     then Throw (DuplicateSnippetName (group 1 startMatch))
     else Ok (ScanState (<[group 1 startMatch := [line]]> (map st))
                        (inSnippetNames st ++ [group 1 startMatch]))) /\
  (forall st', scanLine filePath st line = Ok st' ->
     (group 1 endMatch ∈ inSnippetNames st ->
      group 1 endMatch ∈ inSnippetNames st') /\
     (group 1 endMatch <> group 1 startMatch ->
      map st' !! group 1 endMatch = map st !! group 1 endMatch)) /\
  exists pre post ws1 ws2,
    wellFormedTag ws1 (group 1 startMatch) ws2 /\
    matched startMatch
    = tagText (lit "[START") ws1 (group 1 startMatch) ws2 /\
    line = pre ++ matched startMatch ++ post /\
    noTagStartsIn (lit "[START") pre (matched startMatch ++ post) /\
    addSuffixToSnippetNames [line] snippetSuffix
    = [pre ++ (lit "[START " ++ group 1 startMatch ++ snippetSuffix
                 ++ lit "]") ++ post] /\
    ((exists a b, pre = a ++ matched endMatch ++ b) \/
     (exists a b, post = a ++ matched endMatch ++ b)).
Proof.
  intros Hs He Hsfx.
  assert (classify line = Start (group 1 startMatch)) as Hc
    by (unfold classify; now rewrite Hs).
  split; [exact Hc|]. rewrite (scanLine_start _ _ _ _ Hc).
  split; [reflexivity|]. split.
  - intros st'.
    destruct (isDefined (map st) (group 1 startMatch)); [discriminate|].
    intros [= <-]. simpl. split.
    + intros H. apply elem_of_app. now left.
    + intros H. now apply lookup_insert_ne.
  - destruct (replace_tag (lit "[START") _ _ _ Hs eq_refl Hsfx)
      as (pre & post & ws1 & ws2 & Htag & Hw & Hline & Hno & Hout).
    exists pre, post, ws1, ws2.
    split; [exact Htag|]. split; [exact Hw|]. split; [exact Hline|].
    split; [exact Hno|]. split.
    + unfold addSuffixToSnippetNames. cbn [List.map].
      rewrite (matches_Some _ _ _ Hs). f_equal. exact Hout.
    + destruct (exec_first _ _ _ He) as (p & q & Hline' & _ & Hd & _).
      apply (tag_denotes_inv (lit "[END")) in Hd
        as (ws1' & name' & ws2' & _ & Hw' & Htag').
      rewrite Hw'.
      pose proof (tagText_noBracket (lit "START") _ _ _ eq_refl Htag) as HT.
      pose proof (tagText_noBracket (lit "END") _ _ _ eq_refl Htag') as HE.
      rewrite Hline', Hw, Hw' in Hline.
      change (tagText (lit "[START") ws1 (group 1 startMatch) ws2)
        with (91 :: (lit "START" ++ ws1 ++ group 1 startMatch ++ ws2
                       ++ lit "]")) in Hline.
      change (tagText (lit "[END") ws1' name' ws2')
        with (91 :: (lit "END" ++ ws1' ++ name' ++ ws2' ++ lit "]"))
        in Hline |- *.
      symmetry in Hline.
      assert (forall x y,
                (lit "START" ++ ws1 ++ group 1 startMatch ++ ws2 ++ lit "]")
                  ++ x
                <> (lit "END" ++ ws1' ++ name' ++ ws2' ++ lit "]") ++ y)
        as Hdiff
        by (intros x y E; apply (f_equal head) in E; discriminate E).
      destruct (bracket_words_apart _ post _ q HT HE Hdiff pre p Hline)
        as [[b ->]|[a ->]].
      * left. now exists p, b.
      * right. now exists a, q.
Qed.

Lemma line_with_both_tags_is_a_start_witness :
  classify (lit "// [START a] [END b]") = Start (lit "a") /\
  scanLine examplePath insideB (lit "// [START a] [END b]") =
    Ok (ScanState {[ lit "a" := [lit "// [START a] [END b]"];
                     lit "b" := [lit "// [START b]"] ]}
                  [lit "b"; lit "a"]) /\
  (exists pre post ws1 ws2,
     wellFormedTag ws1 (lit "a") ws2 /\
     lit "[START a]" = tagText (lit "[START") ws1 (lit "a") ws2 /\
     lit "// [START a] [END b]" = pre ++ lit "[START a]" ++ post /\
     noTagStartsIn (lit "[START") pre (lit "[START a]" ++ post) /\
     addSuffixToSnippetNames [lit "// [START a] [END b]"] (lit "_modular")
     = [pre ++ lit "[START a_modular]" ++ post] /\
     ((exists a b, pre = a ++ lit "[END b]" ++ b) \/
      (exists a b, post = a ++ lit "[END b]" ++ b))) /\
  addSuffixToSnippetNames [lit "// [START a] [END b]"] (lit "_modular")
  = [lit "// [START a_modular] [END b]"].
Proof.
  destruct (line_with_both_tags_is_a_start examplePath insideB
              (lit "// [START a] [END b]") (lit "_modular")
              (MatchResult 3 (lit "[START a]") [lit "a"])
              (MatchResult 13 (lit "[END b]") [lit "b"]))
    as (Hc & Hstep & _ & Hsfx);
    [reflexivity | reflexivity | reflexivity |].
  split; [exact Hc|]. split; [rewrite Hstep; reflexivity|].
  split; [exact Hsfx | reflexivity].
Defined.

(* ===================================================================== *)
(** ** Lazy quantifiers *)
(* ===================================================================== *)

Section LazyMatch.
Context {A : Type}.

(** [cls*?] stops at the first point where what follows matches. *)
Lemma starLazy_first (cls : code -> bool) (k : jsstring -> option A)
    (s : jsstring) :
  forall res,
    starLazy cls k s = Some res ->
    exists w s',
      s = w ++ s' /\ forallb cls w = true /\ k s' = Some res /\
      forall w1 w2, w = w1 ++ w2 -> w2 <> [] -> k (w2 ++ s') = None.
Proof.
  assert (forall t res, k t = Some res ->
            exists w s',
              t = w ++ s' /\ forallb cls w = true /\ k s' = Some res /\
              forall w1 w2, w = w1 ++ w2 -> w2 <> [] -> k (w2 ++ s') = None)
    as Hhere.
  { intros t res E. exists [], t. repeat split; auto.
    intros w1 w2 H Hne. destruct w1, w2; simpl in H; congruence. }
  induction s as [|c s IH]; intros res; simpl.
  - destruct (k []) eqn:E; [|discriminate]. intros [= ->]. now apply Hhere.
  - destruct (k (c :: s)) eqn:E; [intros [= ->]; now apply Hhere|].
    destruct (cls c) eqn:Hc; [|discriminate].
    intros H. apply IH in H as (w & s' & -> & Hw & Hk & Hmin).
    exists (c :: w), s'. split; [reflexivity|].
    split; [simpl; now rewrite Hc|]. split; [exact Hk|].
    intros [|d w1] w2 Hsplit Hne; simpl in Hsplit.
    + now subst w2.
    + injection Hsplit as <- ->. now apply (Hmin w1 w2).
Qed.

Lemma rep_lazy_first (cls : code -> bool) (k : jsstring -> option A)
    (s : jsstring) (res : A) :
  rep false true cls k s = Some res ->
  exists w s',
    s = w ++ s' /\ w <> [] /\ forallb cls w = true /\ k s' = Some res /\
    forall w1 w2,
      w = w1 ++ w2 -> w1 <> [] -> w2 <> [] -> k (w2 ++ s') = None.
Proof.
  unfold rep. destruct s as [|c s]; [discriminate|].
  destruct (cls c) eqn:Hc; [|discriminate].
  intros H. apply starLazy_first in H as (w & s' & -> & Hw & Hk & Hmin).
  exists (c :: w), s'. split; [reflexivity|]. split; [discriminate|].
  split; [simpl; now rewrite Hc|]. split; [exact Hk|].
  intros [|d w1] w2 Hsplit Hne1 Hne2; [congruence|].
  injection Hsplit as <- ->. now apply (Hmin w1 w2).
Qed.

(** A lazy group [(c+?)] followed by [r2] captures the shortest text after
    which [r2] and the rest of the pattern match. *)
Lemma run_lazy_group (cls : code -> bool) (r2 : regex) (s : jsstring)
    (caps : list jsstring) (k : jsstring -> list jsstring -> option A)
    (res : A) :
  run (Grp (Rep false true cls) · r2) s caps k = Some res ->
  exists w s',
    s = w ++ s' /\ w <> [] /\ forallb cls w = true /\
    run r2 s' (caps ++ [w]) k = Some res /\
    forall w1 w2,
      w = w1 ++ w2 -> w1 <> [] -> w2 <> [] ->
      run r2 (w2 ++ s') (caps ++ [w1]) k = None.
Proof.
  cbn [run]. intros H.
  apply rep_lazy_first in H as (w & s' & -> & Hne & Hw & Hk & Hmin).
  exists w, s'. split; [reflexivity|]. split; [exact Hne|].
  split; [exact Hw|]. split.
  - now rewrite length_app, Nat.add_sub, take_app_length in Hk.
  - intros w1 w2 -> Hne1 Hne2. specialize (Hmin w1 w2 eq_refl Hne1 Hne2).
    rewrite <- app_assoc in Hmin.
    rewrite !length_app in Hmin.
    replace (length w1 + (length w2 + length s') - (length w2 + length s'))%nat
      with (length w1) in Hmin by lia.
    now rewrite take_app_length in Hmin.
Qed.

(** When the continuation accepts everything, the matcher fails only where
    no word of the regex starts. *)
Lemma run_None (r : regex) (s : jsstring) (caps : list jsstring)
    (k : jsstring -> list jsstring -> option A) :
  (forall s' caps', is_Some (k s' caps')) ->
  run r s caps k = None ->
  ~ exists w g s', s = w ++ s' /\ denotes r w g.
Proof.
  intros Hk H (w & g & s' & -> & Hd).
  destruct (run_complete r _ caps k w s' g eq_refl Hd (Hk _ _)) as [x Hx].
  congruence.
Qed.
End LazyMatch.

(* ===================================================================== *)
(** ** The require a line is rewritten at *)
(* ===================================================================== *)

Lemma run_lit_seq {A} (p : jsstring) (r2 : regex) (s : jsstring)
    (caps : list jsstring) (k : jsstring -> list jsstring -> option A)
    (res : A) :
  run (Lit p · r2) s caps k = Some res ->
  exists s', s = p ++ s' /\ run r2 s' caps k = Some res.
Proof.
  cbn [run]. destruct (startsWith p s) eqn:E; [|discriminate].
  intros H. exists (drop (length p) s). split; [|exact H].
  now apply startsWith_app.
Qed.

Lemma requireTailAtHead_denotes (s : jsstring) :
  requireTailAtHead s ->
  exists w g s',
    s = w ++ s' /\
    denotes (Lit (lit "} = require(") · Grp (Rep false true anyChar)
               · Lit (lit ")")) w g.
Proof.
  intros (source & rest & -> & Hne & Hs).
  exists (lit "} = require(" ++ source ++ lit ")"), [source], rest.
  split; [now rewrite <- !app_assoc|]. simpl.
  exists (lit "} = require("), (source ++ lit ")"), [], [source].
  split; [reflexivity|]. split; [reflexivity|]. split; [now split|].
  exists source, (lit ")"), [source], [].
  split; [reflexivity|]. split; [reflexivity|]. split; [|now split].
  exists []. split; [now repeat split | reflexivity].
Qed.

Lemma requireAtHead_denotes (s : jsstring) :
  requireAtHead s ->
  exists w g s', s = w ++ s' /\ denotes RE_REQUIRE w g.
Proof.
  intros (names & source & rest & -> & Hne & Hn & Hnes & Hs).
  exists (lit "const {" ++ names ++ lit "} = require(" ++ source ++ lit ")"),
    [names; source], rest.
  split; [now rewrite <- !app_assoc|]. simpl.
  exists (lit "const {"), (names ++ lit "} = require(" ++ source ++ lit ")"),
    [], [names; source].
  split; [reflexivity|]. split; [reflexivity|]. split; [now split|].
  exists names, (lit "} = require(" ++ source ++ lit ")"), [names], [source].
  split; [reflexivity|]. split; [reflexivity|]. split.
  { exists []. split; [now repeat split | reflexivity]. }
  exists (lit "} = require("), (source ++ lit ")"), [], [source].
  split; [reflexivity|]. split; [reflexivity|]. split; [now split|].
  exists source, (lit ")"), [source], [].
  split; [reflexivity|]. split; [reflexivity|]. split; [|now split].
  exists []. split; [now repeat split | reflexivity].
Qed.

(** A match of [RE_REQUIRE] at one position: the names and the source are
    the shortest the lazy quantifiers can stop at. *)
Lemma matchAt_require (i : nat) (s : jsstring) (m : matchResult) :
  matchAt RE_REQUIRE i s = Some m ->
  exists names source rest,
    s = lit "const {" ++ names ++ lit "} = require(" ++ source ++ lit ")"
          ++ rest /\
    matched m
    = lit "const {" ++ names ++ lit "} = require(" ++ source ++ lit ")" /\
    groups m = [names; source] /\
    names <> [] /\ forallb anyChar names = true /\
    source <> [] /\ forallb anyChar source = true /\
    shortestNames names (lit "} = require(" ++ source ++ lit ")" ++ rest) /\
    shortestSource source.
Proof.
  unfold matchAt, RE_REQUIRE. intros H.
  apply run_lit_seq in H as (s1 & Hs & H).
  apply run_lazy_group in H as (names & s2 & -> & Hne & Hn & H & Hmin).
  apply run_lit_seq in H as (s3 & -> & H).
  apply run_lazy_group in H as (source & s4 & -> & Hnes & Hsrc & H & Hmin').
  cbn [run] in H. destruct (startsWith (lit ")") s4) eqn:E; [|discriminate].
  apply startsWith_app in E. set (rest := drop (length (lit ")")) s4) in *.
  rewrite E in Hs, Hmin, Hmin'. clearbody rest. clear E s4.
  injection H as <-. simpl.
  exists names, source, rest. split; [exact Hs|]. split.
  { rewrite Hs at 2.
    replace (lit "const {" ++ names ++ lit "} = require(" ++ source
               ++ lit ")" ++ rest)
      with ((lit "const {" ++ names ++ lit "} = require(" ++ source
               ++ lit ")") ++ rest) by now rewrite <- !app_assoc.
    rewrite Hs, !length_app. simpl length.
    match goal with
    | |- take ?n _ = _ =>
        replace n with (length (lit "const {" ++ names ++ lit "} = require("
                                  ++ source ++ lit ")"))
          by (rewrite !length_app; simpl length; lia)
    end.
    apply take_app_length. }
  split; [reflexivity|]. split; [exact Hne|]. split; [exact Hn|].
  split; [exact Hnes|]. split; [exact Hsrc|]. split.
  - intros n1 n2 Hsplit Hne1 Hne2 Htail.
    apply requireTailAtHead_denotes in Htail.
    pose proof (Hmin n1 n2 Hsplit Hne1 Hne2) as Hnone.
    apply run_None in Hnone; [now apply Hnone | intros; eauto].
  - unfold shortestSource. apply forallb_forall. intros c Hc.
    destruct source as [|d tl]; [congruence|]. simpl in Hc.
    apply in_split in Hc as (t1 & t2 & ->).
    specialize (Hmin' (d :: t1) (c :: t2) eq_refl).
    cbn [run] in Hmin'.
    destruct (startsWith (lit ")") ((c :: t2) ++ lit ")" ++ rest)) eqn:E.
    + discriminate Hmin'; discriminate.
    + simpl in E. apply andb_false_iff in E as [E|E]; [|discriminate].
      apply negb_true_iff. rewrite N.eqb_sym. exact E.
Qed.

(** X8. [replaceRequireWithImport] changes exactly the lines that contain
    [const {names} = require(source)] (names and source not empty, on one
    line), and rewrites the require that [String.prototype.replace] finds:
    the first place of the line where such a require starts, with the
    shortest names a closing brace and the rest of a require follow, and
    the source up to the first closing parenthesis after its first
    character. That text becomes [import {names} from source], the text
    before and after it stays, and every other line is returned as it
    is. *)
Theorem require_rewritten_in_place (line : jsstring) :
  (hasRequire line ->
   exists pre post names source,
     line = pre ++ (lit "const {" ++ names ++ lit "} = require(" ++ source
                      ++ lit ")") ++ post /\
     names <> [] /\ forallb anyChar names = true /\
     source <> [] /\ forallb anyChar source = true /\
     noRequireStartsIn pre
       ((lit "const {" ++ names ++ lit "} = require(" ++ source ++ lit ")")
          ++ post) /\
     shortestNames names (lit "} = require(" ++ source ++ lit ")" ++ post) /\
     shortestSource source /\
     replaceRequireWithImport [line]
     = [pre ++ (lit "import {" ++ names ++ lit "} from " ++ source) ++ post]) /\
  (~ hasRequire line -> replaceRequireWithImport [line] = [line]).
Proof.
  split.
  - intros H. apply matches_require, matches_true in H as [m Hm].
    unfold replaceRequireWithImport. cbn [List.map].
    rewrite (matches_Some _ _ _ Hm).
    destruct (exec_first _ _ _ Hm)
      as (pre & post & Hline & _ & _ & Hat & Hno & Hrep).
    destruct (matchAt_require _ _ _ Hat)
      as (names & source & rest & Hs & Hw & Hg & Hne & Hn & Hnes & Hsrc
          & Hmin & Hmin').
    assert (rest = post) as ->.
    { rewrite Hw in Hs. rewrite <- !app_assoc in Hs.
      now repeat apply app_inv_head in Hs. }
    rewrite Hw in Hline, Hno. exists pre, post, names, source.
    split; [exact Hline|]. split; [exact Hne|]. split; [exact Hn|].
    split; [exact Hnes|]. split; [exact Hsrc|]. split.
    { intros pre1 pre2 Hp Hne2 Hhead. apply (Hno pre1 pre2 Hp Hne2).
      now apply requireAtHead_denotes. }
    split; [exact Hmin|]. split; [exact Hmin'|].
    rewrite Hrep, getSubstitution_import by now rewrite Hg.
    unfold group. now rewrite Hg.
  - intros H. unfold replaceRequireWithImport. cbn [List.map].
    destruct (matches RE_REQUIRE line) eqn:E; [|reflexivity].
    now apply matches_require in E.
Qed.

Lemma require_rewritten_in_place_witness :
  (exists pre post names source,
     twoRequires
     = pre ++ (lit "const {" ++ names ++ lit "} = require(" ++ source
                 ++ lit ")") ++ post /\
     names <> [] /\ forallb anyChar names = true /\
     source <> [] /\ forallb anyChar source = true /\
     noRequireStartsIn pre
       ((lit "const {" ++ names ++ lit "} = require(" ++ source ++ lit ")")
          ++ post) /\
     shortestNames names (lit "} = require(" ++ source ++ lit ")" ++ post) /\
     shortestSource source /\
     replaceRequireWithImport [twoRequires]
     = [pre ++ (lit "import {" ++ names ++ lit "} from " ++ source) ++ post]) /\
  replaceRequireWithImport [twoRequires]
  = [lit "  import {a} from 'x'; const {b} = require('y');"] /\
  replaceRequireWithImport [lit "const a = require('x')"]
  = [lit "const a = require('x')"].
Proof.
  split; [|split].
  - apply (proj1 (require_rewritten_in_place _)).
    apply matches_require. reflexivity.
  - reflexivity.
  - apply (proj2 (require_rewritten_in_place _)).
    intros H. apply matches_require in H. discriminate H.
Defined.
